(** * cve_bot: a shallow embedding of [scripts/cve_watch.py]

    The script polls the NVD API for recent advisories matching a watchlist,
    normalises and tags them, filters out the ones already announced, posts the
    rest to a Slack webhook and records what was posted.

    Conventions of the embedding.
    - A Python [str] is a [string], a sequence of bytes. The embedding of
      [lower], [strip] and slicing is exact on ASCII text ([str.isascii()]),
      where a character is a byte; the properties that need this are stated
      for ASCII text.
    - A JSON object read with [.get] is a record whose fields are options:
      [None] is an absent key. The replies of the NVD API follow its schema.
    - Effects are threaded through a state-and-exception monad [M]: the state
      holds the posted-store file and the chronological trace of what the run
      did; the answers of the outside world (environment variables, the clock,
      the watchlist file, the NVD API, the webhook) come from a [World].
    - Dates are counted in microseconds. The fetch computes the start of its
      time window, which can fail; the [pubStartDate]/[pubEndDate] parameters
      and the [posted_at] stamp themselves are left out of the requests and
      of the store file.
    - The store file, when it exists and is JSON, is an object whose
      [cve_ids], when present, is a list of strings; writing it succeeds. *)

From Stdlib Require Import String Ascii List ZArith QArith Lia Bool Sorted Permutation.
From Stdlib Require Import DecimalString.
From stdpp Require Import gmap strings sorting.
Import ListNotations.

Local Open Scope string_scope.
Local Open Scope list_scope.

(** ** Strings as Python uses them *)

Module PyStr.

(** [s.isascii()]: every character is below 128. *)
Fixpoint isascii (s : string) : bool :=
  match s with
  | EmptyString => true
  | String c s' => (nat_of_ascii c <? 128)%nat && isascii s'
  end.

(** [c.lower()] on one ASCII character. *)
Definition lower_ascii (c : ascii) : ascii :=
  let n := nat_of_ascii c in
  if (65 <=? n)%nat && (n <=? 90)%nat then ascii_of_nat (n + 32) else c.

(** [s.lower()] *)
Fixpoint lower (s : string) : string :=
  match s with
  | EmptyString => EmptyString
  | String c s' => String (lower_ascii c) (lower s')
  end.

(** [needle in hay]: [needle] starts at some position of [hay]. *)
Fixpoint contains (needle hay : string) : bool :=
  String.prefix needle hay ||
  match hay with
  | EmptyString => false
  | String _ hay' => contains needle hay'
  end.

(** Characters removed by [str.strip()] (ASCII range). *)
Definition is_space (c : ascii) : bool :=
  let n := nat_of_ascii c in
  ((9 <=? n)%nat && (n <=? 13)%nat) || ((28 <=? n)%nat && (n <=? 32)%nat).

Fixpoint lstrip (s : string) : string :=
  match s with
  | EmptyString => EmptyString
  | String c s' => if is_space c then lstrip s' else s
  end.

Fixpoint rstrip (s : string) : string :=
  match s with
  | EmptyString => EmptyString
  | String c s' =>
      match rstrip s' with
      | EmptyString => if is_space c then EmptyString else String c EmptyString
      | r => String c r
      end
  end.

Definition strip (s : string) : string := rstrip (lstrip s).

(** Truthiness of a string: non-empty. *)
Definition truthy (s : string) : bool :=
  match s with EmptyString => false | _ => true end.

(** [o or d] for an optional string [o] ([None] and the empty string are falsy). *)
Definition or_else (o : option string) (d : string) : string :=
  match o with
  | Some s => if truthy s then s else d
  | None => d
  end.

End PyStr.

(** ** Data model *)

(** [CvssInfo] (frozen dataclass). *)
Record CvssInfo := {
  version : string;
  base_score : option Q;
  severity : option string
}.

(** [CveItem] (frozen dataclass). *)
Record CveItem := {
  cve_id : string;
  published : string;
  cvss : CvssInfo;
  summary : string;
  tags : list string;
  references : list string;
  nvd_url : string
}.

(** The raw NVD record, as far as the script reads it. *)
Record RawCvssData := {
  cd_version : option string;
  cd_baseScore : option Q;
  cd_baseSeverity : option string
}.

(** One entry of a metric group; [None] in a group is a [null] entry. *)
Record RawMetric := { m_cvssData : option RawCvssData }.

Record RawMetrics := {
  cvssMetricV31 : option (list (option RawMetric));
  cvssMetricV30 : option (list (option RawMetric));
  cvssMetricV2 : option (list (option RawMetric))
}.

Record RawDescription := { d_lang : option string; d_value : option string }.

Record RawReference := { r_url : option string }.

(** The [cve] object. [raw_other_keys] says whether the object has keys
    besides the ones below: it only matters for the truthiness of the dict. *)
Record RawCve := {
  raw_id : option string;
  raw_published : option string;
  raw_lastModified : option string;
  raw_descriptions : option (list RawDescription);
  raw_references : option (list RawReference);
  raw_metrics : option RawMetrics;
  raw_other_keys : bool
}.

(** [tag_rules]: a dict in iteration order; a tag's keywords may be [null]. *)
Definition TagRules := list (string * option (list string)).

(** ** Normaliser *)

Inductive metric_key := KeyV31 | KeyV30 | KeyV2.

Definition metric_key_name (k : metric_key) : string :=
  match k with
  | KeyV31 => "cvssMetricV31"
  | KeyV30 => "cvssMetricV30"
  | KeyV2 => "cvssMetricV2"
  end.

(** [metrics.get(key)] *)
Definition metrics_get (metrics : RawMetrics) (k : metric_key)
  : option (list (option RawMetric)) :=
  match k with
  | KeyV31 => cvssMetricV31 metrics
  | KeyV30 => cvssMetricV30 metrics
  | KeyV2 => cvssMetricV2 metrics
  end.

Definition empty_metrics : RawMetrics :=
  {| cvssMetricV31 := None; cvssMetricV30 := None; cvssMetricV2 := None |}.

Definition empty_metric : RawMetric := {| m_cvssData := None |}.

Definition empty_cvss_data : RawCvssData :=
  {| cd_version := None; cd_baseScore := None; cd_baseSeverity := None |}.

(** What [_extract_cvss] builds from the first entry of a non-empty group. *)
Definition cvss_of_entry (entry0 : option RawMetric) : CvssInfo :=
  let cvss_data := default empty_cvss_data (m_cvssData (default empty_metric entry0)) in
  {| version := default "" (cd_version cvss_data);
     base_score := cd_baseScore cvss_data;
     severity := cd_baseSeverity cvss_data |}.

Definition cvss_na : CvssInfo :=
  {| version := "N/A"; base_score := None; severity := None |}.

(** The [for key in (...)] loop of [_extract_cvss]. *)
Fixpoint extract_cvss_loop (metrics : RawMetrics) (keys : list metric_key) : CvssInfo :=
  match keys with
  | [] => cvss_na
  | key :: rest =>
      match default [] (metrics_get metrics key) with
      | [] => extract_cvss_loop metrics rest
      | entry0 :: _ => cvss_of_entry entry0
      end
  end.

Definition _extract_cvss (cve : RawCve) : CvssInfo :=
  let metrics := default empty_metrics (raw_metrics cve) in
  extract_cvss_loop metrics [KeyV31; KeyV30; KeyV2].

(** The [for entry in descriptions] loop of [_extract_summary]. *)
Fixpoint first_english (descriptions : list RawDescription) : option string :=
  match descriptions with
  | [] => None
  | entry :: rest =>
      match d_lang entry, d_value entry with
      | Some lang, Some value =>
          if String.eqb lang "en" && PyStr.truthy value
          then Some (PyStr.strip value)
          else first_english rest
      | _, _ => first_english rest
      end
  end.

Definition _extract_summary (cve : RawCve) : string :=
  let descriptions := default [] (raw_descriptions cve) in
  match first_english descriptions with
  | Some s => s
  | None =>
      match descriptions with
      | first :: _ => PyStr.strip (default "" (d_value first))
      | [] => ""
      end
  end.

(** [[ref.get("url") for ref in refs if ref.get("url")]] *)
Fixpoint reference_urls (refs : list RawReference) : list string :=
  match refs with
  | [] => []
  | ref :: rest =>
      match r_url ref with
      | Some u => if PyStr.truthy u then u :: reference_urls rest else reference_urls rest
      | None => reference_urls rest
      end
  end.

Definition _extract_references (cve : RawCve) : list string :=
  let refs := default [] (raw_references cve) in
  firstn 3 (reference_urls refs).

(** ** Tagger *)

(** [any(keyword.lower() in corpus for keyword in keywords or [])] *)
Definition any_keyword (corpus : string) (keywords : option (list string)) : bool :=
  existsb (fun keyword => PyStr.contains (PyStr.lower keyword) corpus) (default [] keywords).

(** The [for tag, keywords in tag_rules.items()] loop, with its accumulator. *)
Fixpoint tag_loop (corpus : string) (rules : TagRules) (tags : list string) : list string :=
  match rules with
  | [] => tags
  | (tag, keywords) :: rest =>
      if any_keyword corpus keywords
      then tag_loop corpus rest (tags ++ [tag])
      else tag_loop corpus rest tags
  end.

(** The corpus: [" ".join([summary, *references]).lower()] *)
Definition tag_corpus (summary : string) (references : list string) : string :=
  PyStr.lower (String.concat " " (summary :: references)).

Definition _tag_item (summary : string) (references : list string) (tag_rules : TagRules)
  : list string :=
  let corpus := tag_corpus summary references in
  tag_loop corpus tag_rules [].

Definition _normalize_item (cve : RawCve) (tag_rules : TagRules) : CveItem :=
  let cve_id := PyStr.or_else (raw_id cve) "UNKNOWN" in
  let published :=
    PyStr.or_else (raw_published cve) (PyStr.or_else (raw_lastModified cve) "") in
  let summary := _extract_summary cve in
  let references := _extract_references cve in
  let cvss := _extract_cvss cve in
  let tags := _tag_item summary references tag_rules in
  let nvd_url := "https://nvd.nist.gov/vuln/detail/" +:+ cve_id in
  {| cve_id := cve_id;
     published := published;
     cvss := cvss;
     summary := summary;
     tags := tags;
     references := references;
     nvd_url := nvd_url |}.

(** ** The outside world and the effects of a run *)

(** The exceptions of [requests] the script meets ([HTTPError] is a
    [RequestException]); each carries the text [str(exc)] gives. *)
Inductive request_exception :=
  | ConnectionFailure (msg : string)
  | HTTPError (status : Z) (msg : string)
  | InvalidJSON (msg : string).

Definition str_request_exception (e : request_exception) : string :=
  match e with
  | ConnectionFailure msg => msg
  | HTTPError _ msg => msg
  | InvalidJSON msg => msg
  end.

(** Python exceptions. [RuntimeError] keeps its [__cause__]. None of the
    other classes is a subclass of [RuntimeError]. [WatchlistError] stands
    for the exception that [_load_watchlist] ends with when it fails: an
    [OSError] of [open], a [YAMLError], or the [AttributeError] of a document
    that is no mapping. *)
Inductive exn :=
  | RuntimeError (msg : string) (cause : option request_exception)
  | RequestException (e : request_exception)
  | ValueError (msg : string)
  | WatchlistError (msg : string)
  | OverflowError
  | AttributeError.

Inductive outcome (A : Type) :=
  | Ok (a : A)
  | Raise (e : exn).
Arguments Ok {A} a.
Arguments Raise {A} e.

(** The body of an NVD reply. *)
Record RawEntry := { e_cve : option RawCve }.
Record NvdBody := { vulnerabilities : option (list (option RawEntry)) }.

(** The body of a response, as [response.json()] sees it. *)
Inductive body_reply :=
  | NotJson (msg : string)
  | Json (body : NvdBody).

(** A [requests.Response]: [error_text] is the text of the [HTTPError] that
    [raise_for_status] builds from it. *)
Record Response := {
  status_code : Z;
  error_text : string;
  json_body : body_reply
}.

(** What [requests.get] and [requests.post] do: raise a [RequestException]
    (connection error, timeout) or return a response. *)
Inductive http_reply :=
  | NetworkFailure (msg : string)
  | Replied (response : Response).

(** A parsed watchlist file; [None] fields are absent keys. The value of
    [tag_rules] is a mapping or [null]: [Some None] is the key with the value
    [null]. *)
Record WatchlistYaml := {
  y_queries : option (list string);
  y_tag_rules : option (option TagRules)
}.

(** Reading the watchlist. [LoadFailure]: [_load_watchlist] raises, because
    the file cannot be opened or parsed or its document is no mapping.
    [Loaded]: [yaml.safe_load] returns an empty document ([None]) or a
    mapping whose [queries], if present, is a list of strings, and whose
    [tag_rules], if present, is [null] or maps tags to lists of strings. *)
Inductive file_reply :=
  | LoadFailure (msg : string)
  | Loaded (data : option WatchlistYaml).

(** The dict [_load_watchlist] returns, after its two [setdefault]s, which
    leave a key that is present as it is: [tag_rules] is [None] when the file
    gives it the value [null]. *)
Record Watchlist := { queries : list string; tag_rules : option TagRules }.

(** The posted-store file. *)
Inductive StoreFile :=
  | FileAbsent
  | FileUnparsable
  | FileJson (cve_ids : option (list string)).

(** [int(os.getenv("HOURS_BACK", "24"))] depends on the variable being unset,
    a valid integer literal, or anything else ([msg] is then the text of the
    [ValueError]). *)
Inductive hours_env :=
  | HoursUnset
  | HoursInt (n : Z)
  | HoursInvalid (msg : string).

(** Request parameters and headers, without the time window. *)
Record Params := { keywordSearch : string; cvssV3Severity : string }.
Record Headers := { apiKey : option string }.

(** Everything the run does not control. The k-th call of a kind (counted
    from 0 within the run) gets the k-th answer. [datetime_now] is what
    [datetime.now(timezone.utc)] returns when the fetch starts, in
    microseconds from [datetime.min], the start of the year 1. *)
Record World := {
  env_SLACK_WEBHOOK_URL : option string;
  env_HOURS_BACK : hours_env;
  env_NVD_API_KEY : option string;
  datetime_now : Z;
  watchlist_file : nat -> file_reply;
  nvd_api : nat -> Params -> http_reply;
  slack_webhook : nat -> CveItem -> http_reply;
  posted_file : StoreFile
}.

(** What a run does, in order. [SlackPost url item] is the POST of
    [_format_message(item)] to [url]. *)
Inductive event :=
  | ReadWatchlist
  | HttpGet (params : Params) (headers : Headers)
  | Sleep (seconds : Z)
  | ReadStore
  | SlackPost (webhook_url : string) (item : CveItem)
  | WriteStore (cve_ids : list string)
  | Print (msg : string)
  | PrintErr (msg : string).

Record State := { store : StoreFile; trace : list event }.

Definition initial_state (w : World) : State :=
  {| store := posted_file w; trace := [] |}.

Definition is_ReadWatchlist (ev : event) : bool :=
  match ev with ReadWatchlist => true | _ => false end.
Definition is_HttpGet (ev : event) : bool :=
  match ev with HttpGet _ _ => true | _ => false end.
Definition is_SlackPost (ev : event) : bool :=
  match ev with SlackPost _ _ => true | _ => false end.
Definition is_WriteStore (ev : event) : bool :=
  match ev with WriteStore _ => true | _ => false end.
Definition is_Sleep (ev : event) : bool :=
  match ev with Sleep _ => true | _ => false end.

Definition count_events (p : event -> bool) (tr : list event) : nat :=
  length (List.filter p tr).

(** *** The monad *)

Definition M (A : Type) : Type := State -> outcome A * State.

Definition ret {A} (a : A) : M A := fun st => (Ok a, st).

Definition bind {A B} (m : M A) (k : A -> M B) : M B :=
  fun st =>
    match m st with
    | (Ok a, st') => k a st'
    | (Raise e, st') => (Raise e, st')
    end.

Definition raise {A} (e : exn) : M A := fun st => (Raise e, st).

Declare Scope py_scope.
Delimit Scope py_scope with py.
Notation "x <- m ;; k" := (bind m (fun x => k))
  (at level 100, m at next level, right associativity) : py_scope.
Notation "m ;; k" := (bind m (fun _ => k))
  (at level 100, right associativity) : py_scope.
Local Open Scope py_scope.

Definition emit (ev : event) : M unit :=
  fun st => (Ok tt, {| store := store st; trace := trace st ++ [ev] |}).

(** The trace so far, and the store file as it is now. *)
Definition get_trace : M (list event) := fun st => (Ok (trace st), st).

Definition read_store : M StoreFile := fun st => (Ok (store st), st).

Definition write_store (f : StoreFile) : M unit :=
  fun st => (Ok tt, {| store := f; trace := trace st |}).

(** [try: m except RuntimeError as exc: ...]: the handler gets [str(exc)]. *)
Definition try_RuntimeError {A} (m : M A) : M (A + string) :=
  fun st =>
    match m st with
    | (Ok a, st') => (Ok (inl a), st')
    | (Raise (RuntimeError msg _), st') => (Ok (inr msg), st')
    | (Raise e, st') => (Raise e, st')
    end.

(** [try: m except requests.RequestException as exc: ...] *)
Definition try_RequestException {A} (m : M A) : M (A + request_exception) :=
  fun st =>
    match m st with
    | (Ok a, st') => (Ok (inl a), st')
    | (Raise (RequestException e), st') => (Ok (inr e), st')
    | (Raise e, st') => (Raise e, st')
    end.

(** *** Primitive effects *)

Definition print (msg : string) : M unit := emit (Print msg).
Definition print_stderr (msg : string) : M unit := emit (PrintErr msg).
Definition sleep (seconds : Z) : M unit := emit (Sleep seconds).

(** [requests.get(url, params=..., headers=..., timeout=...)] *)
Definition requests_get (w : World) (params : Params) (headers : Headers) : M Response :=
  tr <- get_trace ;;
  emit (HttpGet params headers) ;;
  match nvd_api w (count_events is_HttpGet tr) params with
  | NetworkFailure msg => raise (RequestException (ConnectionFailure msg))
  | Replied response => ret response
  end.

(** [requests.post(webhook_url, json={"text": text}, timeout=15)] with
    [text = _format_message(item)]. *)
Definition requests_post (w : World) (webhook_url : string) (item : CveItem) : M Response :=
  tr <- get_trace ;;
  emit (SlackPost webhook_url item) ;;
  match slack_webhook w (count_events is_SlackPost tr) item with
  | NetworkFailure msg => raise (RequestException (ConnectionFailure msg))
  | Replied response => ret response
  end.

(** [response.raise_for_status()] *)
Definition raise_for_status (response : Response) : M unit :=
  if (400 <=? status_code response)%Z && (status_code response <? 600)%Z
  then raise (RequestException (HTTPError (status_code response) (error_text response)))
  else ret tt.

(** [response.json()] *)
Definition response_json (response : Response) : M NvdBody :=
  match json_body response with
  | Json body => ret body
  | NotJson msg => raise (RequestException (InvalidJSON msg))
  end.

(** ** Watchlist loader *)

Definition empty_yaml : WatchlistYaml := {| y_queries := None; y_tag_rules := None |}.

(** [_load_watchlist(WATCHLIST_PATH)] *)
Definition _load_watchlist (w : World) : M Watchlist :=
  tr <- get_trace ;;
  emit ReadWatchlist ;;
  match watchlist_file w (count_events is_ReadWatchlist tr) with
  | LoadFailure msg => raise (WatchlistError msg)
  | Loaded loaded =>
      let data := default empty_yaml loaded in
      ret {| queries := default [] (y_queries data);
             tag_rules := default (Some []) (y_tag_rules data) |}
  end.

(** ** Advisory fetcher *)

Definition MAX_RETRIES : Z := 3.

(** [range(lo, hi)] *)
Definition range (lo hi : Z) : list Z :=
  map (fun i => (lo + Z.of_nat i)%Z) (seq 0 (Z.to_nat (hi - lo))).

(** [status_code in {429, 500, 502, 503, 504}] *)
Definition is_transient (status : Z) : bool :=
  existsb (Z.eqb status) [429; 500; 502; 503; 504]%Z.

(** The [for attempt in range(1, MAX_RETRIES + 1)] loop of
    [_request_with_retry], followed by the [raise] after the loop. *)
Fixpoint retry_loop (w : World) (params : Params) (headers : Headers)
    (attempts : list Z) : M NvdBody :=
  match attempts with
  | [] => raise (RuntimeError "NVD request failed after retries." None)
  | attempt :: rest =>
      r <- try_RequestException (requests_get w params headers) ;;
      match r with
      | inr exc =>
          if (attempt =? MAX_RETRIES)%Z
          then raise (RuntimeError ("NVD request failed: " +:+ str_request_exception exc)
                                   (Some exc))
          else sleep (2 ^ attempt) ;; retry_loop w params headers rest
      | inl response =>
          if is_transient (status_code response)
          then
            (if (attempt =? MAX_RETRIES)%Z then raise_for_status response else ret tt) ;;
            sleep (2 ^ attempt) ;;
            retry_loop w params headers rest
          else
            raise_for_status response ;;
            response_json response
      end
  end.

Definition _request_with_retry (w : World) (params : Params) (headers : Headers)
  : M NvdBody :=
  retry_loop w params headers (range 1 (MAX_RETRIES + 1)).

(** A dict in insertion order: assigning to a key that is present keeps the
    key's position and replaces its value. *)
Fixpoint dict_set {V} (d : list (string * V)) (k : string) (v : V) : list (string * V) :=
  match d with
  | [] => [(k, v)]
  | (k', v') :: rest =>
      if String.eqb k' k then (k', v) :: rest else (k', v') :: dict_set rest k v
  end.

Definition dict_values {V} (d : list (string * V)) : list V := map snd d.

Definition empty_entry : RawEntry := {| e_cve := None |}.

Definition empty_cve : RawCve :=
  {| raw_id := None; raw_published := None; raw_lastModified := None;
     raw_descriptions := None; raw_references := None; raw_metrics := None;
     raw_other_keys := false |}.

(** [not cve]: the dict has no key at all. *)
Definition cve_is_empty (cve : RawCve) : bool :=
  match raw_id cve, raw_published cve, raw_lastModified cve,
        raw_descriptions cve, raw_references cve, raw_metrics cve with
  | None, None, None, None, None, None => negb (raw_other_keys cve)
  | _, _, _, _, _, _ => false
  end.

(** [_normalize_item(cve, tag_rules)] as the fetch calls it, with the
    [tag_rules] of the watchlist: when that is [None], [_tag_item] fails at
    [tag_rules.items()]. *)
Definition normalize_with (tag_rules : option TagRules) (cve : RawCve) : M CveItem :=
  match tag_rules with
  | Some rules => ret (_normalize_item cve rules)
  | None => raise AttributeError
  end.

(** The [for entry in data.get("vulnerabilities", []) or []] loop. *)
Fixpoint merge_entries (tag_rules : option TagRules) (entries : list (option RawEntry))
    (items : list (string * CveItem)) : M (list (string * CveItem)) :=
  match entries with
  | [] => ret items
  | entry :: rest =>
      let cve := default empty_cve (e_cve (default empty_entry entry)) in
      if cve_is_empty cve
      then merge_entries tag_rules rest items
      else
        item <- normalize_with tag_rules cve ;;
        merge_entries tag_rules rest (dict_set items (cve_id item) item)
  end.

(** Insertion of [x] in a list sorted by [published], largest first; [x]
    goes before the elements whose key is not larger than its own. *)
Fixpoint insert_desc (x : CveItem) (l : list CveItem) : list CveItem :=
  match l with
  | [] => [x]
  | y :: l' =>
      if String.ltb (published x) (published y) then y :: insert_desc x l' else x :: l
  end.

(** [sorted(l, key=lambda item: item.published, reverse=True)]: the stable
    sort, largest key first, equal keys in their original order. *)
Definition sorted_by_published_desc (l : list CveItem) : list CveItem :=
  fold_right insert_desc [] l.

(** The [for severity in ("HIGH", "CRITICAL")] loop. *)
Fixpoint fetch_severities (w : World) (headers : Headers) (tag_rules : option TagRules)
    (query : string) (severities : list string) (items : list (string * CveItem))
  : M (list (string * CveItem)) :=
  match severities with
  | [] => ret items
  | severity :: rest =>
      let params := {| keywordSearch := query; cvssV3Severity := severity |} in
      data <- _request_with_retry w params headers ;;
      items' <- merge_entries tag_rules (default [] (vulnerabilities data)) items ;;
      fetch_severities w headers tag_rules query rest items'
  end.

(** The [for query in queries] loop. *)
Fixpoint fetch_queries (w : World) (headers : Headers) (tag_rules : option TagRules)
    (queries : list string) (items : list (string * CveItem))
  : M (list (string * CveItem)) :=
  match queries with
  | [] => ret items
  | query :: rest =>
      items' <- fetch_severities w headers tag_rules query ["HIGH"; "CRITICAL"] items ;;
      fetch_queries w headers tag_rules rest items'
  end.

(** [datetime.max], the last microsecond of the year 9999, and the largest
    number of days of a [timedelta]. *)
Definition DATETIME_MAX : Z := 3652059 * 86400000000 - 1.
Definition MAX_DELTA_DAYS : Z := 999999999.

(** [timedelta(hours=hours)], in microseconds: its number of days,
    [hours // 24], must not exceed [MAX_DELTA_DAYS] in magnitude. *)
Definition timedelta_hours (hours : Z) : M Z :=
  if (Z.abs (hours / 24) <=? MAX_DELTA_DAYS)%Z
  then ret (hours * 3600000000)%Z
  else raise OverflowError.

(** [dt - delta]: the result must be a date of the years 1 to 9999. *)
Definition datetime_sub (dt delta : Z) : M Z :=
  let result := (dt - delta)%Z in
  if (0 <=? result)%Z && (result <=? DATETIME_MAX)%Z
  then ret result
  else raise OverflowError.

(** [_fetch_cves], from [headers = ...] on. *)
Definition fetch_in_window (w : World) (queries : list string)
    (api_key : option string) : M (list CveItem) :=
  let headers :=
    {| apiKey := match api_key with
                 | Some key => if PyStr.truthy key then Some key else None
                 | None => None
                 end |} in
  watchlist <- _load_watchlist w ;;
  let tag_rules := tag_rules watchlist in
  items <- fetch_queries w headers tag_rules queries [] ;;
  ret (sorted_by_published_desc (dict_values items)).

(** [_fetch_cves(queries, api_key, hours_back)]. The start of the window is
    computed first; it goes into the request parameters, which the embedding
    leaves out. *)
Definition _fetch_cves (w : World) (queries : list string) (api_key : option string)
    (hours_back : Z) : M (list CveItem) :=
  let now := datetime_now w in
  delta <- timedelta_hours hours_back ;;
  start <- datetime_sub now delta ;;
  fetch_in_window w queries api_key.

(** ** Dedup store *)

(** [_load_posted(POSTED_PATH)] *)
Definition _load_posted : M (gset string) :=
  emit ReadStore ;;
  file <- read_store ;;
  match file with
  | FileAbsent => ret ∅
  | FileUnparsable => ret ∅
  | FileJson cve_ids => ret (list_to_set (default [] cve_ids))
  end.

Fixpoint insert_asc (x : string) (l : list string) : list string :=
  match l with
  | [] => [x]
  | y :: l' => if String.ltb y x then y :: insert_asc x l' else x :: l
  end.

(** [sorted(set(cve_ids))] *)
Definition sorted_ids (cve_ids : gset string) : list string :=
  fold_right insert_asc [] (elements cve_ids).

(** [_save_posted(POSTED_PATH, cve_ids)] *)
Definition _save_posted (cve_ids : gset string) : M unit :=
  let payload := sorted_ids cve_ids in
  emit (WriteStore payload) ;;
  write_store (FileJson (Some payload)).

(** The ids a store file holds, as [_load_posted] reads them. *)
Definition store_ids (f : StoreFile) : gset string :=
  match f with
  | FileJson (Some cve_ids) => list_to_set cve_ids
  | _ => ∅
  end.

(** ** Notifier *)

(** The line separator of [_format_message]. *)
Definition newline : string := String (ascii_of_nat 10) EmptyString.

(** [f"{x}"] for an optional string: [None] is rendered as "None". *)
Definition str_optional (o : option string) : string := default "None" o.

(** [_format_message(item)]. [str_float] is the rendering of a float by an
    f-string, which the embedding takes as given. *)
Definition _format_message (str_float : Q -> string) (item : CveItem) : string :=
  let cvss_part :=
    match base_score (cvss item) with
    | Some score => str_float score +:+ " (" +:+ str_optional (severity (cvss item)) +:+ ")"
    | None => "N/A"
    end in
  let tags_part :=
    match tags item with
    | [] => "none"
    | _ :: _ => String.concat ", " (tags item)
    end in
  let lines :=
    [ "*" +:+ cve_id item +:+ "*";
      "Published: " +:+ published item;
      "CVSS: " +:+ cvss_part;
      "Tags: " +:+ tags_part;
      "Summary: " +:+ String.substring 0 300 (summary item);
      "NVD: " +:+ nvd_url item ] in
  let lines :=
    match references item with
    | [] => lines
    | _ :: _ => lines ++ ["References: " +:+ String.concat ", " (references item)]
    end in
  String.concat newline lines.

(** [_post_to_slack(webhook_url, _format_message(item))] *)
Definition _post_to_slack (w : World) (webhook_url : string) (item : CveItem) : M unit :=
  response <- requests_post w webhook_url item ;;
  raise_for_status response.

(** ** Orchestrator *)

(** [str(n)] for an integer. *)
Definition str_int (n : Z) : string := NilZero.string_of_int (Z.to_int n).

(** The [for item in to_post] loop of [main]; leaving by [break] or at the
    end of the list both continue after the loop with [posted_now]. *)
Fixpoint notify_loop (w : World) (webhook_url : string) (to_post : list CveItem)
    (posted_now : gset string) : M (gset string) :=
  match to_post with
  | [] => ret posted_now
  | item :: rest =>
      r <- try_RequestException (_post_to_slack w webhook_url item) ;;
      match r with
      | inr exc =>
          print_stderr ("Slack post failed for " +:+ cve_id item +:+ ": "
                        +:+ str_request_exception exc) ;;
          ret posted_now
      | inl _ =>
          notify_loop w webhook_url rest (posted_now ∪ {[cve_id item]})
      end
  end.

(** [[item for item in items if item.cve_id not in posted_ids]] *)
Definition unposted (items : list CveItem) (posted_ids : gset string) : list CveItem :=
  List.filter (fun item => negb (bool_decide (cve_id item ∈ posted_ids))) items.

(** [main], from [posted_ids = _load_posted(POSTED_PATH)] to its end. *)
Definition main_after_fetch (w : World) (webhook_url : string) (items : list CveItem)
  : M Z :=
  posted_ids <- _load_posted ;;
  let to_post := unposted items posted_ids in
  match to_post with
  | [] =>
      print "No new CVEs to post." ;;
      ret 0%Z
  | _ :: _ =>
      posted_now <- notify_loop w webhook_url to_post posted_ids ;;
      _save_posted posted_now ;;
      print ("Posted " +:+ str_int (Z.of_nat (size posted_now) - Z.of_nat (size posted_ids))
             +:+ " CVEs.") ;;
      ret 0%Z
  end.

(** [int(os.getenv("HOURS_BACK", "24"))] *)
Definition read_hours_back (w : World) : M Z :=
  match env_HOURS_BACK w with
  | HoursUnset => ret 24%Z
  | HoursInt n => ret n
  | HoursInvalid msg => raise (ValueError msg)
  end.

(** [main()]: [Ok code] when it returns [code], [Raise e] when [e] leaves it. *)
Definition main (w : World) : M Z :=
  match env_SLACK_WEBHOOK_URL w with
  | None =>
      print_stderr "SLACK_WEBHOOK_URL is required." ;;
      ret 1%Z
  | Some webhook_url =>
      if negb (PyStr.truthy webhook_url)
      then
        print_stderr "SLACK_WEBHOOK_URL is required." ;;
        ret 1%Z
      else
        watchlist <- _load_watchlist w ;;
        match queries watchlist with
        | [] =>
            print_stderr "watchlist.yml has no queries." ;;
            ret 1%Z
        | _ :: _ =>
            hours_back <- read_hours_back w ;;
            let api_key := env_NVD_API_KEY w in
            r <- try_RuntimeError
                   (_fetch_cves w (queries watchlist) api_key hours_back) ;;
            match r with
            | inr msg =>
                print_stderr msg ;;
                ret 1%Z
            | inl items => main_after_fetch w webhook_url items
            end
        end
  end.

(** One run of the script from a fresh process. *)
Definition run (w : World) : outcome Z * State := main w (initial_state w).

(** [raise SystemExit(main())]: the status the process exits with. The code
    [main] returns is the exit status; an exception that leaves [main] is
    handled by nobody: the interpreter prints the traceback and exits with
    status 1. *)
Definition exit_status (r : outcome Z) : Z :=
  match r with
  | Ok code => code
  | Raise _ => 1
  end.

(** * Vocabulary of the properties

    The predicates, specification functions and concrete scenarios the
    properties below are stated with. *)

(** ** Strings *)

(** [needle] occurs in [hay]: the specification of Python's [in] on strings. *)
Definition is_substring (needle hay : string) : Prop :=
  exists pre post, hay = pre +:+ needle +:+ post.

(** [c] and [d] are the same character up to case: they are equal, or they
    are the upper and the lower case of one ASCII letter, which lie 32
    apart. *)
Definition same_letter (c d : ascii) : bool :=
  let m := nat_of_ascii c in
  let n := nat_of_ascii d in
  (m =? n)%nat
  || ((65 <=? m)%nat && (m <=? 90)%nat && (n =? m + 32)%nat)
  || ((65 <=? n)%nat && (n <=? 90)%nat && (m =? n + 32)%nat).

(** [s] and [t] are the same text up to the case of its letters. *)
Fixpoint case_variant (s t : string) : bool :=
  match s, t with
  | EmptyString, EmptyString => true
  | String c s', String d t' => same_letter c d && case_variant s' t'
  | _, _ => false
  end.



(** The ASCII characters that are whitespace for Python ([str.isspace()]),
    by their codes: tab to carriage return, the four separators, and the
    space. *)
Definition ascii_whitespace : list nat := [9; 10; 11; 12; 13; 28; 29; 30; 31; 32].

Fixpoint all_whitespace (s : string) : bool :=
  match s with
  | EmptyString => true
  | String c s' =>
      existsb (Nat.eqb (nat_of_ascii c)) ascii_whitespace && all_whitespace s'
  end.


(** ** Tagger *)

(** The rule matches the corpus: one of its keywords, lowercased, occurs in it. *)
Definition rule_matches (corpus : string) (keywords : option (list string)) : Prop :=
  exists kws keyword,
    keywords = Some kws /\ In keyword kws /\ is_substring (PyStr.lower keyword) corpus.

(** ** Normaliser: the cvss field *)



(** ** The sort of the fetch result *)

(** [a] may come before [b] in the result: [b.published <= a.published]. *)
Definition published_desc (a b : CveItem) : Prop :=
  String.leb (published b) (published a) = true.

(** ** The id-keyed merge *)

Definition dict_keys {V} (d : list (string * V)) : list string := map fst d.

(** Every value of the dict sits under its own id, as [items[item.cve_id] = item]
    ensures. *)
Definition keyed (d : list (string * CveItem)) : Prop :=
  Forall (fun kv => fst kv = cve_id (snd kv)) d.

(** The merge of a stream of items into the dict, one assignment each. *)
Definition merge_items (items : list (string * CveItem)) (stream : list CveItem)
  : list (string * CveItem) :=
  fold_left (fun d item => dict_set d (cve_id item) item) stream items.

(** [item] is the last of the stream with its id. *)
Definition last_with_id (stream : list CveItem) (item : CveItem) : Prop :=
  exists pre post,
    stream = pre ++ item :: post /\ Forall (fun j => cve_id j <> cve_id item) post.

(** The [cve] object of an entry, [{}] when there is none. *)
Definition entry_cve (entry : option RawEntry) : RawCve :=
  default empty_cve (e_cve (default empty_entry entry)).

(** The records of a reply that the fetch normalises, in order. *)
Definition body_records (body : NvdBody) : list RawCve :=
  List.filter (fun cve => negb (cve_is_empty cve))
    (map entry_cve (default [] (vulnerabilities body))).

(** The records of all replies, in processing order, and their items. *)
Definition processed_records (bodies : list NvdBody) : list RawCve :=
  flat_map body_records bodies.

Definition processed_items (tag_rules : TagRules) (bodies : list NvdBody) : list CveItem :=
  map (fun cve => _normalize_item cve tag_rules) (processed_records bodies).

(** ** Reasoning about runs *)

(** Classes of events. *)
Definition retry_event (ev : event) : bool := is_HttpGet ev || is_Sleep ev.
Definition fetch_event (ev : event) : bool := is_ReadWatchlist ev || retry_event ev.
Definition notify_event (ev : event) : bool :=
  match ev with SlackPost _ _ | PrintErr _ => true | _ => false end.

(** The state with another store file. *)
Definition with_store (s : StoreFile) (st : State) : State :=
  {| store := s; trace := trace st |}.

(** [only_emits p m]: [m] neither reads nor writes the store file, and adds
    to the trace only events of class [p]. *)
Definition only_emits (p : event -> bool) {A} (m : M A) : Prop :=
  forall tr, exists r evs,
    forallb p evs = true /\
    forall s, m {| store := s; trace := tr |} = (r, {| store := s; trace := tr ++ evs |}).

(** ** What the fetch returns *)

(** The API answered a request with parameters [params] by a response whose
    JSON body is [body]. *)
Definition api_returned (w : World) (params : Params) (body : NvdBody) : Prop :=
  exists k response,
    nvd_api w k params = Replied response /\ json_body response = Json body.

(** The requests of a fetch, in order. *)
Definition request_pairs (queries : list string) : list Params :=
  flat_map (fun query =>
              [ {| keywordSearch := query; cvssV3Severity := "HIGH" |};
                {| keywordSearch := query; cvssV3Severity := "CRITICAL" |} ])
           queries.

(** The tag rules the [k]-th reading of the watchlist file yields, if it
    yields a mapping. *)
Definition loaded_tag_rules (w : World) (k : nat) : option TagRules :=
  match watchlist_file w k with
  | LoadFailure _ => None
  | Loaded loaded => default (Some []) (y_tag_rules (default empty_yaml loaded))
  end.

(** The queries the [k]-th reading of the watchlist file yields. *)
Definition loaded_queries (w : World) (k : nat) : option (list string) :=
  match watchlist_file w k with
  | LoadFailure _ => None
  | Loaded loaded => Some (default [] (y_queries (default empty_yaml loaded)))
  end.

(** The start of the time window of a fetch [hours_back] hours back is a
    date: neither [timedelta] nor the subtraction overflows. *)
Definition window_in_range (w : World) (hours_back : Z) : bool :=
  (Z.abs (hours_back / 24) <=? MAX_DELTA_DAYS)%Z
  && ((0 <=? datetime_now w - hours_back * 3600000000)%Z
      && (datetime_now w - hours_back * 3600000000 <=? DATETIME_MAX)%Z).

(** The [k]-th reading of the watchlist file finds [tag_rules] with the
    value [null]. *)
Definition tag_rules_null (w : World) (k : nat) : Prop :=
  exists data, watchlist_file w k = Loaded (Some data) /\ y_tag_rules data = Some None.

(** ** Scenarios *)

Module Scenario.

(** A record with an id, a publication date and an English description. *)
Definition advisory (id published description : string) : RawCve :=
  {| raw_id := Some id; raw_published := Some published; raw_lastModified := None;
     raw_descriptions := Some [ {| d_lang := Some "en"; d_value := Some description |} ];
     raw_references := None; raw_metrics := None; raw_other_keys := true |}.

(** A record without [id]. *)
Definition anonymous (published description : string) : RawCve :=
  {| raw_id := None; raw_published := Some published; raw_lastModified := None;
     raw_descriptions := Some [ {| d_lang := Some "en"; d_value := Some description |} ];
     raw_references := None; raw_metrics := None; raw_other_keys := true |}.

(** The time of the scenarios: 2024-01-08T00:00:00. *)
Definition now : Z := 738892 * 86400000000.

Definition reply (status : Z) (cves : list RawCve) : http_reply :=
  Replied {| status_code := status;
             error_text := "HTTP error";
             json_body :=
               Json {| vulnerabilities :=
                         Some (map (fun cve => Some {| e_cve := Some cve |}) cves) |} |}.

Definition failure (status : Z) : http_reply :=
  Replied {| status_code := status; error_text := "HTTP error"; json_body := NotJson "" |}.

Definition watchlist : file_reply :=
  Loaded (Some {| y_queries := Some ["openssl"];
                  y_tag_rules := Some (Some [("crypto", Some ["openssl"; "tls"])]) |}).

Definition flaw1 : RawCve :=
  advisory "CVE-2024-0001" "2024-01-01T00:00:00.000"
    "A flaw in OpenSSL handling of TLS handshakes".
Definition flaw2 : RawCve :=
  advisory "CVE-2024-0002" "2024-01-02T00:00:00.000" "OpenSSL buffer overflow".
Definition flaw3 : RawCve :=
  advisory "CVE-2024-0003" "2024-01-03T00:00:00.000" "OpenSSL use after free".

(** The API has three advisories for every request; the webhook accepts
    every post; nothing was posted before. *)
Definition three_new : World :=
  {| env_SLACK_WEBHOOK_URL := Some "https://hooks.example/T";
     env_HOURS_BACK := HoursUnset;
     env_NVD_API_KEY := None;
     datetime_now := now;
     watchlist_file := fun _ => watchlist;
     nvd_api := fun _ _ => reply 200 [flaw1; flaw2; flaw3];
     slack_webhook := fun _ _ => reply 200 [];
     posted_file := FileAbsent |}.

(** As [three_new], but the webhook refuses the second post. *)
Definition second_post_fails : World :=
  {| env_SLACK_WEBHOOK_URL := Some "https://hooks.example/T";
     env_HOURS_BACK := HoursUnset;
     env_NVD_API_KEY := None;
     datetime_now := now;
     watchlist_file := fun _ => watchlist;
     nvd_api := fun _ _ => reply 200 [flaw1; flaw2; flaw3];
     slack_webhook := fun k _ => match k with 1 => failure 500 | _ => reply 200 [] end;
     posted_file := FileJson (Some ["CVE-2023-9999"]) |}.

(** The HIGH request returns a dated record, an undated one and two records
    without id; the CRITICAL request returns the dated one again, changed. *)
Definition mixed : World :=
  {| env_SLACK_WEBHOOK_URL := Some "https://hooks.example/T";
     env_HOURS_BACK := HoursInt 48;
     env_NVD_API_KEY := Some "key";
     datetime_now := now;
     watchlist_file := fun _ => watchlist;
     nvd_api := fun _ params =>
       if String.eqb (cvssV3Severity params) "HIGH"
       then reply 200 [flaw1; advisory "CVE-2024-0009" "" "undated";
                       anonymous "2024-01-05T00:00:00.000" "first without id";
                       anonymous "2024-01-04T00:00:00.000" "second without id"]
       else reply 200 [advisory "CVE-2024-0001" "2024-01-07T00:00:00.000" "revised"];
     slack_webhook := fun _ _ => reply 200 [];
     posted_file := FileAbsent |}.

(** The API answers 503 to every request. *)
Definition always_503 : World :=
  {| env_SLACK_WEBHOOK_URL := Some "https://hooks.example/T";
     env_HOURS_BACK := HoursUnset;
     env_NVD_API_KEY := None;
     datetime_now := now;
     watchlist_file := fun _ => watchlist;
     nvd_api := fun _ _ => failure 503;
     slack_webhook := fun _ _ => reply 200 [];
     posted_file := FileJson (Some ["CVE-2023-9999"]) |}.

(** The API answers 503 to the first two requests and 200 after that. *)
Definition recovers : World :=
  {| env_SLACK_WEBHOOK_URL := Some "https://hooks.example/T";
     env_HOURS_BACK := HoursUnset;
     env_NVD_API_KEY := None;
     datetime_now := now;
     watchlist_file := fun _ => watchlist;
     nvd_api := fun k _ => match k with 0 | 1 => failure 503 | _ => reply 200 [flaw1] end;
     slack_webhook := fun _ _ => reply 200 [];
     posted_file := FileAbsent |}.

(** The API answers 404 to every request. *)
Definition always_404 : World :=
  {| env_SLACK_WEBHOOK_URL := Some "https://hooks.example/T";
     env_HOURS_BACK := HoursUnset;
     env_NVD_API_KEY := None;
     datetime_now := now;
     watchlist_file := fun _ => watchlist;
     nvd_api := fun _ _ => failure 404;
     slack_webhook := fun _ _ => reply 200 [];
     posted_file := FileJson (Some ["CVE-2023-9999"]) |}.

(** No connection to the API can be made. *)
Definition network_down : World :=
  {| env_SLACK_WEBHOOK_URL := Some "https://hooks.example/T";
     env_HOURS_BACK := HoursUnset;
     env_NVD_API_KEY := None;
     datetime_now := now;
     watchlist_file := fun _ => watchlist;
     nvd_api := fun _ _ => NetworkFailure "connection refused";
     slack_webhook := fun _ _ => reply 200 [];
     posted_file := FileJson (Some ["CVE-2023-9999"]) |}.

(** The watchlist file is rewritten between its first and second reading. *)
Definition watchlist_edited : World :=
  {| env_SLACK_WEBHOOK_URL := Some "https://hooks.example/T";
     env_HOURS_BACK := HoursUnset;
     env_NVD_API_KEY := None;
     datetime_now := now;
     watchlist_file := fun k =>
       match k with
       | 0 => watchlist
       | _ => Loaded (Some {| y_queries := Some ["nginx"];
                              y_tag_rules := Some (Some [("edited", Some ["flaw"])]) |})
       end;
     nvd_api := fun _ _ => reply 200 [flaw1];
     slack_webhook := fun _ _ => reply 200 [];
     posted_file := FileAbsent |}.

(** HOURS_BACK asks for 20 million hours, more than have passed since the
    year 1. *)
Definition far_back : World :=
  {| env_SLACK_WEBHOOK_URL := Some "https://hooks.example/T";
     env_HOURS_BACK := HoursInt 20000000;
     env_NVD_API_KEY := None;
     datetime_now := now;
     watchlist_file := fun _ => watchlist;
     nvd_api := fun _ _ => reply 200 [flaw1];
     slack_webhook := fun _ _ => reply 200 [];
     posted_file := FileAbsent |}.

(** The watchlist gives [tag_rules] the value [null]. *)
Definition null_rules : World :=
  {| env_SLACK_WEBHOOK_URL := Some "https://hooks.example/T";
     env_HOURS_BACK := HoursUnset;
     env_NVD_API_KEY := None;
     datetime_now := now;
     watchlist_file := fun _ =>
       Loaded (Some {| y_queries := Some ["openssl"]; y_tag_rules := Some None |});
     nvd_api := fun _ _ => reply 200 [flaw1];
     slack_webhook := fun _ _ => reply 200 [];
     posted_file := FileAbsent |}.

(** A text of 300 ASCII characters. *)
Definition long_text : string := String.concat "" (repeat "0123456789" 30).

(** The result of a computation that returns, [d] otherwise. *)
Definition returned {A} (d : A) (r : outcome A * State) : A :=
  match fst r with Ok a => a | Raise _ => d end.

End Scenario.

(** ** Notification *)

(** The exception a post ends with, if any: a network failure, or the
    [HTTPError] of [raise_for_status]. *)
Definition post_error (reply : http_reply) : option request_exception :=
  match reply with
  | NetworkFailure msg => Some (ConnectionFailure msg)
  | Replied response =>
      if (400 <=? status_code response)%Z && (status_code response <? 600)%Z
      then Some (HTTPError (status_code response) (error_text response))
      else None
  end.

(** The items delivered when [to_post] is notified and [k] posts were made
    before: the longest prefix whose posts all succeed. *)
Fixpoint delivered (w : World) (k : nat) (to_post : list CveItem) : list CveItem :=
  match to_post with
  | [] => []
  | item :: rest =>
      match post_error (slack_webhook w k item) with
      | Some _ => []
      | None => item :: delivered w (S k) rest
      end
  end.

(** The events of that notification. *)
Fixpoint notify_events (w : World) (webhook_url : string) (k : nat)
    (to_post : list CveItem) : list event :=
  match to_post with
  | [] => []
  | item :: rest =>
      SlackPost webhook_url item ::
      match post_error (slack_webhook w k item) with
      | Some exc =>
          [PrintErr ("Slack post failed for " +:+ cve_id item +:+ ": "
                     +:+ str_request_exception exc)]
      | None => notify_events w webhook_url (S k) rest
      end
  end.

(** The posts of a notification are the delivered items, in order, followed
    by the item whose post failed, if one did. *)
Definition posted_items (tr : list event) : list CveItem :=
  flat_map (fun ev => match ev with SlackPost _ item => [item] | _ => [] end) tr.

(** ** The orchestrator, step by step *)

Definition posted_message (posted_ids posted_now : gset string) : string :=
  "Posted " +:+ str_int (Z.of_nat (size posted_now) - Z.of_nat (size posted_ids))
  +:+ " CVEs.".

(** The ways a run can go, with the result and final state of each. [st0] is
    the state after the first reading of the watchlist. *)
Inductive main_path (w : World) (st : State) : outcome Z * State -> Prop :=
  | path_no_webhook :
      PyStr.or_else (env_SLACK_WEBHOOK_URL w) "" = "" ->
      main_path w st
        (Ok 1%Z,
         {| store := store st;
            trace := trace st ++ [PrintErr "SLACK_WEBHOOK_URL is required."] |})
  | path_watchlist_error webhook_url watchlist_r st0 e :
      env_SLACK_WEBHOOK_URL w = Some webhook_url ->
      PyStr.truthy webhook_url = true ->
      _load_watchlist w st = (watchlist_r, st0) ->
      watchlist_r = Raise e ->
      main_path w st (Raise e, st0)
  | path_no_queries webhook_url watchlist st0 :
      env_SLACK_WEBHOOK_URL w = Some webhook_url ->
      PyStr.truthy webhook_url = true ->
      _load_watchlist w st = (Ok watchlist, st0) ->
      queries watchlist = [] ->
      main_path w st
        (Ok 1%Z,
         {| store := store st0;
            trace := trace st0 ++ [PrintErr "watchlist.yml has no queries."] |})
  | path_bad_hours webhook_url watchlist st0 e :
      env_SLACK_WEBHOOK_URL w = Some webhook_url ->
      PyStr.truthy webhook_url = true ->
      _load_watchlist w st = (Ok watchlist, st0) ->
      queries watchlist <> [] ->
      read_hours_back w st0 = (Raise e, st0) ->
      main_path w st (Raise e, st0)
  | path_fetch_error webhook_url watchlist st0 hours_back msg cause st1 :
      env_SLACK_WEBHOOK_URL w = Some webhook_url ->
      PyStr.truthy webhook_url = true ->
      _load_watchlist w st = (Ok watchlist, st0) ->
      queries watchlist <> [] ->
      read_hours_back w st0 = (Ok hours_back, st0) ->
      _fetch_cves w (queries watchlist) (env_NVD_API_KEY w) hours_back st0
      = (Raise (RuntimeError msg cause), st1) ->
      main_path w st
        (Ok 1%Z, {| store := store st1; trace := trace st1 ++ [PrintErr msg] |})
  | path_fetch_crash webhook_url watchlist st0 hours_back e st1 :
      env_SLACK_WEBHOOK_URL w = Some webhook_url ->
      PyStr.truthy webhook_url = true ->
      _load_watchlist w st = (Ok watchlist, st0) ->
      queries watchlist <> [] ->
      read_hours_back w st0 = (Ok hours_back, st0) ->
      _fetch_cves w (queries watchlist) (env_NVD_API_KEY w) hours_back st0
      = (Raise e, st1) ->
      (forall msg cause, e <> RuntimeError msg cause) ->
      main_path w st (Raise e, st1)
  | path_fetched webhook_url watchlist st0 hours_back items st1 :
      env_SLACK_WEBHOOK_URL w = Some webhook_url ->
      PyStr.truthy webhook_url = true ->
      _load_watchlist w st = (Ok watchlist, st0) ->
      queries watchlist <> [] ->
      read_hours_back w st0 = (Ok hours_back, st0) ->
      _fetch_cves w (queries watchlist) (env_NVD_API_KEY w) hours_back st0
      = (Ok items, st1) ->
      main_path w st (main_after_fetch w webhook_url items st1).

(** The run gets to FILTER_NEW: the webhook is configured, the watchlist
    has queries, and the fetch returned [items], leaving the state [st1]. *)
Definition reaches_filter (w : World) (st : State) (webhook_url : string)
    (items : list CveItem) (st1 : State) : Prop :=
  env_SLACK_WEBHOOK_URL w = Some webhook_url /\
  PyStr.truthy webhook_url = true /\
  exists watchlist st0 hours_back,
    _load_watchlist w st = (Ok watchlist, st0) /\
    queries watchlist <> [] /\
    read_hours_back w st0 = (Ok hours_back, st0) /\
    _fetch_cves w (queries watchlist) (env_NVD_API_KEY w) hours_back st0 = (Ok items, st1).

(** ** Nothing new: the run is a no-op *)

(** The state a new process starts from when the previous run ended in [st]:
    the store file as that run left it, and nothing done yet. *)
Definition next_run_state (st : State) : State := {| store := store st; trace := [] |}.

(** The final state of a run that finds nothing new after the fetch left [st1]. *)
Definition no_op_state (st1 : State) : State :=
  {| store := store st1;
     trace := trace st1 ++ [ReadStore; Print "No new CVEs to post."] |}.

Module ScenarioRuns.

(** The state of a run of [w] after the first reading of the watchlist. *)
Definition loaded (w : World) : State :=
  {| store := posted_file w; trace := [ReadWatchlist] |}.

(** The fetch of the scenarios: one query, no API key, 24 hours back. *)
Definition fetch (w : World) : outcome (list CveItem) * State :=
  _fetch_cves w ["openssl"] None 24 (loaded w).

End ScenarioRuns.

(** ** A delivery failure *)

Module SecondPostFails.
Import Scenario.

Definition rules : TagRules := [("crypto", Some ["openssl"; "tls"])].
Definition item1 : CveItem := _normalize_item flaw1 rules.
Definition item2 : CveItem := _normalize_item flaw2 rules.
Definition item3 : CveItem := _normalize_item flaw3 rules.

End SecondPostFails.

(** ** Readings of the watchlist *)

(** Requests for one of the queries [qs], and sleeps. *)
Definition query_event (qs : list string) (ev : event) : bool :=
  match ev with
  | HttpGet params _ => existsb (String.eqb (keywordSearch params)) qs
  | Sleep _ => true
  | _ => false
  end.

Definition is_PrintErr (ev : event) : bool :=
  match ev with PrintErr _ => true | _ => false end.

(** What [main] emits from FILTER_NEW on. *)
Definition after_fetch_event (ev : event) : bool :=
  match ev with
  | ReadStore | SlackPost _ _ | PrintErr _ | WriteStore _ | Print _ => true
  | _ => false
  end.

(** The claim as it is stated: one reading of the watchlist per run. *)
Definition loads_watchlist_once (w : World) : Prop :=
  count_events is_ReadWatchlist (trace (snd (run w))) = 1.

(** ** Retries and fetch failures *)

(** The state after a request, and after a request and the sleep behind it. *)
Definition after_get (params : Params) (headers : Headers) (st : State) : State :=
  {| store := store st; trace := trace st ++ [HttpGet params headers] |}.

Definition after_get_sleep (params : Params) (headers : Headers) (attempt : Z)
    (st : State) : State :=
  {| store := store st;
     trace := trace st ++ [HttpGet params headers; Sleep (2 ^ attempt)] |}.


(** The run gets to the fetch, which ends with [r] in state [st1]. *)
Definition fetch_ends (w : World) (r : outcome (list CveItem)) (st1 : State) : Prop :=
  exists webhook_url watchlist st0 hours_back,
    env_SLACK_WEBHOOK_URL w = Some webhook_url /\
    PyStr.truthy webhook_url = true /\
    _load_watchlist w (initial_state w) = (Ok watchlist, st0) /\
    queries watchlist <> [] /\
    read_hours_back w st0 = (Ok hours_back, st0) /\
    _fetch_cves w (queries watchlist) (env_NVD_API_KEY w) hours_back st0 = (r, st1).

(** A reply after which the retry loop tries again, unless the attempt was
    the last one: a network failure, or one of the five transient statuses. *)
Definition retryable (reply : http_reply) : bool :=
  match reply with
  | NetworkFailure _ => true
  | Replied response =>
      existsb (Z.eqb (status_code response)) [429; 500; 502; 503; 504]%Z
  end.

(** The attempt, counted from 0, at which a request ends when [reply i]
    answers its attempt [i]: the first attempt whose reply is not retried,
    and the third at the latest. *)
Definition last_attempt (reply : nat -> http_reply) : nat :=
  if retryable (reply 0) then if retryable (reply 1) then 2 else 1 else 0.

(** What a request that ends at attempt [n] has done: [n + 1] requests, and
    after each of them but the last a sleep of 2, then 4 seconds. *)
Fixpoint request_events (get : event) (n : nat) : list event :=
  match n with
  | 0 => [get]
  | S n' => request_events get n' ++ [Sleep (2 ^ Z.of_nat n); get]
  end.

(** How a request ends on the reply to its last attempt. A network failure
    is wrapped in a [RuntimeError]; an error status is raised as the
    [HTTPError] of [raise_for_status]; any other reply gives its JSON body. *)
Definition request_outcome (reply : http_reply) : outcome NvdBody :=
  match reply with
  | NetworkFailure msg =>
      Raise (RuntimeError ("NVD request failed: " +:+ msg) (Some (ConnectionFailure msg)))
  | Replied response =>
      if (400 <=? status_code response)%Z && (status_code response <? 600)%Z
      then Raise (RequestException (HTTPError (status_code response) (error_text response)))
      else match json_body response with
           | Json body => Ok body
           | NotJson msg => Raise (RequestException (InvalidJSON msg))
           end
  end.

Definition is_ReadStore (ev : event) : bool :=
  match ev with ReadStore => true | _ => false end.

(** What [main] does when the fetch fails with [e]: it prints the text of a
    [RuntimeError] and returns 1, and lets any other exception pass. *)
Definition after_fetch_failure (e : exn) : outcome Z * list event :=
  match e with
  | RuntimeError msg _ => (Ok 1%Z, [PrintErr msg])
  | _ => (Raise e, [])
  end.

(** ** Early exits, requests and messages *)

(** What [main] emits before FILTER_NEW. *)
Definition early_event (ev : event) : bool := fetch_event ev || is_PrintErr ev.

(** The response is no error for [raise_for_status]. *)
Definition is_success (response : Response) : bool :=
  negb ((400 <=? status_code response)%Z && (status_code response <? 600)%Z).

(** The API answers every request with a success that carries JSON. *)
Definition api_healthy (w : World) : Prop :=
  forall k params,
    exists response body,
      nvd_api w k params = Replied response /\
      is_success response = true /\
      json_body response = Json body.

(** The headers [_fetch_cves] builds from an API key. *)
Definition headers_of_key (api_key : option string) : Headers :=
  {| apiKey := match api_key with
               | Some key => if PyStr.truthy key then Some key else None
               | None => None
               end |}.

Definition headers_eqb (h1 h2 : Headers) : bool :=
  match apiKey h1, apiKey h2 with
  | Some a, Some b => String.eqb a b
  | None, None => true
  | _, _ => false
  end.

(** Requests with the headers [h] for one of the two severity bands, and
    sleeps. *)
Definition band_event (h : Headers) (ev : event) : bool :=
  match ev with
  | HttpGet params h' =>
      headers_eqb h h'
      && (String.eqb (cvssV3Severity params) "HIGH"
          || String.eqb (cvssV3Severity params) "CRITICAL")
  | Sleep _ => true
  | _ => false
  end.

(** The strings agree up to the case of their ASCII letters. *)
Definition same_ignoring_case (s1 s2 : string) : Prop := PyStr.lower s1 = PyStr.lower s2.

(** The item with another summary, and without references. *)
Definition with_summary (text : string) (item : CveItem) : CveItem :=
  {| cve_id := cve_id item; published := published item; cvss := cvss item;
     summary := text; tags := tags item; references := references item;
     nvd_url := nvd_url item |}.

Definition without_references (item : CveItem) : CveItem :=
  {| cve_id := cve_id item; published := published item; cvss := cvss item;
     summary := summary item; tags := tags item; references := [];
     nvd_url := nvd_url item |}.

(** * Properties *)

(** ** Strings *)

Lemma prefix_spec (needle hay : string) :
  String.prefix needle hay = true <-> exists post, hay = needle +:+ post.
Proof.
  revert hay. induction needle as [|c needle IH]; intros hay.
  - split; [intros _; exists hay; reflexivity | destruct hay; reflexivity].
  - destruct hay as [|c' hay]; simpl.
    + split; [discriminate | intros [post Hpost]; discriminate].
    + destruct (Ascii.ascii_dec c c') as [->|Hne].
      * rewrite IH. split; intros [post Hpost]; exists post.
        -- rewrite Hpost. reflexivity.
        -- simpl in Hpost. injection Hpost as Hpost. exact Hpost.
      * split; [discriminate | intros [post Hpost]].
        simpl in Hpost. injection Hpost as Hc _. congruence.
Qed.

Lemma prefix_empty (hay : string) : String.prefix "" hay = true.
Proof. apply prefix_spec. exists hay. reflexivity. Qed.

Lemma contains_spec (needle hay : string) :
  PyStr.contains needle hay = true <-> is_substring needle hay.
Proof.
  unfold is_substring. induction hay as [|c hay IH]; cbn [PyStr.contains].
  - rewrite orb_false_r, prefix_spec. split.
    + intros [post Hpost]. exists "", post. exact Hpost.
    + intros [pre [post Hpost]]. destruct pre; simpl in Hpost; [|discriminate].
      exists post. exact Hpost.
  - rewrite orb_true_iff, prefix_spec, IH. split.
    + intros [[post Hpost] | [pre [post Hpost]]].
      * exists "", post. exact Hpost.
      * exists (String c pre), post. rewrite Hpost. reflexivity.
    + intros [pre [post Hpost]]. destruct pre as [|c' pre]; simpl in Hpost.
      * left. exists post. exact Hpost.
      * right. exists pre, post. injection Hpost as _ Hpost. exact Hpost.
Qed.

Lemma contains_empty (hay : string) : PyStr.contains "" hay = true.
Proof. destruct hay; cbn [PyStr.contains]; rewrite prefix_empty; reflexivity. Qed.

(** ** Tagger *)

Lemma any_keyword_spec (corpus : string) (keywords : option (list string)) :
  any_keyword corpus keywords = true <-> rule_matches corpus keywords.
Proof.
  unfold any_keyword, rule_matches. rewrite existsb_exists. split.
  - intros [keyword [Hin Hc]]. destruct keywords as [kws|]; simpl in Hin; [|contradiction].
    exists kws, keyword. rewrite <- contains_spec. auto.
  - intros [kws [keyword [-> [Hin Hsub]]]]. exists keyword. simpl.
    rewrite contains_spec. auto.
Qed.

(** The loop appends, in rule order, the tags of the rules that match. *)
Lemma tag_loop_filter (corpus : string) (rules : TagRules) (acc : list string) :
  tag_loop corpus rules acc
  = acc ++ map fst (List.filter (fun rule => any_keyword corpus (snd rule)) rules).
Proof.
  revert acc. induction rules as [|[tag keywords] rules IH]; intros acc; simpl.
  - rewrite app_nil_r. reflexivity.
  - destruct (any_keyword corpus keywords); rewrite IH; simpl.
    + rewrite <- app_assoc. reflexivity.
    + reflexivity.
Qed.

Lemma tag_item_filter (summary : string) (references : list string) (rules : TagRules) :
  _tag_item summary references rules
  = map fst (List.filter
               (fun rule => any_keyword (tag_corpus summary references) (snd rule)) rules).
Proof. unfold _tag_item. rewrite tag_loop_filter. reflexivity. Qed.


(** C10: a tag one of whose keywords is the empty string is given to every
    item, whatever its summary and references. *)
Theorem C10_empty_keyword_tags_everything (summary : string) (references : list string)
    (tag_rules : TagRules) (tag : string) (keywords : list string) :
  In (tag, Some keywords) tag_rules ->
  In "" keywords ->
  In tag (_tag_item summary references tag_rules).
Proof.
  intros Hrule Hkw. rewrite tag_item_filter, in_map_iff.
  exists (tag, Some keywords). split; [reflexivity|].
  apply filter_In. split; [exact Hrule|]. simpl.
  unfold any_keyword. apply existsb_exists. exists "". split; [exact Hkw|].
  simpl. apply contains_empty.
Qed.

Lemma C10_witness :
  In "always" (_tag_item "Buffer overflow in libfoo" ["https://example.org/a"]
                 [("crypto", Some ["tls"]); ("always", Some ["kernel"; ""])]).
Proof.
  apply (C10_empty_keyword_tags_everything
           "Buffer overflow in libfoo" ["https://example.org/a"]
           [("crypto", Some ["tls"]); ("always", Some ["kernel"; ""])]
           "always" ["kernel"; ""]).
  - simpl. right. left. reflexivity.
  - simpl. right. left. reflexivity.
Defined.

Example tag_item_scenario :
  _tag_item "A flaw in OpenSSL handling of TLS handshakes" []
    [("crypto", Some ["openssl"; "tls"]); ("kernel", Some ["linux"])] = ["crypto"].
Proof. reflexivity. Qed.

Example tag_item_null_keywords :
  _tag_item "Linux kernel bug" ["https://KERNEL.org/x"]
    [("none", None); ("kernel", Some ["Kernel.ORG"]); ("tls", Some [])] = ["kernel"].
Proof. reflexivity. Qed.

(** ** Normaliser: the cvss field *)

(** The fields [_extract_cvss] reads from an entry that carries [cvssData]. *)
Lemma cvss_of_entry_data (data : RawCvssData) :
  cvss_of_entry (Some {| m_cvssData := Some data |})
  = {| version := default "" (cd_version data);
       base_score := cd_baseScore data;
       severity := cd_baseSeverity data |}.
Proof. reflexivity. Qed.



Example extract_cvss_v31_first :
  _extract_cvss
    {| raw_id := None; raw_published := None; raw_lastModified := None;
       raw_descriptions := None; raw_references := None;
       raw_metrics :=
         Some {| cvssMetricV31 :=
                   Some [None; Some {| m_cvssData := Some empty_cvss_data |}];
                 cvssMetricV30 := None;
                 cvssMetricV2 :=
                   Some [Some {| m_cvssData :=
                                   Some {| cd_version := Some "2.0";
                                           cd_baseScore := None;
                                           cd_baseSeverity := None |} |}] |};
       raw_other_keys := true |}
  = {| version := ""; base_score := None; severity := None |}.
Proof. reflexivity. Qed.

Example extract_cvss_no_metrics : _extract_cvss empty_cve = cvss_na.
Proof. reflexivity. Qed.

(** ** The order on [published] strings *)

Lemma compare_not_Gt_trans (s1 s2 s3 : string) :
  String.compare s1 s2 <> Gt -> String.compare s2 s3 <> Gt -> String.compare s1 s3 <> Gt.
Proof.
  revert s2 s3. induction s1 as [|a s1 IH]; intros [|b s2] [|c s3]; simpl; try congruence.
  unfold Ascii.compare.
  destruct (N.compare_spec (N_of_ascii a) (N_of_ascii b)) as [Hab|Hab|Hab];
    destruct (N.compare_spec (N_of_ascii b) (N_of_ascii c)) as [Hbc|Hbc|Hbc];
    destruct (N.compare_spec (N_of_ascii a) (N_of_ascii c)) as [Hac|Hac|Hac];
    try congruence; try lia.
  apply IH.
Qed.

Lemma compare_refl (s : string) : String.compare s s = Eq.
Proof.
  induction s as [|a s IH]; simpl; [reflexivity|].
  unfold Ascii.compare. rewrite N.compare_refl. exact IH.
Qed.

Lemma leb_trans (s1 s2 s3 : string) :
  String.leb s1 s2 = true -> String.leb s2 s3 = true -> String.leb s1 s3 = true.
Proof.
  unfold String.leb. intros H12 H23.
  pose proof (compare_not_Gt_trans s1 s2 s3) as H.
  destruct (String.compare s1 s2), (String.compare s2 s3), (String.compare s1 s3);
    try reflexivity; try discriminate; exfalso; apply H; congruence.
Qed.

Lemma ltb_false_leb (s1 s2 : string) : String.ltb s1 s2 = false -> String.leb s2 s1 = true.
Proof.
  unfold String.ltb, String.leb. rewrite (String.compare_antisym s2 s1).
  destruct (String.compare s1 s2); simpl; congruence.
Qed.

Lemma ltb_true_leb (s1 s2 : string) : String.ltb s1 s2 = true -> String.leb s1 s2 = true.
Proof. unfold String.ltb, String.leb. destruct (String.compare s1 s2); congruence. Qed.

(** The empty string is the smallest. *)
Lemma leb_empty_r (s : string) : String.leb s "" = true -> s = "".
Proof. destruct s; [reflexivity | discriminate]. Qed.

Lemma leb_empty_l (s : string) : String.leb "" s = true.
Proof. destruct s; reflexivity. Qed.

(** ** The sort of the fetch result *)

Lemma insert_desc_perm (x : CveItem) (l : list CveItem) :
  Permutation (insert_desc x l) (x :: l).
Proof.
  induction l as [|y l IH]; simpl; [reflexivity|].
  destruct (String.ltb (published x) (published y)); [|reflexivity].
  rewrite IH. apply perm_swap.
Qed.

Lemma sorted_by_published_desc_perm (l : list CveItem) :
  Permutation (sorted_by_published_desc l) l.
Proof.
  induction l as [|x l IH]; simpl; [reflexivity|].
  rewrite insert_desc_perm. constructor. exact IH.
Qed.

Lemma insert_desc_sorted (x : CveItem) (l : list CveItem) :
  StronglySorted published_desc l -> StronglySorted published_desc (insert_desc x l).
Proof.
  induction l as [|y l IH]; intros Hs; simpl.
  - constructor; constructor.
  - apply StronglySorted_inv in Hs as [Hs Hy].
    destruct (String.ltb (published x) (published y)) eqn:Hlt.
    + constructor; [apply IH; exact Hs|].
      rewrite insert_desc_perm. constructor; [|exact Hy].
      apply ltb_true_leb. exact Hlt.
    + apply ltb_false_leb in Hlt.
      constructor; [constructor; assumption|].
      constructor; [exact Hlt|].
      eapply Forall_impl; [exact Hy|]. intros z Hz. unfold published_desc in *.
      eapply leb_trans; eassumption.
Qed.

Lemma sorted_by_published_desc_sorted (l : list CveItem) :
  StronglySorted published_desc (sorted_by_published_desc l).
Proof.
  induction l as [|x l IH]; simpl; [constructor|].
  apply insert_desc_sorted. exact IH.
Qed.

(** In a list sorted this way, nothing with a non-empty [published] follows
    an item whose [published] is empty. *)
Lemma sorted_desc_empty_last (l pre post : list CveItem) (item : CveItem) :
  StronglySorted published_desc l ->
  l = pre ++ item :: post ->
  published item = "" ->
  Forall (fun j => published j = "") post.
Proof.
  intros Hs -> Hempty.
  induction pre as [|p pre IH]; simpl in Hs.
  - apply StronglySorted_inv in Hs as [_ Hall].
    eapply Forall_impl; [exact Hall|]. intros j Hj. unfold published_desc in Hj.
    rewrite Hempty in Hj. apply leb_empty_r. exact Hj.
  - apply StronglySorted_inv in Hs as [Hs _]. apply IH. exact Hs.
Qed.

(** The sort is stable: of two items with the same [published], the one that
    came first stays first. *)
Lemma insert_desc_filter (x : CveItem) (l : list CveItem) (key : string) :
  StronglySorted published_desc l ->
  List.filter (fun j => String.eqb (published j) key) (insert_desc x l)
  = List.filter (fun j => String.eqb (published j) key) (x :: l).
Proof.
  induction l as [|y l IH]; intros Hs; [reflexivity|].
  apply StronglySorted_inv in Hs as [Hs Hy].
  cbn [insert_desc]. destruct (String.ltb (published x) (published y)) eqn:Hlt; [|reflexivity].
  cbn [List.filter] in *. rewrite (IH Hs).
  destruct (String.eqb_spec (published x) key) as [Hx|Hx];
    destruct (String.eqb_spec (published y) key) as [Hy'|Hy']; try reflexivity.
  exfalso. unfold String.ltb in Hlt. rewrite Hx, Hy' in Hlt.
  rewrite compare_refl in Hlt. discriminate.
Qed.

Lemma sorted_by_published_desc_stable (l : list CveItem) (key : string) :
  List.filter (fun j => String.eqb (published j) key) (sorted_by_published_desc l)
  = List.filter (fun j => String.eqb (published j) key) l.
Proof.
  induction l as [|x l IH]; [reflexivity|].
  cbn [sorted_by_published_desc fold_right].
  rewrite insert_desc_filter by apply sorted_by_published_desc_sorted.
  cbn [List.filter]. unfold sorted_by_published_desc in IH. rewrite IH. reflexivity.
Qed.

(** ** The id-keyed merge *)

Lemma dict_set_keys_in {V} (d : list (string * V)) (k : string) (v : V) (x : string) :
  In x (dict_keys (dict_set d k v)) <-> In x (dict_keys d) \/ x = k.
Proof.
  induction d as [|[k' v'] d IH]; simpl.
  - intuition congruence.
  - destruct (String.eqb_spec k' k) as [->|Hne]; simpl.
    + intuition congruence.
    + rewrite IH. tauto.
Qed.

Lemma dict_set_NoDup {V} (d : list (string * V)) (k : string) (v : V) :
  NoDup (dict_keys d) -> NoDup (dict_keys (dict_set d k v)).
Proof.
  induction d as [|[k' v'] d IH]; simpl; intros Hnd.
  - apply NoDup_singleton.
  - apply NoDup_cons in Hnd as [Hnotin Hnd].
    destruct (String.eqb_spec k' k) as [->|Hne]; simpl.
    + apply NoDup_cons. auto.
    + apply NoDup_cons. split; [|apply IH; exact Hnd].
      rewrite list_elem_of_In, dict_set_keys_in. rewrite list_elem_of_In in Hnotin.
      intros [Hin | Heq]; [exact (Hnotin Hin) | exact (Hne Heq)].
Qed.

Lemma dict_set_keyed (d : list (string * CveItem)) (item : CveItem) :
  keyed d -> keyed (dict_set d (cve_id item) item).
Proof.
  unfold keyed. induction d as [|[k' v'] d IH]; simpl; intros Hk.
  - constructor; [reflexivity | constructor].
  - apply Forall_cons in Hk as [Hk' Hk]. simpl in Hk'.
    destruct (String.eqb_spec k' (cve_id item)) as [Heq|Hne].
    + constructor; [exact Heq | exact Hk].
    + constructor; [exact Hk' | apply IH; exact Hk].
Qed.

Lemma keyed_value_key (d : list (string * CveItem)) (v : CveItem) :
  keyed d -> In v (dict_values d) -> In (cve_id v) (dict_keys d).
Proof.
  unfold keyed, dict_values, dict_keys. intros Hk Hin.
  apply in_map_iff in Hin as [[k v'] [Hv Hin]]. simpl in Hv. subst v'.
  apply in_map_iff. exists (k, v). split; [|exact Hin].
  rewrite Forall_forall in Hk. apply list_elem_of_In in Hin. exact (Hk _ Hin).
Qed.

Lemma keyed_values_ids (d : list (string * CveItem)) :
  keyed d -> map cve_id (dict_values d) = dict_keys d.
Proof.
  unfold keyed, dict_values, dict_keys. induction d as [|[k v] d IH]; intros Hk; simpl.
  - reflexivity.
  - apply Forall_cons in Hk as [Hk' Hk]. simpl in Hk'. rewrite IH by exact Hk. congruence.
Qed.

(** Assigning [item] under its id: [item] is in, and so is every value that
    was there under another id. *)
Lemma dict_set_values (d : list (string * CveItem)) (item v : CveItem) :
  keyed d -> NoDup (dict_keys d) ->
  In v (dict_values (dict_set d (cve_id item) item))
  <-> v = item \/ (In v (dict_values d) /\ cve_id v <> cve_id item).
Proof.
  induction d as [|[k' v'] d IH]; simpl; intros Hk Hnd.
  - intuition congruence.
  - apply Forall_cons in Hk as [Hk' Hk]. simpl in Hk'.
    apply NoDup_cons in Hnd as [Hnotin Hnd]. rewrite list_elem_of_In in Hnotin.
    destruct (String.eqb_spec k' (cve_id item)) as [Heq|Hne]; simpl.
    + split.
      * intros [Hv | Hin]; [left; congruence|]. right. split; [right; exact Hin|].
        intros Hid. apply Hnotin. rewrite Heq, <- Hid.
        apply keyed_value_key; assumption.
      * intros [Hv | [[Hv | Hin] Hid]]; [left; congruence | | right; exact Hin].
        exfalso. apply Hid. congruence.
    + rewrite (IH Hk Hnd). split.
      * intros [Hv | [Hv | [Hin Hid]]]; [|left; exact Hv | right; split; [right|]; assumption].
        right. split; [left; exact Hv|]. congruence.
      * intros [Hv | [[Hv | Hin] Hid]]; [right; left; exact Hv | left; exact Hv |].
        right. right. split; assumption.
Qed.

Lemma last_with_id_cons (x : CveItem) (stream : list CveItem) (item : CveItem) :
  last_with_id (x :: stream) item
  <-> last_with_id stream item
      \/ (item = x /\ Forall (fun j => cve_id j <> cve_id item) stream).
Proof.
  unfold last_with_id. split.
  - intros [pre [post [Heq Hpost]]]. destruct pre as [|p pre]; simpl in Heq.
    + injection Heq as -> ->. right. auto.
    + injection Heq as -> ->. left. exists pre, post. auto.
  - intros [[pre [post [-> Hpost]]] | [-> Hall]].
    + exists (x :: pre), post. auto.
    + exists [], stream. auto.
Qed.

Lemma merge_items_invariant (stream : list CveItem) (d : list (string * CveItem)) :
  keyed d -> NoDup (dict_keys d) ->
  keyed (merge_items d stream) /\ NoDup (dict_keys (merge_items d stream)).
Proof.
  revert d. induction stream as [|x stream IH]; intros d Hk Hnd; simpl; [auto|].
  apply IH; [apply dict_set_keyed | apply dict_set_NoDup]; assumption.
Qed.

(** Later duplicates overwrite earlier ones: after the merge the dict holds,
    for each id of the stream, the last item with that id, and what it held
    before under the other ids. *)
Lemma merge_items_values (stream : list CveItem) (d : list (string * CveItem))
    (v : CveItem) :
  keyed d -> NoDup (dict_keys d) ->
  In v (dict_values (merge_items d stream))
  <-> last_with_id stream v
      \/ (In v (dict_values d) /\ Forall (fun j => cve_id j <> cve_id v) stream).
Proof.
  revert d. induction stream as [|x stream IH]; intros d Hk Hnd; simpl.
  - split.
    + intros Hin. right. split; [exact Hin | constructor].
    + intros [[pre [post [Heq _]]] | [Hin _]]; [|exact Hin].
      destruct pre; discriminate Heq.
  - rewrite IH by (apply dict_set_keyed || apply dict_set_NoDup; assumption).
    rewrite last_with_id_cons, (dict_set_values d x v Hk Hnd).
    rewrite Forall_cons. split.
    + intros [Hlast | [[Hv | [Hin Hid]] Hall]]; [left; left; exact Hlast | |].
      * left. right. auto.
      * right. split; [exact Hin|]. split; [congruence | exact Hall].
    + intros [[Hlast | [Hv Hall]] | [Hin [Hid Hall]]].
      * left. exact Hlast.
      * right. split; [left; exact Hv | exact Hall].
      * right. split; [right; split; [exact Hin | congruence] | exact Hall].
Qed.

Lemma merge_items_app (d : list (string * CveItem)) (s1 s2 : list CveItem) :
  merge_items (merge_items d s1) s2 = merge_items d (s1 ++ s2).
Proof. unfold merge_items. rewrite fold_left_app. reflexivity. Qed.

(** The loop over the records of a reply changes nothing but the mapping.
    With tag rules it merges the items of the records that are not empty;
    without, it fails at the first of them. *)
Lemma merge_entries_run (tag_rules : option TagRules) (entries : list (option RawEntry))
    (items : list (string * CveItem)) (st : State) :
  merge_entries tag_rules entries items st
  = (match tag_rules with
     | Some rules =>
         Ok (merge_items items
               (map (fun cve => _normalize_item cve rules)
                  (List.filter (fun cve => negb (cve_is_empty cve)) (map entry_cve entries))))
     | None =>
         match List.filter (fun cve => negb (cve_is_empty cve)) (map entry_cve entries) with
         | [] => Ok items
         | _ :: _ => Raise AttributeError
         end
     end, st).
Proof.
  revert items. induction entries as [|entry entries IH]; intros items.
  - destruct tag_rules; reflexivity.
  - cbn [merge_entries map List.filter]. fold (entry_cve entry).
    destruct (cve_is_empty (entry_cve entry)); cbn [negb].
    + apply IH.
    + destruct tag_rules as [rules|]; [|reflexivity].
      unfold normalize_with, bind, ret. rewrite IH. reflexivity.
Qed.

Lemma processed_items_app (tag_rules : TagRules) (b1 b2 : list NvdBody) :
  processed_items tag_rules (b1 ++ b2)
  = processed_items tag_rules b1 ++ processed_items tag_rules b2.
Proof.
  unfold processed_items, processed_records. rewrite flat_map_app, map_app. reflexivity.
Qed.

(** ** Reasoning about runs *)

Lemma bind_inv {A B} (m : M A) (k : A -> M B) (st : State) (r : outcome B) (st' : State) :
  bind m k st = (r, st') ->
  (exists a st1, m st = (Ok a, st1) /\ k a st1 = (r, st'))
  \/ (exists e, m st = (Raise e, st') /\ r = Raise e).
Proof.
  unfold bind. destruct (m st) as [[a|e] st1]; intros H.
  - left. exists a, st1. auto.
  - right. exists e. injection H as <- <-. auto.
Qed.

Lemma bind_ok_inv {A B} (m : M A) (k : A -> M B) (st : State) (b : B) (st' : State) :
  bind m k st = (Ok b, st') ->
  exists a st1, m st = (Ok a, st1) /\ k a st1 = (Ok b, st').
Proof.
  intros H. apply bind_inv in H as [H | [e [_ H]]]; [exact H | discriminate H].
Qed.

Section Frame.

Variable p : event -> bool.

Lemma only_emits_ret {A} (a : A) : only_emits p (ret a).
Proof. intros tr. exists (Ok a), []. rewrite app_nil_r. auto. Qed.

Lemma only_emits_raise {A} (e : exn) : only_emits p (@raise A e).
Proof. intros tr. exists (Raise e), []. rewrite app_nil_r. auto. Qed.

Lemma only_emits_get_trace : only_emits p get_trace.
Proof. intros tr. exists (Ok tr), []. rewrite app_nil_r. auto. Qed.

Lemma only_emits_emit (ev : event) : p ev = true -> only_emits p (emit ev).
Proof. intros Hp tr. exists (Ok tt), [ev]. simpl. rewrite Hp. auto. Qed.

Lemma only_emits_bind {A B} (m : M A) (k : A -> M B) :
  only_emits p m -> (forall a, only_emits p (k a)) -> only_emits p (bind m k).
Proof.
  intros Hm Hk tr. destruct (Hm tr) as [[a|e] [evs1 [Hp1 H1]]].
  - destruct (Hk a (tr ++ evs1)) as [r [evs2 [Hp2 H2]]].
    exists r, (evs1 ++ evs2). rewrite forallb_app, Hp1, Hp2. split; [reflexivity|].
    intros s. unfold bind. rewrite H1, H2, app_assoc. reflexivity.
  - exists (Raise e), evs1. split; [exact Hp1|].
    intros s. unfold bind. rewrite H1. reflexivity.
Qed.

Lemma only_emits_try_RequestException {A} (m : M A) :
  only_emits p m -> only_emits p (try_RequestException m).
Proof.
  intros Hm tr. destruct (Hm tr) as [r [evs [Hp H]]].
  exists (match r with
          | Ok a => Ok (inl a)
          | Raise (RequestException e) => Ok (inr e)
          | Raise e => Raise e
          end), evs.
  split; [exact Hp|]. intros s. unfold try_RequestException. rewrite H.
  destruct r as [a|[]]; reflexivity.
Qed.

Lemma only_emits_try_RuntimeError {A} (m : M A) :
  only_emits p m -> only_emits p (try_RuntimeError m).
Proof.
  intros Hm tr. destruct (Hm tr) as [r [evs [Hp H]]].
  exists (match r with
          | Ok a => Ok (inl a)
          | Raise (RuntimeError msg _) => Ok (inr msg)
          | Raise e => Raise e
          end), evs.
  split; [exact Hp|]. intros s. unfold try_RuntimeError. rewrite H.
  destruct r as [a|[]]; reflexivity.
Qed.

(** What a run of such a computation looks like. *)
Lemma only_emits_run {A} (m : M A) (st : State) (r : outcome A) (st' : State) :
  only_emits p m ->
  m st = (r, st') ->
  store st' = store st /\
  exists evs, trace st' = trace st ++ evs /\ forallb p evs = true.
Proof.
  intros Hm H. destruct st as [s tr]. destruct (Hm tr) as [r0 [evs [Hp H0]]].
  rewrite H0 in H. injection H as <- <-. simpl. eauto.
Qed.

(** It runs the same way whatever the store file is. *)
Lemma only_emits_with_store {A} (m : M A) (st : State) (r : outcome A) (st' : State)
    (s : StoreFile) :
  only_emits p m ->
  m st = (r, st') ->
  m (with_store s st) = (r, with_store s st').
Proof.
  intros Hm H. destruct st as [s0 tr]. destruct (Hm tr) as [r0 [evs [Hp H0]]].
  rewrite H0 in H. injection H as <- <-. unfold with_store. simpl. apply H0.
Qed.

End Frame.

Lemma only_emits_weaken (p q : event -> bool) {A} (m : M A) :
  (forall ev, p ev = true -> q ev = true) -> only_emits p m -> only_emits q m.
Proof.
  intros Hpq Hm tr. destruct (Hm tr) as [r [evs [Hp H]]].
  exists r, evs. split; [|exact H].
  rewrite forallb_forall in *. auto.
Qed.

Create HintDb frame.

(** Decomposes a goal [only_emits p m] along the structure of [m], closing
    the calls whose frame is already known. *)
Ltac frame :=
  repeat first
    [ solve [auto with frame nocore]
    | apply only_emits_ret
    | apply only_emits_raise
    | apply only_emits_get_trace
    | apply only_emits_emit; reflexivity
    | apply only_emits_bind; [|intros ?]
    | apply only_emits_try_RequestException
    | apply only_emits_try_RuntimeError
    | match goal with
      | |- only_emits _ (match ?x with _ => _ end) => destruct x
      end ].

Lemma raise_for_status_frame (p : event -> bool) (response : Response) :
  only_emits p (raise_for_status response).
Proof. unfold raise_for_status. frame. Qed.

Lemma response_json_frame (p : event -> bool) (response : Response) :
  only_emits p (response_json response).
Proof. unfold response_json. frame. Qed.

Lemma requests_get_frame (w : World) (params : Params) (headers : Headers) :
  only_emits retry_event (requests_get w params headers).
Proof. unfold requests_get. frame. Qed.

#[local] Hint Resolve raise_for_status_frame response_json_frame requests_get_frame : frame.

Lemma retry_loop_frame (w : World) (params : Params) (headers : Headers)
    (attempts : list Z) :
  only_emits retry_event (retry_loop w params headers attempts).
Proof.
  induction attempts as [|attempt rest IH]; simpl; unfold sleep; frame.
Qed.

Lemma request_with_retry_frame (w : World) (params : Params) (headers : Headers) :
  only_emits retry_event (_request_with_retry w params headers).
Proof. apply retry_loop_frame. Qed.

Lemma load_watchlist_frame (w : World) : only_emits is_ReadWatchlist (_load_watchlist w).
Proof. unfold _load_watchlist. frame. Qed.

Lemma merge_entries_frame (p : event -> bool) (tag_rules : option TagRules)
    (entries : list (option RawEntry)) (items : list (string * CveItem)) :
  only_emits p (merge_entries tag_rules entries items).
Proof.
  intros tr. eexists _, []. split; [reflexivity|].
  intros s. rewrite merge_entries_run, app_nil_r. reflexivity.
Qed.

#[local] Hint Resolve request_with_retry_frame merge_entries_frame : frame.

Lemma fetch_severities_frame (w : World) (headers : Headers) (rules : option TagRules)
    (query : string) (severities : list string) (items : list (string * CveItem)) :
  only_emits retry_event (fetch_severities w headers rules query severities items).
Proof.
  revert items. induction severities as [|severity rest IH]; intros items; simpl; frame.
Qed.

#[local] Hint Resolve fetch_severities_frame : frame.

Lemma fetch_queries_frame (w : World) (headers : Headers) (rules : option TagRules)
    (queries : list string) (items : list (string * CveItem)) :
  only_emits retry_event (fetch_queries w headers rules queries items).
Proof.
  revert items. induction queries as [|query rest IH]; intros items; simpl; frame.
Qed.

Lemma fetch_in_window_frame (w : World) (queries : list string)
    (api_key : option string) :
  only_emits fetch_event (fetch_in_window w queries api_key).
Proof.
  unfold fetch_in_window. apply only_emits_bind; [|intros watchlist; apply only_emits_bind].
  - eapply only_emits_weaken; [|apply load_watchlist_frame].
    intros ev Hev. unfold fetch_event. rewrite Hev. reflexivity.
  - eapply only_emits_weaken; [|apply fetch_queries_frame].
    intros ev Hev. unfold fetch_event. rewrite Hev. apply orb_true_r.
  - intros items. apply only_emits_ret.
Qed.

Lemma timedelta_hours_frame (p : event -> bool) (hours : Z) :
  only_emits p (timedelta_hours hours).
Proof. unfold timedelta_hours. frame. Qed.

Lemma datetime_sub_frame (p : event -> bool) (dt delta : Z) :
  only_emits p (datetime_sub dt delta).
Proof. unfold datetime_sub. frame. Qed.

Lemma fetch_cves_frame (w : World) (queries : list string) (api_key : option string)
    (hours_back : Z) :
  only_emits fetch_event (_fetch_cves w queries api_key hours_back).
Proof.
  unfold _fetch_cves.
  apply only_emits_bind; [apply timedelta_hours_frame | intros delta].
  apply only_emits_bind; [apply datetime_sub_frame | intros start].
  apply fetch_in_window_frame.
Qed.

(** The fetch fails with [OverflowError] before it does anything when the
    start of its window is no date, and goes on otherwise. *)
Lemma fetch_cves_window (w : World) (queries : list string) (api_key : option string)
    (hours_back : Z) (st : State) :
  _fetch_cves w queries api_key hours_back st
  = if window_in_range w hours_back
    then fetch_in_window w queries api_key st
    else (Raise OverflowError, st).
Proof.
  unfold _fetch_cves, window_in_range, bind, timedelta_hours, datetime_sub, ret, raise.
  destruct (Z.abs (hours_back / 24) <=? MAX_DELTA_DAYS)%Z; [|reflexivity].
  cbn [andb].
  destruct ((0 <=? datetime_now w - hours_back * 3600000000)%Z
            && (datetime_now w - hours_back * 3600000000 <=? DATETIME_MAX)%Z);
    reflexivity.
Qed.

Lemma fetch_cves_inv (w : World) (queries : list string) (api_key : option string)
    (hours_back : Z) (st : State) (r : outcome (list CveItem)) (st1 : State) :
  _fetch_cves w queries api_key hours_back st = (r, st1) ->
  (window_in_range w hours_back = false /\ r = Raise OverflowError /\ st1 = st)
  \/ (window_in_range w hours_back = true /\ fetch_in_window w queries api_key st = (r, st1)).
Proof.
  rewrite fetch_cves_window. destruct (window_in_range w hours_back); intros H.
  - right. auto.
  - left. injection H as <- <-. auto.
Qed.

Lemma post_to_slack_frame (w : World) (webhook_url : string) (item : CveItem) :
  only_emits notify_event (_post_to_slack w webhook_url item).
Proof. unfold _post_to_slack, requests_post. frame. Qed.

#[local] Hint Resolve post_to_slack_frame : frame.

Lemma notify_loop_frame (w : World) (webhook_url : string) (to_post : list CveItem)
    (posted_now : gset string) :
  only_emits notify_event (notify_loop w webhook_url to_post posted_now).
Proof.
  revert posted_now. induction to_post as [|item rest IH]; intros posted_now; simpl;
    unfold print_stderr; frame.
Qed.

(** ** What the fetch returns *)

Lemma requests_get_run (w : World) (params : Params) (headers : Headers) (st : State) :
  requests_get w params headers st
  = (match nvd_api w (count_events is_HttpGet (trace st)) params with
     | NetworkFailure msg => Raise (RequestException (ConnectionFailure msg))
     | Replied response => Ok response
     end,
     {| store := store st; trace := trace st ++ [HttpGet params headers] |}).
Proof.
  unfold requests_get, bind, get_trace, emit. simpl.
  destruct (nvd_api w _ params); reflexivity.
Qed.

Lemma try_get_run (w : World) (params : Params) (headers : Headers) (st : State) :
  try_RequestException (requests_get w params headers) st
  = (Ok match nvd_api w (count_events is_HttpGet (trace st)) params with
        | NetworkFailure msg => inr (ConnectionFailure msg)
        | Replied response => inl response
        end,
     {| store := store st; trace := trace st ++ [HttpGet params headers] |}).
Proof.
  unfold try_RequestException. rewrite requests_get_run.
  destruct (nvd_api w _ params); reflexivity.
Qed.

Lemma response_json_ok (response : Response) (st : State) (body : NvdBody) (st' : State) :
  response_json response st = (Ok body, st') -> json_body response = Json body.
Proof.
  unfold response_json. destruct (json_body response); intros H.
  - discriminate H.
  - injection H as -> _. reflexivity.
Qed.

Lemma retry_loop_ok (w : World) (params : Params) (headers : Headers) (attempts : list Z)
    (st : State) (body : NvdBody) (st' : State) :
  retry_loop w params headers attempts st = (Ok body, st') ->
  api_returned w params body.
Proof.
  revert st. induction attempts as [|attempt rest IH]; intros st H; simpl in H.
  - discriminate H.
  - apply bind_ok_inv in H as [r [st1 [Hget H]]].
    rewrite try_get_run in Hget. injection Hget as <- <-.
    destruct (nvd_api w _ params) as [msg|response] eqn:Hreply.
    + destruct (attempt =? MAX_RETRIES)%Z; [discriminate H|].
      apply bind_ok_inv in H as [_ [st2 [_ H]]]. exact (IH _ H).
    + destruct (is_transient (status_code response)).
      * apply bind_ok_inv in H as [_ [st2 [_ H]]].
        apply bind_ok_inv in H as [_ [st3 [_ H]]]. exact (IH _ H).
      * apply bind_ok_inv in H as [_ [st2 [_ H]]].
        apply response_json_ok in H. eexists _, response. eauto.
Qed.

Lemma processed_records_app (b1 b2 : list NvdBody) :
  processed_records (b1 ++ b2) = processed_records b1 ++ processed_records b2.
Proof. unfold processed_records. apply flat_map_app. Qed.

(** The replies of a fetch that returns: [default [] rules] are the rules it
    tags with; without rules, no reply held a record. *)
Lemma fetch_severities_ok (w : World) (headers : Headers) (rules : option TagRules)
    (query : string) (severities : list string)
    (items : list (string * CveItem)) (st : State)
    (items' : list (string * CveItem)) (st' : State) :
  fetch_severities w headers rules query severities items st = (Ok items', st') ->
  exists bodies,
    Forall2 (api_returned w)
      (map (fun severity => {| keywordSearch := query; cvssV3Severity := severity |})
         severities)
      bodies /\
    items' = merge_items items (processed_items (default [] rules) bodies) /\
    (rules = None -> processed_records bodies = []).
Proof.
  revert items st. induction severities as [|severity rest IH]; intros items st H; simpl in H.
  - injection H as <- _. exists []. split; [constructor|]. split; reflexivity.
  - apply bind_ok_inv in H as [data [st1 [Hreq H]]].
    apply retry_loop_ok in Hreq.
    apply bind_ok_inv in H as [items1 [st2 [Hmerge H]]].
    rewrite merge_entries_run in Hmerge.
    apply IH in H as [bodies [Hall [Hitems Hnone]]].
    exists (data :: bodies). split; [constructor; assumption|].
    change (data :: bodies) with ([data] ++ bodies).
    rewrite processed_items_app, processed_records_app, <- merge_items_app, Hitems.
    assert (Hdata : processed_records [data]
                    = List.filter (fun cve => negb (cve_is_empty cve))
                        (map entry_cve (default [] (vulnerabilities data)))).
    { unfold processed_records, body_records. simpl. apply app_nil_r. }
    assert (Hitems1 : items1 = merge_items items (processed_items (default [] rules) [data])
                      /\ (rules = None -> processed_records [data] = [])).
    { unfold processed_items. rewrite Hdata.
      destruct rules as [rules|].
      - injection Hmerge as <- _. split; [reflexivity | discriminate].
      - destruct (List.filter _ _) as [|cve cves]; [|discriminate Hmerge].
        injection Hmerge as <- _. split; reflexivity. }
    destruct Hitems1 as [<- Hnone1]. split; [reflexivity|].
    intros Hrules. rewrite (Hnone Hrules), (Hnone1 Hrules). reflexivity.
Qed.

Lemma fetch_queries_ok (w : World) (headers : Headers) (rules : option TagRules)
    (queries : list string) (items : list (string * CveItem)) (st : State)
    (items' : list (string * CveItem)) (st' : State) :
  fetch_queries w headers rules queries items st = (Ok items', st') ->
  exists bodies,
    Forall2 (api_returned w) (request_pairs queries) bodies /\
    items' = merge_items items (processed_items (default [] rules) bodies) /\
    (rules = None -> processed_records bodies = []).
Proof.
  revert items st. induction queries as [|query rest IH]; intros items st H;
    cbn [fetch_queries] in H.
  - injection H as <- _. exists []. split; [constructor|]. split; reflexivity.
  - apply bind_ok_inv in H as [items1 [st1 [Hsev H]]].
    apply fetch_severities_ok in Hsev as [bodies1 [Hall1 [-> Hnone1]]].
    apply IH in H as [bodies2 [Hall2 [-> Hnone2]]].
    exists (bodies1 ++ bodies2). split; [|split].
    + simpl in Hall1. inversion Hall1 as [|p1 b1 ps1 bs1 Hb1 Hrest1]; subst.
      inversion Hrest1 as [|p2 b2 ps2 bs2 Hb2 Hrest2]; subst.
      inversion Hrest2; subst. simpl. constructor; [exact Hb1|]. constructor; assumption.
    + rewrite merge_items_app, processed_items_app. reflexivity.
    + intros Hrules. rewrite processed_records_app, (Hnone1 Hrules), (Hnone2 Hrules).
      reflexivity.
Qed.

Lemma load_watchlist_run (w : World) (st : State) :
  _load_watchlist w st
  = (match watchlist_file w (count_events is_ReadWatchlist (trace st)) with
     | LoadFailure msg => Raise (WatchlistError msg)
     | Loaded loaded =>
         Ok {| queries := default [] (y_queries (default empty_yaml loaded));
               tag_rules := default (Some []) (y_tag_rules (default empty_yaml loaded)) |}
     end,
     {| store := store st; trace := trace st ++ [ReadWatchlist] |}).
Proof.
  unfold _load_watchlist, bind, get_trace, emit. simpl.
  destruct (watchlist_file w _); reflexivity.
Qed.

(** What a fetch that returns has done: it read the watchlist, got a reply
    to every request, and merged and sorted the items of their records. The
    items are tagged with the rules of the watchlist; if it has none
    ([tag_rules] is [null]) the replies held no record. *)
Lemma fetch_cves_ok (w : World) (queries : list string) (api_key : option string)
    (hours_back : Z) (st : State) (result : list CveItem) (st' : State) :
  _fetch_cves w queries api_key hours_back st = (Ok result, st') ->
  exists rules bodies,
    (loaded_tag_rules w (count_events is_ReadWatchlist (trace st)) = Some rules
     \/ processed_records bodies = []) /\
    Forall2 (api_returned w) (request_pairs queries) bodies /\
    result = sorted_by_published_desc
               (dict_values (merge_items [] (processed_items rules bodies))).
Proof.
  intros H. apply fetch_cves_inv in H as [[_ [H _]] | [_ H]]; [discriminate H|].
  unfold fetch_in_window in H.
  apply bind_ok_inv in H as [watchlist [st1 [Hload H]]].
  apply bind_ok_inv in H as [items [st2 [Hfetch H]]].
  injection H as <- _.
  rewrite load_watchlist_run in Hload. unfold loaded_tag_rules.
  destruct (watchlist_file w _) as [msg|loaded]; [discriminate Hload|].
  injection Hload as <- _. cbn [tag_rules] in Hfetch.
  apply fetch_queries_ok in Hfetch as [bodies [Hall [-> Hnone]]].
  exists (default [] (default (Some []) (y_tag_rules (default empty_yaml loaded)))), bodies.
  split; [|split; [exact Hall | reflexivity]].
  destruct (default (Some []) (y_tag_rules (default empty_yaml loaded))) as [rules|].
  - left. reflexivity.
  - right. exact (Hnone eq_refl).
Qed.

Lemma Forall2_length_eq {A B} (R : A -> B -> Prop) (l : list A) (k : list B) :
  Forall2 R l k -> length l = length k.
Proof. induction 1; simpl; congruence. Qed.

Lemma request_pairs_length (queries : list string) :
  length (request_pairs queries) = 2 * length queries.
Proof. induction queries as [|q queries IH]; simpl; [reflexivity | rewrite IH; lia]. Qed.

(** C5: the fetch merges the records of the replies to all (query, severity)
    requests into a mapping keyed by id, a later record overwriting an earlier
    one with the same id, and returns the items sorted by [published],
    largest first in lexicographic order, so that the items whose
    [published] is empty come last. *)
Theorem C5_fetch_merges_and_sorts (w : World) (queries : list string)
    (api_key : option string) (hours_back : Z) (st : State)
    (result : list CveItem) (st' : State) :
  _fetch_cves w queries api_key hours_back st = (Ok result, st') ->
  exists tag_rules bodies,
    Forall2 (api_returned w) (request_pairs queries) bodies /\
    length bodies = 2 * length queries /\
    NoDup (map cve_id result) /\
    (forall item,
        In item result <-> last_with_id (processed_items tag_rules bodies) item) /\
    StronglySorted (fun a b => String.leb (published b) (published a) = true) result /\
    (forall pre item post,
        result = pre ++ item :: post ->
        published item = "" ->
        Forall (fun later => published later = "") post).
Proof.
  intros H. apply fetch_cves_ok in H as [rules [bodies [_ [Hall ->]]]].
  exists rules, bodies.
  set (stream := processed_items rules bodies).
  destruct (merge_items_invariant stream []) as [Hkeyed Hnodup];
    [constructor | constructor |].
  assert (Hperm := sorted_by_published_desc_perm (dict_values (merge_items [] stream))).
  assert (Hsorted := sorted_by_published_desc_sorted (dict_values (merge_items [] stream))).
  split; [exact Hall|]. split.
  { rewrite <- (Forall2_length_eq _ _ _ Hall). apply request_pairs_length. }
  split.
  { rewrite Hperm, keyed_values_ids by exact Hkeyed. exact Hnodup. }
  split.
  { intros item. rewrite <- !list_elem_of_In, Hperm, list_elem_of_In.
    rewrite merge_items_values by constructor. simpl. tauto. }
  split; [exact Hsorted|].
  intros pre item post Heq Hempty.
  exact (sorted_desc_empty_last _ pre post item Hsorted Heq Hempty).
Qed.

Lemma C5_witness :
  exists tag_rules bodies,
    Forall2 (api_returned Scenario.mixed) (request_pairs ["openssl"]) bodies /\
    length bodies = 2 * length ["openssl"] /\
    NoDup (map cve_id
             (Scenario.returned []
                (_fetch_cves Scenario.mixed ["openssl"] (Some "key") 48
                   (initial_state Scenario.mixed)))) /\
    (forall item,
        In item (Scenario.returned []
                   (_fetch_cves Scenario.mixed ["openssl"] (Some "key") 48
                      (initial_state Scenario.mixed)))
        <-> last_with_id (processed_items tag_rules bodies) item) /\
    StronglySorted (fun a b => String.leb (published b) (published a) = true)
      (Scenario.returned []
         (_fetch_cves Scenario.mixed ["openssl"] (Some "key") 48
            (initial_state Scenario.mixed))) /\
    (forall pre item post,
        Scenario.returned []
          (_fetch_cves Scenario.mixed ["openssl"] (Some "key") 48
             (initial_state Scenario.mixed))
        = pre ++ item :: post ->
        published item = "" ->
        Forall (fun later => published later = "") post).
Proof.
  apply (C5_fetch_merges_and_sorts Scenario.mixed ["openssl"] (Some "key") 48
           (initial_state Scenario.mixed) _
           (snd (_fetch_cves Scenario.mixed ["openssl"] (Some "key") 48
                   (initial_state Scenario.mixed)))).
  vm_compute. reflexivity.
Defined.

Example fetch_mixed_ids :
  map (fun item => (cve_id item, published item))
    (Scenario.returned []
       (_fetch_cves Scenario.mixed ["openssl"] (Some "key") 48
          (initial_state Scenario.mixed)))
  = [("CVE-2024-0001", "2024-01-07T00:00:00.000");
     ("UNKNOWN", "2024-01-04T00:00:00.000");
     ("CVE-2024-0009", "")].
Proof. vm_compute. reflexivity. Qed.

(** ** Records without an id *)

Lemma NoDup_map_filter_le_1 {A} (f : A -> string) (key : string) (l : list A) :
  NoDup (map f l) ->
  length (List.filter (fun x => String.eqb (f x) key) l) <= 1.
Proof.
  induction l as [|x l IH]; simpl; intros Hnd; [lia|].
  apply NoDup_cons in Hnd as [Hnotin Hnd]. specialize (IH Hnd).
  destruct (String.eqb_spec (f x) key) as [Hx|Hx]; [|exact IH].
  assert (Hnil : List.filter (fun y => String.eqb (f y) key) l = []).
  { destruct (List.filter (fun y => String.eqb (f y) key) l) as [|y rest] eqn:Hf;
      [reflexivity|].
    exfalso. assert (Hy : In y (List.filter (fun y => String.eqb (f y) key) l))
      by (rewrite Hf; left; reflexivity).
    apply filter_In in Hy as [Hy Hk]. apply String.eqb_eq in Hk.
    apply Hnotin. rewrite list_elem_of_In, in_map_iff. exists y. split; congruence. }
  rewrite Hnil. simpl. lia.
Qed.

Lemma NoDup_map_inj_on {A} (f : A -> string) (l : list A) (a b : A) :
  NoDup (map f l) -> In a l -> In b l -> f a = f b -> a = b.
Proof.
  induction l as [|x l IH]; simpl; intros Hnd Ha Hb Hf; [contradiction|].
  apply NoDup_cons in Hnd as [Hnotin Hnd]. rewrite list_elem_of_In, in_map_iff in Hnotin.
  destruct Ha as [-> | Ha], Hb as [-> | Hb].
  - reflexivity.
  - exfalso. apply Hnotin. exists b. auto.
  - exfalso. apply Hnotin. exists a. auto.
  - exact (IH Hnd Ha Hb Hf).
Qed.

(** C9: a record without [id] is normalised under the id "UNKNOWN"; the
    records normalised under that id share one entry of the merge, so the
    result of a fetch holds at most one item with id "UNKNOWN", however many
    such records the replies held, and it is the item of the last of them
    that was processed. *)
Theorem C9_unknown_ids_collapse (w : World) (queries : list string)
    (api_key : option string) (hours_back : Z) (st : State)
    (result : list CveItem) (st' : State) :
  _fetch_cves w queries api_key hours_back st = (Ok result, st') ->
  exists tag_rules bodies,
    Forall2 (api_returned w) (request_pairs queries) bodies /\
    (forall cve, raw_id cve = None -> cve_id (_normalize_item cve tag_rules) = "UNKNOWN") /\
    length (List.filter (fun item => String.eqb (cve_id item) "UNKNOWN") result) <= 1 /\
    (forall pre cve post,
        processed_records bodies = pre ++ cve :: post ->
        raw_id cve = None ->
        Forall (fun later => cve_id (_normalize_item later tag_rules) <> "UNKNOWN") post ->
        In (_normalize_item cve tag_rules) result /\
        (forall item,
            In item result -> cve_id item = "UNKNOWN" ->
            item = _normalize_item cve tag_rules)).
Proof.
  intros H.
  destruct (fetch_cves_ok _ _ _ _ _ _ _ H) as [rules [bodies [_ [Hall Hres]]]].
  exists rules, bodies.
  set (stream := processed_items rules bodies) in *.
  destruct (merge_items_invariant stream []) as [Hkeyed Hnodup];
    [constructor | constructor |].
  assert (Hperm := sorted_by_published_desc_perm (dict_values (merge_items [] stream))).
  rewrite <- Hres in Hperm.
  assert (Hids : NoDup (map cve_id result)).
  { rewrite Hperm, keyed_values_ids by exact Hkeyed. exact Hnodup. }
  assert (Hin : forall item, In item result <-> last_with_id stream item).
  { intros item. rewrite <- !list_elem_of_In, Hperm, list_elem_of_In.
    rewrite merge_items_values by constructor. simpl. tauto. }
  split; [exact Hall|]. split; [|split].
  - intros cve Hid. simpl. rewrite Hid. reflexivity.
  - apply NoDup_map_filter_le_1. exact Hids.
  - intros pre cve post Hrecords Hid Hpost.
    assert (Hunknown : cve_id (_normalize_item cve rules) = "UNKNOWN")
      by (simpl; rewrite Hid; reflexivity).
    assert (Hlast : In (_normalize_item cve rules) result).
    { apply Hin. exists (map (fun c => _normalize_item c rules) pre),
                        (map (fun c => _normalize_item c rules) post).
      split.
      - unfold stream, processed_items. rewrite Hrecords, map_app. reflexivity.
      - rewrite Hunknown. apply Forall_map. exact Hpost. }
    split; [exact Hlast|].
    intros item Hitem Hitem_id.
    apply (NoDup_map_inj_on cve_id result); [exact Hids | exact Hitem | exact Hlast |].
    congruence.
Qed.

Lemma C9_witness :
  exists tag_rules bodies,
    Forall2 (api_returned Scenario.mixed) (request_pairs ["openssl"]) bodies /\
    (forall cve, raw_id cve = None -> cve_id (_normalize_item cve tag_rules) = "UNKNOWN") /\
    length (List.filter (fun item => String.eqb (cve_id item) "UNKNOWN")
              (Scenario.returned []
                 (_fetch_cves Scenario.mixed ["openssl"] (Some "key") 48
                    (initial_state Scenario.mixed)))) <= 1 /\
    (forall pre cve post,
        processed_records bodies = pre ++ cve :: post ->
        raw_id cve = None ->
        Forall (fun later => cve_id (_normalize_item later tag_rules) <> "UNKNOWN") post ->
        In (_normalize_item cve tag_rules)
          (Scenario.returned []
             (_fetch_cves Scenario.mixed ["openssl"] (Some "key") 48
                (initial_state Scenario.mixed))) /\
        (forall item,
            In item (Scenario.returned []
                       (_fetch_cves Scenario.mixed ["openssl"] (Some "key") 48
                          (initial_state Scenario.mixed))) ->
            cve_id item = "UNKNOWN" ->
            item = _normalize_item cve tag_rules)).
Proof.
  apply (C9_unknown_ids_collapse Scenario.mixed ["openssl"] (Some "key") 48
           (initial_state Scenario.mixed) _
           (snd (_fetch_cves Scenario.mixed ["openssl"] (Some "key") 48
                   (initial_state Scenario.mixed)))).
  vm_compute. reflexivity.
Defined.

(** Two records without id came back; only the second is in the result. *)
Example fetch_mixed_unknown :
  List.filter (fun item => String.eqb (cve_id item) "UNKNOWN")
    (Scenario.returned []
       (_fetch_cves Scenario.mixed ["openssl"] (Some "key") 48
          (initial_state Scenario.mixed)))
  = [_normalize_item
       (Scenario.anonymous "2024-01-04T00:00:00.000" "second without id")
       [("crypto", Some ["openssl"; "tls"])]].
Proof. vm_compute. reflexivity. Qed.

(** ** Dedup store *)

Lemma insert_asc_perm (x : string) (l : list string) : Permutation (insert_asc x l) (x :: l).
Proof.
  induction l as [|y l IH]; simpl; [reflexivity|].
  destruct (String.ltb y x); [|reflexivity].
  rewrite IH. apply perm_swap.
Qed.

Lemma sorted_ids_perm (ids : gset string) : Permutation (sorted_ids ids) (elements ids).
Proof.
  unfold sorted_ids. induction (elements ids) as [|x l IH]; simpl; [reflexivity|].
  rewrite insert_asc_perm. constructor. exact IH.
Qed.

(** Reading back what [_save_posted] wrote gives the set that was saved. *)
Lemma sorted_ids_to_set (ids : gset string) : list_to_set (sorted_ids ids) = ids.
Proof. rewrite sorted_ids_perm. apply list_to_set_elements_L. Qed.

Lemma sorted_ids_NoDup (ids : gset string) : NoDup (sorted_ids ids).
Proof. rewrite sorted_ids_perm. apply NoDup_elements. Qed.

Lemma insert_asc_sorted (x : string) (l : list string) :
  StronglySorted (fun a b => String.leb a b = true) l ->
  StronglySorted (fun a b => String.leb a b = true) (insert_asc x l).
Proof.
  induction l as [|y l IH]; intros Hs; simpl.
  - constructor; constructor.
  - apply StronglySorted_inv in Hs as [Hs Hy].
    destruct (String.ltb y x) eqn:Hlt.
    + constructor; [apply IH; exact Hs|].
      rewrite insert_asc_perm. constructor; [|exact Hy].
      apply ltb_true_leb. exact Hlt.
    + apply ltb_false_leb in Hlt.
      constructor; [constructor; assumption|].
      constructor; [exact Hlt|].
      eapply Forall_impl; [exact Hy|]. intros z Hz. simpl in Hz.
      eapply leb_trans; eassumption.
Qed.

(** The id list of the store file is written in ascending order. *)
Lemma sorted_ids_sorted (ids : gset string) :
  StronglySorted (fun a b => String.leb a b = true) (sorted_ids ids).
Proof.
  unfold sorted_ids. induction (elements ids) as [|x l IH]; simpl; [constructor|].
  apply insert_asc_sorted. exact IH.
Qed.

Lemma count_events_app (p : event -> bool) (tr evs : list event) :
  count_events p (tr ++ evs) = count_events p tr + count_events p evs.
Proof. unfold count_events. rewrite List.filter_app, List.length_app. reflexivity. Qed.

(** ** Notification *)

Lemma try_post_run (w : World) (webhook_url : string) (item : CveItem) (st : State) :
  try_RequestException (_post_to_slack w webhook_url item) st
  = (Ok match post_error (slack_webhook w (count_events is_SlackPost (trace st)) item) with
        | Some exc => inr exc
        | None => inl tt
        end,
     {| store := store st; trace := trace st ++ [SlackPost webhook_url item] |}).
Proof.
  unfold try_RequestException, _post_to_slack, requests_post, bind, get_trace, emit,
    raise_for_status, post_error. simpl.
  destruct (slack_webhook w _ item) as [msg|response]; simpl; [reflexivity|].
  destruct ((400 <=? status_code response)%Z && (status_code response <? 600)%Z);
    reflexivity.
Qed.

Lemma notify_loop_run (w : World) (webhook_url : string) (to_post : list CveItem)
    (posted_now : gset string) (st : State) :
  notify_loop w webhook_url to_post posted_now st
  = (Ok (posted_now
         ∪ list_to_set (map cve_id
                          (delivered w (count_events is_SlackPost (trace st)) to_post))),
     {| store := store st;
        trace := trace st
                 ++ notify_events w webhook_url
                      (count_events is_SlackPost (trace st)) to_post |}).
Proof.
  revert posted_now st. induction to_post as [|item rest IH]; intros posted_now st.
  - simpl. unfold ret. rewrite app_nil_r, union_empty_r_L. destruct st. reflexivity.
  - cbn [notify_loop delivered notify_events]. unfold bind at 1. rewrite try_post_run.
    destruct (post_error (slack_webhook w _ item)) as [exc|].
    + unfold print_stderr, bind, emit, ret. simpl. rewrite <- app_assoc, union_empty_r_L.
      reflexivity.
    + rewrite IH. simpl. rewrite count_events_app.
      change (count_events is_SlackPost [SlackPost webhook_url item]) with 1.
      rewrite Nat.add_1_r, <- app_assoc, (assoc_L (∪)). reflexivity.
Qed.

Lemma notify_events_class (w : World) (webhook_url : string) (k : nat)
    (to_post : list CveItem) :
  forallb notify_event (notify_events w webhook_url k to_post) = true.
Proof.
  revert k. induction to_post as [|item rest IH]; intros k; simpl; [reflexivity|].
  destruct (post_error (slack_webhook w k item)); [reflexivity | apply IH].
Qed.

Lemma posted_items_app (tr evs : list event) :
  posted_items (tr ++ evs) = posted_items tr ++ posted_items evs.
Proof. unfold posted_items. apply flat_map_app. Qed.

Lemma notify_events_posts (w : World) (webhook_url : string) (k : nat)
    (to_post : list CveItem) :
  posted_items (notify_events w webhook_url k to_post)
  = firstn (S (length (delivered w k to_post))) to_post.
Proof.
  revert k. induction to_post as [|item rest IH]; intros k; [reflexivity|].
  cbn [notify_events delivered].
  destruct (post_error (slack_webhook w k item)); [reflexivity|].
  cbn [posted_items flat_map app length firstn]. f_equal. apply IH.
Qed.

Lemma delivered_prefix (w : World) (k : nat) (to_post : list CveItem) :
  delivered w k to_post = firstn (length (delivered w k to_post)) to_post.
Proof.
  revert k. induction to_post as [|item rest IH]; intros k; [reflexivity|].
  cbn [delivered]. destruct (post_error (slack_webhook w k item)); [reflexivity|].
  cbn [length firstn]. f_equal. apply IH.
Qed.

(** ** The orchestrator, step by step *)

Lemma load_posted_run (st : State) :
  _load_posted st
  = (Ok (store_ids (store st)), {| store := store st; trace := trace st ++ [ReadStore] |}).
Proof.
  unfold _load_posted, bind, emit, read_store. simpl.
  destruct (store st) as [| |[ids|]]; reflexivity.
Qed.

(** What [main] does from FILTER_NEW on. *)
Lemma main_after_fetch_run (w : World) (webhook_url : string) (items : list CveItem)
    (st : State) :
  let posted_ids := store_ids (store st) in
  let to_post := unposted items posted_ids in
  let k := count_events is_SlackPost (trace st) in
  let posted_now := posted_ids ∪ list_to_set (map cve_id (delivered w k to_post)) in
  main_after_fetch w webhook_url items st
  = match to_post with
    | [] =>
        (Ok 0%Z,
         {| store := store st;
            trace := trace st ++ [ReadStore; Print "No new CVEs to post."] |})
    | _ :: _ =>
        (Ok 0%Z,
         {| store := FileJson (Some (sorted_ids posted_now));
            trace := trace st
                     ++ ReadStore :: notify_events w webhook_url k to_post
                     ++ [WriteStore (sorted_ids posted_now);
                         Print (posted_message posted_ids posted_now)] |})
    end.
Proof.
  intros posted_ids to_post k posted_now.
  unfold main_after_fetch. unfold bind at 1. rewrite load_posted_run.
  cbn [store trace]. fold posted_ids. fold to_post.
  destruct to_post as [|item rest] eqn:Hto_post.
  - unfold print, bind, emit, ret. simpl. rewrite <- app_assoc. reflexivity.
  - unfold bind at 1. rewrite notify_loop_run. cbn [store trace].
    rewrite count_events_app.
    change (count_events is_SlackPost [ReadStore]) with 0. rewrite Nat.add_0_r.
    fold k. fold posted_now.
    unfold _save_posted, print, bind, emit, write_store, ret. simpl.
    rewrite <- !app_assoc. reflexivity.
Qed.

Lemma main_takes_a_path (w : World) (st : State) : main_path w st (main w st).
Proof.
  unfold main.
  destruct (env_SLACK_WEBHOOK_URL w) as [webhook_url|] eqn:Hurl.
  2: { apply path_no_webhook. rewrite Hurl. reflexivity. }
  destruct (PyStr.truthy webhook_url) eqn:Htruthy; simpl.
  2: { apply path_no_webhook. rewrite Hurl. simpl. rewrite Htruthy. reflexivity. }
  unfold bind at 1.
  destruct (_load_watchlist w st) as [[watchlist|e] st0] eqn:Hload.
  2: { eapply path_watchlist_error; eauto. }
  destruct (queries watchlist) as [|query rest] eqn:Hqueries.
  { eapply path_no_queries; eauto. }
  assert (Hne : queries watchlist <> []) by (rewrite Hqueries; discriminate).
  rewrite <- Hqueries.
  unfold bind at 1.
  destruct (read_hours_back w st0) as [[hours_back|e] st0'] eqn:Hhours.
  2: { assert (st0' = st0) as ->.
       { unfold read_hours_back in Hhours.
         destruct (env_HOURS_BACK w); injection Hhours; congruence. }
       eapply path_bad_hours; eauto. }
  assert (st0' = st0) as ->.
  { unfold read_hours_back in Hhours.
    destruct (env_HOURS_BACK w); injection Hhours; congruence. }
  unfold bind at 1, try_RuntimeError.
  destruct (_fetch_cves w (queries watchlist) (env_NVD_API_KEY w) hours_back st0)
    as [[items|e] st1] eqn:Hfetch.
  - eapply path_fetched; eauto.
  - destruct e as [msg cause|e|msg|msg| |];
      [eapply path_fetch_error; eauto | eapply path_fetch_crash; eauto; discriminate ..].
Qed.

Lemma read_hours_back_state (w : World) (st : State) (r : outcome Z) (st' : State) :
  read_hours_back w st = (r, st') -> st' = st.
Proof.
  unfold read_hours_back. destruct (env_HOURS_BACK w); intros H; injection H; congruence.
Qed.

(** The events of a fetch: one reading of the watchlist, then requests and
    sleeps; the store file is left alone. *)
Lemma fetch_in_window_trace (w : World) (queries : list string)
    (api_key : option string) (st : State) (r : outcome (list CveItem)) (st1 : State) :
  fetch_in_window w queries api_key st = (r, st1) ->
  store st1 = store st /\
  exists evs, trace st1 = trace st ++ ReadWatchlist :: evs /\ forallb retry_event evs = true.
Proof.
  unfold fetch_in_window. intros H.
  apply bind_inv in H as [[watchlist [st0 [Hload H]]] | [e [Hload _]]].
  - rewrite load_watchlist_run in Hload.
    assert (Hst0 : st0 = {| store := store st; trace := trace st ++ [ReadWatchlist] |})
      by (injection Hload; congruence).
    assert (Hframe : only_emits retry_event
                       (items <- fetch_queries w
                                   {| apiKey := match api_key with
                                                | Some key =>
                                                    if PyStr.truthy key then Some key else None
                                                | None => None
                                                end |}
                                   (tag_rules watchlist) queries [] ;;
                        ret (sorted_by_published_desc (dict_values items)))).
    { apply only_emits_bind; [apply fetch_queries_frame | intros; apply only_emits_ret]. }
    destruct (only_emits_run _ _ _ _ _ Hframe H) as [Hs [evs [Ht Hp]]].
    subst st0. simpl in Hs, Ht. split; [exact Hs|].
    exists evs. rewrite Ht, <- app_assoc. auto.
  - rewrite load_watchlist_run in Hload. injection Hload as _ <-. simpl.
    split; [reflexivity|]. exists []. auto.
Qed.

(** A fetch leaves the store file alone. Unless the start of its window is
    no date, it reads the watchlist and then makes requests and sleeps. *)
Lemma fetch_cves_store (w : World) (queries : list string) (api_key : option string)
    (hours_back : Z) (st : State) (r : outcome (list CveItem)) (st1 : State) :
  _fetch_cves w queries api_key hours_back st = (r, st1) -> store st1 = store st.
Proof.
  intros H. exact (proj1 (only_emits_run _ _ _ _ _ (fetch_cves_frame _ _ _ _) H)).
Qed.

Lemma fetch_cves_trace (w : World) (queries : list string) (api_key : option string)
    (hours_back : Z) (st : State) (r : outcome (list CveItem)) (st1 : State) :
  _fetch_cves w queries api_key hours_back st = (r, st1) ->
  r <> Raise OverflowError ->
  store st1 = store st /\
  exists evs, trace st1 = trace st ++ ReadWatchlist :: evs /\ forallb retry_event evs = true.
Proof.
  intros H Hr. apply fetch_cves_inv in H as [[_ [H _]] | [_ H]]; [contradiction|].
  exact (fetch_in_window_trace _ _ _ _ _ _ H).
Qed.

Lemma reaches_filter_main (w : World) (st : State) (webhook_url : string)
    (items : list CveItem) (st1 : State) :
  reaches_filter w st webhook_url items st1 ->
  main w st = main_after_fetch w webhook_url items st1.
Proof.
  intros [Hurl [Htruthy [watchlist [st0 [hours_back [Hload [Hne [Hhours Hfetch]]]]]]]].
  unfold main. rewrite Hurl, Htruthy. simpl.
  unfold bind at 1. rewrite Hload.
  destruct (queries watchlist) as [|query rest] eqn:Hqueries; [contradiction|].
  unfold bind at 1. rewrite Hhours.
  unfold bind at 1, try_RuntimeError. rewrite Hfetch. reflexivity.
Qed.

Lemma reaches_filter_trace (w : World) (st : State) (webhook_url : string)
    (items : list CveItem) (st1 : State) :
  reaches_filter w st webhook_url items st1 ->
  store st1 = store st /\
  exists evs,
    trace st1 = trace st ++ ReadWatchlist :: ReadWatchlist :: evs /\
    forallb retry_event evs = true.
Proof.
  intros [_ [_ [watchlist [st0 [hours_back [Hload [_ [_ Hfetch]]]]]]]].
  rewrite load_watchlist_run in Hload.
  assert (Hst0 : st0 = {| store := store st; trace := trace st ++ [ReadWatchlist] |})
    by (injection Hload; congruence).
  apply fetch_cves_trace in Hfetch as [Hs [evs [Ht Hp]]]; [|discriminate].
  subst st0. simpl in Hs, Ht. split; [exact Hs|].
  exists evs. rewrite Ht, <- app_assoc. auto.
Qed.

(** The fetch does not look at the store file. *)
Lemma reaches_filter_with_store (w : World) (st : State) (webhook_url : string)
    (items : list CveItem) (st1 : State) (s : StoreFile) :
  reaches_filter w st webhook_url items st1 ->
  reaches_filter w (with_store s st) webhook_url items (with_store s st1).
Proof.
  intros [Hurl [Htruthy [watchlist [st0 [hours_back [Hload [Hne [Hhours Hfetch]]]]]]]].
  split; [exact Hurl|]. split; [exact Htruthy|].
  exists watchlist, (with_store s st0), hours_back.
  split; [|split; [exact Hne|split]].
  - exact (only_emits_with_store _ _ _ _ _ s (load_watchlist_frame w) Hload).
  - unfold read_hours_back in *. destruct (env_HOURS_BACK w); try discriminate Hhours.
    + injection Hhours as <-. reflexivity.
    + injection Hhours as <-. reflexivity.
  - exact (only_emits_with_store _ _ _ _ _ s (fetch_cves_frame _ _ _ _) Hfetch).
Qed.

(** The ids of the fetched items are distinct. *)
Lemma fetch_cves_NoDup (w : World) (queries : list string) (api_key : option string)
    (hours_back : Z) (st : State) (items : list CveItem) (st1 : State) :
  _fetch_cves w queries api_key hours_back st = (Ok items, st1) ->
  NoDup (map cve_id items).
Proof.
  intros H. apply fetch_cves_ok in H as [rules [bodies [_ [_ ->]]]].
  destruct (merge_items_invariant (processed_items rules bodies) []) as [Hkeyed Hnodup];
    [constructor | constructor |].
  rewrite sorted_by_published_desc_perm, keyed_values_ids by exact Hkeyed. exact Hnodup.
Qed.

(** ** The store only grows *)

Lemma main_after_fetch_store (w : World) (webhook_url : string) (items : list CveItem)
    (st : State) :
  store_ids (store st) ⊆ store_ids (store (snd (main_after_fetch w webhook_url items st))).
Proof.
  pose proof (main_after_fetch_run w webhook_url items st) as Hrun. simpl in Hrun.
  rewrite Hrun. destruct (unposted items (store_ids (store st))); simpl.
  - reflexivity.
  - rewrite sorted_ids_to_set. apply union_subseteq_l.
Qed.

Lemma main_store_grows (w : World) (st : State) :
  store_ids (store st) ⊆ store_ids (store (snd (main w st))).
Proof.
  destruct (main_takes_a_path w st)
    as [ Hurl
       | url r st0 e Hurl Htruthy Hload Hr
       | url watchlist st0 Hurl Htruthy Hload Hq
       | url watchlist st0 e Hurl Htruthy Hload Hq Hhours
       | url watchlist st0 hb msg cause st1 Hurl Htruthy Hload Hq Hhours Hfetch
       | url watchlist st0 hb e st1 Hurl Htruthy Hload Hq Hhours Hfetch Hother
       | url watchlist st0 hb items st1 Hurl Htruthy Hload Hq Hhours Hfetch ];
    simpl.
  - reflexivity.
  - apply (only_emits_run _ _ _ _ _ (load_watchlist_frame w)) in Hload as [-> _].
    reflexivity.
  - apply (only_emits_run _ _ _ _ _ (load_watchlist_frame w)) in Hload as [-> _].
    reflexivity.
  - apply (only_emits_run _ _ _ _ _ (load_watchlist_frame w)) in Hload as [-> _].
    reflexivity.
  - apply (only_emits_run _ _ _ _ _ (load_watchlist_frame w)) in Hload as [Hs0 _].
    apply fetch_cves_store in Hfetch as ->. rewrite Hs0. reflexivity.
  - apply (only_emits_run _ _ _ _ _ (load_watchlist_frame w)) in Hload as [Hs0 _].
    apply fetch_cves_store in Hfetch as ->. rewrite Hs0. reflexivity.
  - apply (only_emits_run _ _ _ _ _ (load_watchlist_frame w)) in Hload as [Hs0 _].
    apply fetch_cves_store in Hfetch as Hs1.
    rewrite <- Hs0, <- Hs1. apply main_after_fetch_store.
Qed.

(** C3: whatever happens in a run, every id the store file held before the
    run is held by it after the run. *)
Theorem C3_store_never_shrinks (w : World) :
  store_ids (posted_file w) ⊆ store_ids (store (snd (run w))).
Proof. exact (main_store_grows w (initial_state w)). Qed.

(** ** Nothing new: the run is a no-op *)

Lemma unposted_nil (items : list CveItem) (posted_ids : gset string) :
  unposted items posted_ids = [] <->
  forall item, In item items -> cve_id item ∈ posted_ids.
Proof.
  unfold unposted. induction items as [|x items IH]; simpl.
  - split; [intros _ item [] | reflexivity].
  - destruct (bool_decide_reflect (cve_id x ∈ posted_ids)) as [Hx|Hx]; simpl.
    + rewrite IH. split.
      * intros H item [<- | Hin]; auto.
      * intros H item Hin. apply H. right. exact Hin.
    + split; [discriminate|]. intros H. exfalso. apply Hx, H. left. reflexivity.
Qed.

Lemma unposted_In (items : list CveItem) (posted_ids : gset string) (item : CveItem) :
  In item (unposted items posted_ids) <-> In item items /\ cve_id item ∉ posted_ids.
Proof.
  unfold unposted. rewrite filter_In, negb_true_iff, bool_decide_eq_false. reflexivity.
Qed.

(** Once everything new is recorded, nothing is new. *)
Lemma unposted_after_posting_all (items : list CveItem) (posted_ids : gset string) :
  unposted items
    (posted_ids ∪ list_to_set (map cve_id (unposted items posted_ids))) = [].
Proof.
  apply unposted_nil. intros item Hin. apply elem_of_union.
  destruct (decide (cve_id item ∈ posted_ids)) as [Hp|Hp]; [left; exact Hp | right].
  apply elem_of_list_to_set, list_elem_of_In, in_map. apply unposted_In. auto.
Qed.

Lemma count_events_none (p q : event -> bool) (evs : list event) :
  forallb q evs = true ->
  (forall ev, q ev = true -> p ev = false) ->
  count_events p evs = 0.
Proof.
  intros Hq Hpq. unfold count_events. induction evs as [|ev evs IH]; [reflexivity|].
  simpl in Hq. apply andb_true_iff in Hq as [Hev Hq].
  simpl. rewrite (Hpq ev Hev). exact (IH Hq).
Qed.

Lemma retry_event_not_post (ev : event) : retry_event ev = true -> is_SlackPost ev = false.
Proof. unfold retry_event. destruct ev; simpl; congruence. Qed.

Lemma retry_event_not_write (ev : event) : retry_event ev = true -> is_WriteStore ev = false.
Proof. unfold retry_event. destruct ev; simpl; congruence. Qed.

Lemma retry_event_not_load (ev : event) :
  retry_event ev = true -> is_ReadWatchlist ev = false.
Proof. unfold retry_event. destruct ev; simpl; congruence. Qed.

Lemma no_op_run (w : World) (st : State) (webhook_url : string) (items : list CveItem)
    (st1 : State) :
  reaches_filter w st webhook_url items st1 ->
  unposted items (store_ids (store st)) = [] ->
  main w st = (Ok 0%Z, no_op_state st1) /\
  store (no_op_state st1) = store st /\
  (count_events is_SlackPost (trace st) = 0 ->
   count_events is_SlackPost (trace (no_op_state st1)) = 0) /\
  (count_events is_WriteStore (trace st) = 0 ->
   count_events is_WriteStore (trace (no_op_state st1)) = 0).
Proof.
  intros Hreach Hnone.
  destruct (reaches_filter_trace _ _ _ _ _ Hreach) as [Hs [evs [Ht Hp]]].
  rewrite (reaches_filter_main _ _ _ _ _ Hreach).
  pose proof (main_after_fetch_run w webhook_url items st1) as Hrun. simpl in Hrun.
  rewrite Hs, Hnone in Hrun. unfold no_op_state. rewrite Hs.
  split; [exact Hrun|]. split; [reflexivity|].
  simpl. rewrite Ht, !count_events_app.
  change (ReadWatchlist :: ReadWatchlist :: evs)
    with ([ReadWatchlist; ReadWatchlist] ++ evs).
  rewrite !count_events_app.
  rewrite (count_events_none is_SlackPost retry_event evs Hp retry_event_not_post).
  rewrite (count_events_none is_WriteStore retry_event evs Hp retry_event_not_write).
  split; intros ->; reflexivity.
Qed.

(** C4: a run that finds no fetched item that is not already posted prints
    the no-op message and returns 0 without posting and without touching the
    store file. So after a run whose posts all succeeded, a second run on the
    same upstream data posts nothing and leaves the store file as it is. *)
Theorem C4_nothing_new_is_a_no_op (w : World) (webhook_url : string)
    (items : list CveItem) (st1 : State) :
  reaches_filter w (initial_state w) webhook_url items st1 ->
  (unposted items (store_ids (posted_file w)) = [] ->
   run w = (Ok 0%Z,
            {| store := posted_file w;
               trace := trace st1 ++ [ReadStore; Print "No new CVEs to post."] |}) /\
   count_events is_SlackPost (trace (snd (run w))) = 0 /\
   count_events is_WriteStore (trace (snd (run w))) = 0) /\
  (delivered w 0 (unposted items (store_ids (posted_file w)))
   = unposted items (store_ids (posted_file w)) ->
   let first := snd (run w) in
   let second := main w (next_run_state first) in
   fst second = Ok 0%Z /\
   store (snd second) = store first /\
   trace (snd second) = trace st1 ++ [ReadStore; Print "No new CVEs to post."] /\
   count_events is_SlackPost (trace (snd second)) = 0 /\
   count_events is_WriteStore (trace (snd second)) = 0).
Proof.
  intros Hreach.
  destruct (reaches_filter_trace _ _ _ _ _ Hreach) as [Hs1 [evs [Ht1 Hp1]]].
  simpl in Hs1, Ht1.
  split.
  - intros Hnone.
    destruct (no_op_run w (initial_state w) webhook_url items st1 Hreach Hnone)
      as [Hrun [_ [Hposts Hwrites]]].
    unfold run. rewrite Hrun. unfold no_op_state in *. rewrite Hs1.
    split; [reflexivity|]. split; [apply Hposts | apply Hwrites]; reflexivity.
  - intros Hall first second.
    assert (Hfirst : unposted items (store_ids (store first)) = []).
    { unfold first, run. rewrite (reaches_filter_main _ _ _ _ _ Hreach).
      pose proof (main_after_fetch_run w webhook_url items st1) as Hrun. simpl in Hrun.
      rewrite Hrun, Hs1, Ht1.
      change (count_events is_SlackPost (ReadWatchlist :: ReadWatchlist :: evs))
        with (count_events is_SlackPost evs).
      rewrite (count_events_none is_SlackPost retry_event evs Hp1 retry_event_not_post).
      destruct (unposted items (store_ids (posted_file w))) as [|item rest] eqn:Hto_post.
      - cbn [snd store]. exact Hto_post.
      - cbn [snd store store_ids]. rewrite sorted_ids_to_set, Hall, <- Hto_post.
        apply unposted_after_posting_all. }
    assert (Hreach2 : reaches_filter w (next_run_state first) webhook_url items
                        (with_store (store first) st1)).
    { exact (reaches_filter_with_store _ _ _ _ _ (store first) Hreach). }
    destruct (no_op_run w (next_run_state first) webhook_url items _ Hreach2 Hfirst)
      as [Hrun [Hstore [Hposts Hwrites]]].
    unfold second. rewrite Hrun. simpl.
    split; [reflexivity|]. split; [reflexivity|]. split; [reflexivity|].
    split; [apply Hposts | apply Hwrites]; reflexivity.
Qed.

Lemma three_new_reaches_filter :
  reaches_filter Scenario.three_new (initial_state Scenario.three_new)
    "https://hooks.example/T"
    (Scenario.returned [] (ScenarioRuns.fetch Scenario.three_new))
    (snd (ScenarioRuns.fetch Scenario.three_new)).
Proof.
  split; [reflexivity|]. split; [reflexivity|].
  exists {| queries := ["openssl"]; tag_rules := Some [("crypto", Some ["openssl"; "tls"])] |},
         (ScenarioRuns.loaded Scenario.three_new), 24%Z.
  split; [reflexivity|]. split; [discriminate|]. split; [reflexivity|].
  vm_compute. reflexivity.
Qed.

Lemma second_post_fails_reaches_filter :
  reaches_filter Scenario.second_post_fails (initial_state Scenario.second_post_fails)
    "https://hooks.example/T"
    (Scenario.returned [] (ScenarioRuns.fetch Scenario.second_post_fails))
    (snd (ScenarioRuns.fetch Scenario.second_post_fails)).
Proof.
  split; [reflexivity|]. split; [reflexivity|].
  exists {| queries := ["openssl"]; tag_rules := Some [("crypto", Some ["openssl"; "tls"])] |},
         (ScenarioRuns.loaded Scenario.second_post_fails), 24%Z.
  split; [reflexivity|]. split; [discriminate|]. split; [reflexivity|].
  vm_compute. reflexivity.
Qed.

Lemma C4_witness :
  fst (main Scenario.three_new (next_run_state (snd (run Scenario.three_new)))) = Ok 0%Z /\
  store (snd (main Scenario.three_new (next_run_state (snd (run Scenario.three_new)))))
  = store (snd (run Scenario.three_new)) /\
  count_events is_SlackPost
    (trace (snd (main Scenario.three_new (next_run_state (snd (run Scenario.three_new))))))
  = 0 /\
  count_events is_WriteStore
    (trace (snd (main Scenario.three_new (next_run_state (snd (run Scenario.three_new))))))
  = 0.
Proof.
  destruct (C4_nothing_new_is_a_no_op Scenario.three_new "https://hooks.example/T"
              (Scenario.returned [] (ScenarioRuns.fetch Scenario.three_new))
              (snd (ScenarioRuns.fetch Scenario.three_new))
              three_new_reaches_filter) as [_ Htwice].
  destruct Htwice as [Hcode [Hstore [_ [Hposts Hwrites]]]].
  - vm_compute. reflexivity.
  - repeat split; assumption.
Defined.

(** The first run posts the three advisories and records them; the second
    posts nothing. *)
Example three_new_first_run :
  fst (run Scenario.three_new) = Ok 0%Z /\
  store (snd (run Scenario.three_new))
  = FileJson (Some ["CVE-2024-0001"; "CVE-2024-0002"; "CVE-2024-0003"]) /\
  map cve_id (posted_items (trace (snd (run Scenario.three_new))))
  = ["CVE-2024-0003"; "CVE-2024-0002"; "CVE-2024-0001"].
Proof. vm_compute. auto. Qed.

Example three_new_second_run :
  main Scenario.three_new (next_run_state (snd (run Scenario.three_new)))
  = (Ok 0%Z,
     {| store := FileJson (Some ["CVE-2024-0001"; "CVE-2024-0002"; "CVE-2024-0003"]);
        trace := [ReadWatchlist; ReadWatchlist;
                  HttpGet {| keywordSearch := "openssl"; cvssV3Severity := "HIGH" |}
                          {| apiKey := None |};
                  HttpGet {| keywordSearch := "openssl"; cvssV3Severity := "CRITICAL" |}
                          {| apiKey := None |};
                  ReadStore; Print "No new CVEs to post."] |}).
Proof. vm_compute. reflexivity. Qed.

(** ** A delivery failure *)

Lemma delivered_until_failure (w : World) (k : nat) (ok : list CveItem)
    (failing : CveItem) (remaining : list CveItem) :
  (forall i item, nth_error ok i = Some item ->
                  post_error (slack_webhook w (k + i) item) = None) ->
  post_error (slack_webhook w (k + length ok) failing) <> None ->
  delivered w k (ok ++ failing :: remaining) = ok.
Proof.
  revert k. induction ok as [|item ok IH]; intros k Hok Hfail; simpl.
  - rewrite Nat.add_0_r in Hfail.
    destruct (post_error (slack_webhook w k failing)); [reflexivity | contradiction].
  - pose proof (Hok 0 item eq_refl) as H0. rewrite Nat.add_0_r in H0. rewrite H0.
    f_equal. apply IH.
    + intros i item' Hi. replace (S k + i) with (k + S i) by lia. apply Hok. exact Hi.
    + replace (S k + length ok) with (k + length (item :: ok)) by (simpl; lia).
      exact Hfail.
Qed.

Lemma posted_items_none (p : event -> bool) (evs : list event) :
  forallb p evs = true ->
  (forall ev, p ev = true -> is_SlackPost ev = false) ->
  posted_items evs = [].
Proof.
  intros Hp Hnot. induction evs as [|ev evs IH]; [reflexivity|].
  simpl in Hp. apply andb_true_iff in Hp as [Hev Hp].
  simpl. rewrite (IH Hp). specialize (Hnot ev Hev). destruct ev; try reflexivity.
  discriminate Hnot.
Qed.

Lemma firstn_succ_app {A} (ok : list A) (x : A) (rest : list A) :
  firstn (S (length ok)) (ok ++ x :: rest) = ok ++ [x].
Proof. induction ok as [|y ok IH]; simpl; [reflexivity | f_equal; exact IH]. Qed.

Lemma unposted_NoDup (items : list CveItem) (posted_ids : gset string) :
  NoDup (map cve_id items) -> NoDup (map cve_id (unposted items posted_ids)).
Proof.
  unfold unposted. induction items as [|x items IH]; simpl; intros Hnd; [constructor|].
  apply NoDup_cons in Hnd as [Hx Hnd].
  destruct (negb (bool_decide (cve_id x ∈ posted_ids))); [|exact (IH Hnd)].
  simpl. apply NoDup_cons. split; [|exact (IH Hnd)].
  intros Hin. apply Hx. rewrite list_elem_of_In in *.
  apply in_map_iff in Hin as [y [Hy Hin]]. apply filter_In in Hin as [Hin _].
  apply in_map_iff. exists y. auto.
Qed.

(** C2: the new items are posted in order; when a post fails, no further
    item is posted, the items posted before it are recorded in the store
    file, the failing item and the ones after it are not, and the run
    still writes the store file and returns 0. *)
Theorem C2_first_failure_stops_notification (w : World) (webhook_url : string)
    (items : list CveItem) (st1 : State)
    (ok : list CveItem) (failing : CveItem) (remaining : list CveItem) :
  reaches_filter w (initial_state w) webhook_url items st1 ->
  unposted items (store_ids (posted_file w)) = ok ++ failing :: remaining ->
  (forall i item, nth_error ok i = Some item ->
                  post_error (slack_webhook w i item) = None) ->
  post_error (slack_webhook w (length ok) failing) <> None ->
  let final := snd (run w) in
  fst (run w) = Ok 0%Z /\
  posted_items (trace final) = ok ++ [failing] /\
  store final
  = FileJson (Some (sorted_ids (store_ids (posted_file w) ∪ list_to_set (map cve_id ok)))) /\
  count_events is_WriteStore (trace final) = 1 /\
  (forall id, id ∈ store_ids (store final) <->
              id ∈ store_ids (posted_file w) \/ In id (map cve_id ok)) /\
  (forall item, In item (failing :: remaining) -> cve_id item ∉ store_ids (store final)).
Proof.
  intros Hreach Hto_post Hok Hfail final.
  destruct (reaches_filter_trace _ _ _ _ _ Hreach) as [Hs1 [evs [Ht1 Hp1]]].
  simpl in Hs1, Ht1.
  assert (Hnodup : NoDup (map cve_id (ok ++ failing :: remaining))).
  { rewrite <- Hto_post. apply unposted_NoDup.
    destruct Hreach as [_ [_ [watchlist [st0 [hb [_ [_ [_ Hfetch]]]]]]]].
    exact (fetch_cves_NoDup _ _ _ _ _ _ _ Hfetch). }
  assert (Hdelivered : delivered w 0 (ok ++ failing :: remaining) = ok)
    by (apply delivered_until_failure; assumption).
  assert (Hposts0 : count_events is_SlackPost (trace st1) = 0).
  { rewrite Ht1.
    change (count_events is_SlackPost (ReadWatchlist :: ReadWatchlist :: evs))
      with (count_events is_SlackPost evs).
    exact (count_events_none _ _ _ Hp1 retry_event_not_post). }
  assert (Hfinal : run w
                   = (Ok 0%Z,
                      {| store := FileJson
                                    (Some (sorted_ids
                                             (store_ids (posted_file w)
                                              ∪ list_to_set (map cve_id ok))));
                         trace := trace st1
                                  ++ ReadStore
                                     :: notify_events w webhook_url 0
                                          (ok ++ failing :: remaining)
                                  ++ [WriteStore
                                        (sorted_ids
                                           (store_ids (posted_file w)
                                            ∪ list_to_set (map cve_id ok)));
                                      Print (posted_message
                                               (store_ids (posted_file w))
                                               (store_ids (posted_file w)
                                                ∪ list_to_set (map cve_id ok)))] |})).
  { unfold run. rewrite (reaches_filter_main _ _ _ _ _ Hreach).
    pose proof (main_after_fetch_run w webhook_url items st1) as Hrun.
    cbv zeta in Hrun. rewrite Hs1, Hposts0, Hto_post, Hdelivered in Hrun.
    destruct ok; exact Hrun. }
  unfold final. rewrite Hfinal. cbn [fst snd store trace].
  split; [reflexivity|]. split; [|split; [reflexivity|split; [|split]]].
  - rewrite posted_items_app. change (ReadStore :: ?l) with ([ReadStore] ++ l).
    rewrite !posted_items_app.
    rewrite Ht1.
    change (posted_items (ReadWatchlist :: ReadWatchlist :: evs)) with (posted_items evs).
    rewrite (posted_items_none _ _ Hp1 retry_event_not_post).
    rewrite notify_events_posts, Hdelivered, firstn_succ_app. simpl.
    rewrite app_nil_r. reflexivity.
  - rewrite !count_events_app. change (ReadStore :: ?l) with ([ReadStore] ++ l).
    rewrite !count_events_app. rewrite Ht1.
    change (count_events is_WriteStore (ReadWatchlist :: ReadWatchlist :: evs))
      with (count_events is_WriteStore evs).
    rewrite (count_events_none _ _ _ Hp1 retry_event_not_write).
    rewrite (count_events_none is_WriteStore notify_event _
               (notify_events_class w webhook_url 0 _)).
    + reflexivity.
    + intros ev. destruct ev; simpl; congruence.
  - intros id. cbn [store_ids]. rewrite sorted_ids_to_set, elem_of_union.
    rewrite elem_of_list_to_set, list_elem_of_In. reflexivity.
  - intros item Hitem. cbn [store_ids]. rewrite sorted_ids_to_set, elem_of_union.
    rewrite elem_of_list_to_set.
    assert (Hnew : In item (unposted items (store_ids (posted_file w)))).
    { rewrite Hto_post. apply in_or_app. right. exact Hitem. }
    apply unposted_In in Hnew as [_ Hnot_posted].
    intros [Hposted | Hrecorded]; [exact (Hnot_posted Hposted)|].
    rewrite map_app in Hnodup. apply NoDup_app in Hnodup as [_ [Hdisjoint _]].
    apply (Hdisjoint _ Hrecorded). apply list_elem_of_In, in_map. exact Hitem.
Qed.

Lemma C2_witness :
  fst (run Scenario.second_post_fails) = Ok 0%Z /\
  posted_items (trace (snd (run Scenario.second_post_fails)))
  = [SecondPostFails.item3; SecondPostFails.item2] /\
  store (snd (run Scenario.second_post_fails))
  = FileJson (Some (sorted_ids ({[ "CVE-2023-9999" ]} ∪ {[ "CVE-2024-0003" ]}))) /\
  ("CVE-2024-0002" ∉ store_ids (store (snd (run Scenario.second_post_fails)))) /\
  ("CVE-2024-0001" ∉ store_ids (store (snd (run Scenario.second_post_fails)))).
Proof.
  destruct (C2_first_failure_stops_notification Scenario.second_post_fails
              "https://hooks.example/T"
              (Scenario.returned [] (ScenarioRuns.fetch Scenario.second_post_fails))
              (snd (ScenarioRuns.fetch Scenario.second_post_fails))
              [SecondPostFails.item3] SecondPostFails.item2 [SecondPostFails.item1]
              second_post_fails_reaches_filter)
    as [Hcode [Hposts [Hstore [_ [_ Hnot]]]]].
  - vm_compute. reflexivity.
  - intros [|[|i]] item Hi; simpl in Hi; try discriminate Hi. reflexivity.
  - vm_compute. discriminate.
  - split; [exact Hcode|]. split; [exact Hposts|]. split.
    + rewrite Hstore. vm_compute. reflexivity.
    + split.
      * apply (Hnot SecondPostFails.item2). left. reflexivity.
      * apply (Hnot SecondPostFails.item1). right. left. reflexivity.
Defined.

Example second_post_fails_run :
  fst (run Scenario.second_post_fails) = Ok 0%Z /\
  store (snd (run Scenario.second_post_fails))
  = FileJson (Some ["CVE-2023-9999"; "CVE-2024-0003"]) /\
  map cve_id (posted_items (trace (snd (run Scenario.second_post_fails))))
  = ["CVE-2024-0003"; "CVE-2024-0002"].
Proof. vm_compute. auto. Qed.

(** The next run posts the two items that were left. *)
Example second_post_fails_next_run :
  map cve_id
    (posted_items
       (trace (snd (main Scenario.three_new
                      (next_run_state (snd (run Scenario.second_post_fails)))))))
  = ["CVE-2024-0002"; "CVE-2024-0001"].
Proof. vm_compute. reflexivity. Qed.

(** ** Readings of the watchlist *)

Lemma query_event_retry (qs : list string) (ev : event) :
  query_event qs ev = true -> retry_event ev = true.
Proof. unfold retry_event. destruct ev; simpl; congruence. Qed.

Lemma query_event_In (qs : list string) (params : Params) (headers : Headers) :
  query_event qs (HttpGet params headers) = true -> In (keywordSearch params) qs.
Proof.
  simpl. rewrite existsb_exists. intros [q [Hin Heq]].
  apply String.eqb_eq in Heq. congruence.
Qed.

Lemma query_event_cons (q : string) (qs : list string) (ev : event) :
  query_event qs ev = true -> query_event (q :: qs) ev = true.
Proof. destruct ev; simpl; try congruence. intros ->. apply orb_true_r. Qed.

Lemma retry_loop_queries (w : World) (params : Params) (headers : Headers)
    (attempts : list Z) :
  only_emits (query_event [keywordSearch params]) (retry_loop w params headers attempts).
Proof.
  assert (Hget : only_emits (query_event [keywordSearch params])
                   (requests_get w params headers)).
  { unfold requests_get. apply only_emits_bind; [apply only_emits_get_trace | intros tr].
    apply only_emits_bind; [|intros _; frame].
    apply only_emits_emit. simpl. rewrite String.eqb_refl. reflexivity. }
  induction attempts as [|attempt rest IH]; simpl; unfold sleep; frame.
Qed.

Lemma fetch_severities_queries (w : World) (headers : Headers) (rules : option TagRules)
    (query : string) (severities : list string) (items : list (string * CveItem)) :
  only_emits (query_event [query])
    (fetch_severities w headers rules query severities items).
Proof.
  revert items. induction severities as [|severity rest IH]; intros items; simpl.
  - frame.
  - apply only_emits_bind;
      [|intros data; apply only_emits_bind;
                       [apply merge_entries_frame | intros items'; apply IH]].
    apply (retry_loop_queries w {| keywordSearch := query; cvssV3Severity := severity |}).
Qed.

Lemma fetch_queries_queries (w : World) (headers : Headers) (rules : option TagRules)
    (queries : list string) (items : list (string * CveItem)) :
  only_emits (query_event queries) (fetch_queries w headers rules queries items).
Proof.
  revert items. induction queries as [|query rest IH]; intros items; cbn [fetch_queries].
  - frame.
  - apply only_emits_bind.
    + eapply only_emits_weaken; [|apply fetch_severities_queries].
      intros ev. destruct ev; simpl; try congruence.
      rewrite orb_false_r. intros ->. reflexivity.
    + intros items'. eapply only_emits_weaken; [|apply IH].
      intros ev. apply query_event_cons.
Qed.

(** The fetch reads the watchlist once, first, and then requests only the
    queries it was given. *)
Lemma fetch_cves_trace_queries (w : World) (queries : list string)
    (api_key : option string) (hours_back : Z) (st : State)
    (r : outcome (list CveItem)) (st1 : State) :
  _fetch_cves w queries api_key hours_back st = (r, st1) ->
  (r = Raise OverflowError /\ st1 = st)
  \/ exists evs,
       trace st1 = trace st ++ ReadWatchlist :: evs /\
       forallb (query_event queries) evs = true.
Proof.
  intros H. apply fetch_cves_inv in H as [[_ [H1 H2]] | [_ H]]; [left; auto | right].
  unfold fetch_in_window in H.
  apply bind_inv in H as [[watchlist [st0 [Hload H]]] | [e [Hload _]]].
  - rewrite load_watchlist_run in Hload.
    assert (Hst0 : st0 = {| store := store st; trace := trace st ++ [ReadWatchlist] |})
      by (injection Hload; congruence).
    assert (Hframe : only_emits (query_event queries)
                       (items <- fetch_queries w
                                   {| apiKey := match api_key with
                                                | Some key =>
                                                    if PyStr.truthy key then Some key else None
                                                | None => None
                                                end |}
                                   (tag_rules watchlist) queries [] ;;
                        ret (sorted_by_published_desc (dict_values items)))).
    { apply only_emits_bind; [apply fetch_queries_queries | intros; apply only_emits_ret]. }
    destruct (only_emits_run _ _ _ _ _ Hframe H) as [_ [evs [Ht Hp]]].
    subst st0. simpl in Ht. exists evs. rewrite Ht, <- app_assoc. auto.
  - rewrite load_watchlist_run in Hload. injection Hload as _ <-. simpl.
    exists []. auto.
Qed.

(** Every fetched item was normalised with the tag rules of the reading of
    the watchlist that the fetch made. *)
Lemma fetch_cves_tags (w : World) (queries : list string) (api_key : option string)
    (hours_back : Z) (st : State) (items : list CveItem) (st1 : State) :
  _fetch_cves w queries api_key hours_back st = (Ok items, st1) ->
  forall item,
    In item items ->
    exists rules,
      loaded_tag_rules w (count_events is_ReadWatchlist (trace st)) = Some rules /\
      tags item = _tag_item (summary item) (references item) rules.
Proof.
  intros H item Hin. apply fetch_cves_ok in H as [rules [bodies [Hrules [_ ->]]]].
  rewrite <- list_elem_of_In, sorted_by_published_desc_perm, list_elem_of_In in Hin.
  apply merge_items_values in Hin; [|constructor|constructor].
  destruct Hin as [[pre [post [Hstream _]]] | [[] _]].
  assert (Hitem : In item (processed_items rules bodies))
    by (rewrite Hstream; apply in_or_app; right; left; reflexivity).
  unfold processed_items in Hitem.
  destruct Hrules as [Hrules | Hnone].
  - exists rules. split; [exact Hrules|].
    apply in_map_iff in Hitem as [cve [<- _]]. reflexivity.
  - rewrite Hnone in Hitem. destruct Hitem.
Qed.

Lemma firstn_In {A} (n : nat) (l : list A) (x : A) : In x (firstn n l) -> In x l.
Proof.
  revert n. induction l as [|y l IH]; intros [|n]; simpl; try tauto.
  intros [Hx | Hx]; [left; exact Hx | right; exact (IH n Hx)].
Qed.

Lemma main_after_fetch_trace (w : World) (webhook_url : string) (items : list CveItem)
    (st : State) :
  exists tail,
    trace (snd (main_after_fetch w webhook_url items st)) = trace st ++ tail /\
    forallb after_fetch_event tail = true /\
    forall item, In item (posted_items tail) -> In item items.
Proof.
  pose proof (main_after_fetch_run w webhook_url items st) as Hrun. cbv zeta in Hrun.
  rewrite Hrun.
  destruct (unposted items (store_ids (store st))) as [|first rest] eqn:Hto_post.
  - eexists. split; [reflexivity|]. split; [reflexivity|]. intros item [].
  - eexists. split; [reflexivity|]. split.
    + cbn [forallb after_fetch_event andb]. rewrite forallb_app. apply andb_true_iff.
      split; [|reflexivity].
      apply forallb_forall. intros ev Hev.
      pose proof (notify_events_class w webhook_url
                    (count_events is_SlackPost (trace st)) (first :: rest)) as Hclass.
      rewrite forallb_forall in Hclass. specialize (Hclass ev Hev).
      destruct ev; simpl in *; congruence.
    + intros item Hin.
      change (ReadStore :: ?l) with ([ReadStore] ++ l) in Hin.
      rewrite !posted_items_app in Hin.
      change (posted_items [ReadStore]) with (@nil CveItem) in Hin.
      change (posted_items [WriteStore ?ids; Print ?msg]) with (@nil CveItem) in Hin.
      rewrite app_nil_r in Hin. cbn [app] in Hin.
      rewrite notify_events_posts in Hin. apply firstn_In in Hin.
      rewrite <- Hto_post in Hin. apply unposted_In in Hin as [Hin _]. exact Hin.
Qed.

(** The first reading, made by [main], and the trace of the fetch after it. *)
Lemma fetch_phase_trace (w : World) (watchlist : Watchlist) (st0 : State)
    (api_key : option string) (hours_back : Z)
    (r : outcome (list CveItem)) (st1 : State) :
  _load_watchlist w (initial_state w) = (Ok watchlist, st0) ->
  _fetch_cves w (queries watchlist) api_key hours_back st0 = (r, st1) ->
  loaded_queries w 0 = Some (queries watchlist) /\
  trace st0 = [ReadWatchlist] /\
  ((r = Raise OverflowError /\ st1 = st0)
   \/ exists evs,
        trace st1 = ReadWatchlist :: ReadWatchlist :: evs /\
        forallb (query_event (queries watchlist)) evs = true).
Proof.
  intros Hload Hfetch. rewrite load_watchlist_run in Hload. simpl in Hload.
  change (count_events is_ReadWatchlist []) with 0 in Hload.
  unfold loaded_queries.
  destruct (watchlist_file w 0) as [msg|loaded]; [discriminate Hload|].
  injection Hload as <- <-. simpl.
  split; [reflexivity|]. split; [reflexivity|].
  apply fetch_cves_trace_queries in Hfetch as [Hover | [evs [Ht Hp]]]; [left; exact Hover|].
  right. exists evs. auto.
Qed.

(** A run that reaches the fetch reads the watchlist twice; if the file was
    edited in between, the tags come from the second reading. *)
Lemma C8_counterexample :
  ~ loads_watchlist_once Scenario.watchlist_edited /\
  count_events is_ReadWatchlist (trace (snd (run Scenario.watchlist_edited))) = 2 /\
  loaded_tag_rules Scenario.watchlist_edited 0 = Some [("crypto", Some ["openssl"; "tls"])] /\
  map tags (posted_items (trace (snd (run Scenario.watchlist_edited)))) = [["edited"]].
Proof.
  split; [|split; [|split]].
  - unfold loads_watchlist_once. vm_compute. discriminate.
  - vm_compute. reflexivity.
  - reflexivity.
  - vm_compute. reflexivity.
Qed.

Lemma In_forallb {A} (p : A -> bool) (l : list A) (x : A) :
  forallb p l = true -> In x l -> p x = true.
Proof. intros H Hin. rewrite forallb_forall in H. exact (H x Hin). Qed.

(** C8, amended: a run reads the watchlist at most twice, and only at its
    start: once in [main], for the queries, and, if the run gets to the
    fetch, once more as the fetch begins, for the tag rules. Until the second
    reading the run does nothing else but report an error. Every request is
    for a query of the first reading and every posted item carries the tags
    given by the rules of the second reading. *)
Theorem C8_watchlist_read_at_most_twice (w : World) :
  exists n rest,
    trace (snd (run w)) = repeat ReadWatchlist n ++ rest /\
    n <= 2 /\
    count_events is_ReadWatchlist rest = 0 /\
    (n < 2 -> forallb is_PrintErr rest = true) /\
    (forall params headers,
        In (HttpGet params headers) rest ->
        exists qs, loaded_queries w 0 = Some qs /\ In (keywordSearch params) qs) /\
    (forall item,
        In item (posted_items rest) ->
        exists rules,
          loaded_tag_rules w 1 = Some rules /\
          tags item = _tag_item (summary item) (references item) rules).
Proof.
  unfold run.
  destruct (main_takes_a_path w (initial_state w))
    as [ Hurl
       | url r st0 e Hurl Htruthy Hload Hr
       | url watchlist st0 Hurl Htruthy Hload Hq
       | url watchlist st0 e Hurl Htruthy Hload Hq Hhours
       | url watchlist st0 hb msg cause st1 Hurl Htruthy Hload Hq Hhours Hfetch
       | url watchlist st0 hb e st1 Hurl Htruthy Hload Hq Hhours Hfetch Hother
       | url watchlist st0 hb items st1 Hurl Htruthy Hload Hq Hhours Hfetch ].
  - exists 0, [PrintErr "SLACK_WEBHOOK_URL is required."]. simpl.
    split; [reflexivity|]. split; [lia|]. split; [reflexivity|]. split; [reflexivity|].
    split.
    + intros params headers [H | []]. discriminate H.
    + intros item [].
  - rewrite load_watchlist_run in Hload. injection Hload as _ <-.
    exists 1, []. simpl.
    split; [reflexivity|]. split; [lia|]. split; [reflexivity|]. split; [reflexivity|].
    split.
    + intros params headers [].
    + intros item [].
  - rewrite load_watchlist_run in Hload. injection Hload as _ <-.
    exists 1, [PrintErr "watchlist.yml has no queries."]. simpl.
    split; [reflexivity|]. split; [lia|]. split; [reflexivity|]. split; [reflexivity|].
    split.
    + intros params headers [H | []]. discriminate H.
    + intros item [].
  - rewrite load_watchlist_run in Hload. injection Hload as _ <-.
    exists 1, []. simpl.
    split; [reflexivity|]. split; [lia|]. split; [reflexivity|]. split; [reflexivity|].
    split.
    + intros params headers [].
    + intros item [].
  - destruct (fetch_phase_trace _ _ _ _ _ _ _ Hload Hfetch)
      as [Hqueries [_ [[Hover _] | [evs [Ht Hp]]]]]; [discriminate Hover|].
    exists 2, (evs ++ [PrintErr msg]). cbn [snd trace]. rewrite Ht.
    split; [reflexivity|]. split; [lia|]. split; [|split; [lia|split]].
    + rewrite count_events_app.
      rewrite (count_events_none is_ReadWatchlist (query_event (queries watchlist)) evs Hp).
      * reflexivity.
      * intros ev Hev. apply retry_event_not_load. exact (query_event_retry _ _ Hev).
    + intros params headers Hin. exists (queries watchlist). split; [exact Hqueries|].
      apply in_app_or in Hin as [Hin | [Hin | []]]; [|discriminate Hin].
      exact (query_event_In _ _ _ (In_forallb _ _ _ Hp Hin)).
    + intros item Hin. rewrite posted_items_app in Hin. simpl in Hin.
      rewrite app_nil_r in Hin.
      rewrite (posted_items_none (query_event (queries watchlist)) evs Hp) in Hin;
        [destruct Hin|].
      intros ev Hev. apply retry_event_not_post. exact (query_event_retry _ _ Hev).
  - destruct (fetch_phase_trace _ _ _ _ _ _ _ Hload Hfetch)
      as [Hqueries [Ht0 [[_ ->] | [evs [Ht Hp]]]]].
    { exists 1, []. cbn [snd trace]. rewrite Ht0. simpl.
      split; [reflexivity|]. split; [lia|]. split; [reflexivity|]. split; [reflexivity|].
      split; [intros params headers [] | intros item []]. }
    exists 2, evs. cbn [snd trace]. rewrite Ht.
    split; [reflexivity|]. split; [lia|]. split; [|split; [lia|split]].
    + apply (count_events_none is_ReadWatchlist (query_event (queries watchlist)) evs Hp).
      intros ev Hev. apply retry_event_not_load. exact (query_event_retry _ _ Hev).
    + intros params headers Hin. exists (queries watchlist). split; [exact Hqueries|].
      exact (query_event_In _ _ _ (In_forallb _ _ _ Hp Hin)).
    + intros item Hin.
      rewrite (posted_items_none (query_event (queries watchlist)) evs Hp) in Hin;
        [destruct Hin|].
      intros ev Hev. apply retry_event_not_post. exact (query_event_retry _ _ Hev).
  - destruct (fetch_phase_trace _ _ _ _ _ _ _ Hload Hfetch)
      as [Hqueries [Ht0 [[Hover _] | [evs [Ht Hp]]]]]; [discriminate Hover|].
    destruct (main_after_fetch_trace w url items st1) as [tail [Htail [Hclass Hposted]]].
    pose proof (fetch_cves_tags _ _ _ _ _ _ _ Hfetch) as Htags.
    rewrite Ht0 in Htags. change (count_events is_ReadWatchlist [ReadWatchlist]) with 1 in Htags.
    exists 2, (evs ++ tail). rewrite Htail, Ht.
    split; [reflexivity|]. split; [lia|]. split; [|split; [lia|split]].
    + rewrite count_events_app.
      rewrite (count_events_none is_ReadWatchlist (query_event (queries watchlist)) evs Hp).
      * apply (count_events_none is_ReadWatchlist after_fetch_event tail Hclass).
        intros ev. destruct ev; simpl; congruence.
      * intros ev Hev. apply retry_event_not_load. exact (query_event_retry _ _ Hev).
    + intros params headers Hin. exists (queries watchlist). split; [exact Hqueries|].
      apply in_app_or in Hin as [Hin | Hin].
      * exact (query_event_In _ _ _ (In_forallb _ _ _ Hp Hin)).
      * pose proof (In_forallb _ _ _ Hclass Hin) as Hev. discriminate Hev.
    + intros item Hin. rewrite posted_items_app in Hin.
      rewrite (posted_items_none (query_event (queries watchlist)) evs Hp) in Hin.
      * apply Htags, Hposted. exact Hin.
      * intros ev Hev. apply retry_event_not_post. exact (query_event_retry _ _ Hev).
Qed.

(** ** Retries and fetch failures *)

Lemma is_transient_is_error (status : Z) :
  is_transient status = true ->
  (400 <=? status)%Z && (status <? 600)%Z = true.
Proof.
  unfold is_transient. simpl. rewrite !orb_true_iff, !Z.eqb_eq.
  intros [-> | [-> | [-> | [-> | [-> | H]]]]]; try reflexivity. discriminate H.
Qed.

(** One turn of the retry loop. *)
Lemma retry_loop_step (w : World) (params : Params) (headers : Headers)
    (attempt : Z) (rest : list Z) (st : State) :
  retry_loop w params headers (attempt :: rest) st
  = match nvd_api w (count_events is_HttpGet (trace st)) params with
    | NetworkFailure msg =>
        if (attempt =? MAX_RETRIES)%Z
        then (Raise (RuntimeError ("NVD request failed: " +:+ msg)
                                  (Some (ConnectionFailure msg))),
              after_get params headers st)
        else retry_loop w params headers rest (after_get_sleep params headers attempt st)
    | Replied response =>
        if (400 <=? status_code response)%Z && (status_code response <? 600)%Z
        then
          if is_transient (status_code response) && negb (attempt =? MAX_RETRIES)%Z
          then retry_loop w params headers rest (after_get_sleep params headers attempt st)
          else (Raise (RequestException
                         (HTTPError (status_code response) (error_text response))),
                after_get params headers st)
        else
          if is_transient (status_code response)
          then retry_loop w params headers rest (after_get_sleep params headers attempt st)
          else (match json_body response with
                | Json body => Ok body
                | NotJson msg => Raise (RequestException (InvalidJSON msg))
                end,
                after_get params headers st)
    end.
Proof.
  cbn [retry_loop]. unfold bind at 1. rewrite try_get_run.
  unfold after_get, after_get_sleep.
  destruct (nvd_api w _ params) as [msg|response].
  - destruct (attempt =? MAX_RETRIES)%Z; [reflexivity|].
    unfold sleep, bind, emit. simpl. rewrite <- app_assoc. reflexivity.
  - unfold raise_for_status, response_json, sleep, bind, emit, ret, raise.
    destruct (is_transient (status_code response)) eqn:Htransient.
    + rewrite (is_transient_is_error _ Htransient).
      destruct (attempt =? MAX_RETRIES)%Z; simpl; [reflexivity|].
      rewrite <- app_assoc. reflexivity.
    + destruct ((400 <=? status_code response)%Z && (status_code response <? 600)%Z);
        simpl; [reflexivity|].
      destruct (json_body response); reflexivity.
Qed.


Lemma fetch_ends_main (w : World) (r : outcome (list CveItem)) (st1 : State) :
  fetch_ends w r st1 ->
  run w
  = match r with
    | Ok items =>
        main_after_fetch w (default "" (env_SLACK_WEBHOOK_URL w)) items st1
    | Raise (RuntimeError msg _) =>
        (Ok 1%Z, {| store := store st1; trace := trace st1 ++ [PrintErr msg] |})
    | Raise e => (Raise e, st1)
    end.
Proof.
  intros [url [watchlist [st0 [hb [Hurl [Htruthy [Hload [Hne [Hhours Hfetch]]]]]]]]].
  unfold run, main. rewrite Hurl, Htruthy. simpl.
  unfold bind at 1. rewrite Hload.
  destruct (queries watchlist) as [|query rest] eqn:Hqueries; [contradiction|].
  unfold bind at 1. rewrite Hhours.
  unfold bind at 1, try_RuntimeError. rewrite Hfetch.
  destruct r as [items|[msg cause|e|msg|msg| |]]; reflexivity.
Qed.

(** X2: a [RuntimeError] of the fetch ends the run with code 1: its text goes
    to the error stream, nothing is posted and the store file is neither
    read nor written. *)
Lemma runtime_error_is_fatal (w : World) (msg : string)
    (cause : option request_exception) (st1 : State) :
  fetch_ends w (Raise (RuntimeError msg cause)) st1 ->
  fst (run w) = Ok 1%Z /\
  store (snd (run w)) = posted_file w /\
  (exists evs,
      trace (snd (run w)) = ReadWatchlist :: ReadWatchlist :: evs ++ [PrintErr msg] /\
      forallb retry_event evs = true) /\
  count_events is_SlackPost (trace (snd (run w))) = 0 /\
  count_events is_WriteStore (trace (snd (run w))) = 0.
Proof.
  intros Hends. rewrite (fetch_ends_main _ _ _ Hends).
  destruct Hends as [url [watchlist [st0 [hb [_ [_ [Hload [_ [_ Hfetch]]]]]]]]].
  rewrite load_watchlist_run in Hload.
  assert (Hst0 : st0 = {| store := posted_file w; trace := [ReadWatchlist] |})
    by (injection Hload; simpl; congruence).
  apply fetch_cves_trace in Hfetch as [Hs [evs [Ht Hp]]]; [|discriminate].
  subst st0. simpl in Hs, Ht. cbn [fst snd store trace]. rewrite Ht.
  split; [reflexivity|]. split; [exact Hs|]. split; [exists evs; auto|].
  change (ReadWatchlist :: ReadWatchlist :: evs) with ([ReadWatchlist; ReadWatchlist] ++ evs).
  rewrite !count_events_app.
  rewrite (count_events_none is_SlackPost retry_event evs Hp retry_event_not_post).
  rewrite (count_events_none is_WriteStore retry_event evs Hp retry_event_not_write).
  split; reflexivity.
Qed.

(** An exception of [requests] that leaves the fetch is not caught: it
    leaves [main], which returns no code. *)
Lemma request_exception_escapes (w : World) (e : request_exception) (st1 : State) :
  fetch_ends w (Raise (RequestException e)) st1 ->
  run w = (Raise (RequestException e), st1).
Proof. intros Hends. exact (fetch_ends_main _ _ _ Hends). Qed.

Lemma network_down_runtime_error :
  fetch_ends Scenario.network_down
    (Raise (RuntimeError "NVD request failed: connection refused"
                         (Some (ConnectionFailure "connection refused"))))
    (snd (ScenarioRuns.fetch Scenario.network_down)).
Proof.
  exists "https://hooks.example/T",
         {| queries := ["openssl"]; tag_rules := Some [("crypto", Some ["openssl"; "tls"])] |},
         (ScenarioRuns.loaded Scenario.network_down), 24%Z.
  split; [reflexivity|]. split; [reflexivity|]. split; [reflexivity|].
  split; [discriminate|]. split; [reflexivity|]. vm_compute. reflexivity.
Qed.

Lemma runtime_error_is_fatal_witness :
  fst (run Scenario.network_down) = Ok 1%Z /\
  store (snd (run Scenario.network_down)) = FileJson (Some ["CVE-2023-9999"]) /\
  count_events is_SlackPost (trace (snd (run Scenario.network_down))) = 0 /\
  count_events is_WriteStore (trace (snd (run Scenario.network_down))) = 0.
Proof.
  destruct (runtime_error_is_fatal Scenario.network_down _ _ _ network_down_runtime_error)
    as [Hcode [Hstore [_ [Hposts Hwrites]]]].
  repeat split; assumption.
Defined.


(** One turn of the retry loop, by the reply it gets. *)
Lemma retry_loop_turn (w : World) (params : Params) (headers : Headers)
    (attempt : Z) (rest : list Z) (st : State) :
  let reply := nvd_api w (count_events is_HttpGet (trace st)) params in
  retry_loop w params headers (attempt :: rest) st
  = if retryable reply && negb (attempt =? MAX_RETRIES)%Z
    then retry_loop w params headers rest (after_get_sleep params headers attempt st)
    else (request_outcome reply, after_get params headers st).
Proof.
  intros reply. rewrite retry_loop_step. subst reply.
  destruct (nvd_api w _ params) as [msg|response]; cbn [retryable request_outcome].
  - destruct (attempt =? MAX_RETRIES)%Z; reflexivity.
  - fold (is_transient (status_code response)).
    destruct (is_transient (status_code response)) eqn:Htransient.
    + rewrite (is_transient_is_error _ Htransient).
      destruct (attempt =? MAX_RETRIES)%Z; reflexivity.
    + destruct ((400 <=? status_code response)%Z && (status_code response <? 600)%Z);
        reflexivity.
Qed.

Lemma after_get_sleep_count (params : Params) (headers : Headers) (attempt : Z)
    (st : State) :
  count_events is_HttpGet (trace (after_get_sleep params headers attempt st))
  = count_events is_HttpGet (trace st) + 1.
Proof. unfold after_get_sleep. cbn [trace]. rewrite count_events_app. reflexivity. Qed.

(** A request makes its attempts one after the other until a reply is not
    retried or the third attempt is made, and ends on that reply. *)
Lemma request_with_retry_run (w : World) (params : Params) (headers : Headers)
    (st : State) :
  let reply i := nvd_api w (count_events is_HttpGet (trace st) + i) params in
  _request_with_retry w params headers st
  = (request_outcome (reply (last_attempt reply)),
     {| store := store st;
        trace := trace st ++ request_events (HttpGet params headers) (last_attempt reply) |}).
Proof.
  intros reply. unfold _request_with_retry, last_attempt.
  change (range 1 (MAX_RETRIES + 1)) with [1; 2; 3]%Z.
  rewrite retry_loop_turn. change (1 =? MAX_RETRIES)%Z with false. cbn [negb].
  rewrite andb_true_r.
  replace (nvd_api w (count_events is_HttpGet (trace st)) params) with (reply 0)
    by (unfold reply; rewrite Nat.add_0_r; reflexivity).
  destruct (retryable (reply 0)); [|reflexivity].
  rewrite retry_loop_turn, after_get_sleep_count.
  change (2 =? MAX_RETRIES)%Z with false. cbn [negb]. rewrite andb_true_r.
  fold (reply 1).
  destruct (retryable (reply 1)).
  - rewrite retry_loop_turn, !after_get_sleep_count.
    change (3 =? MAX_RETRIES)%Z with true. cbn [negb]. rewrite andb_false_r.
    replace (count_events is_HttpGet (trace st) + 1 + 1)
      with (count_events is_HttpGet (trace st) + 2) by lia.
    fold (reply 2). unfold after_get, after_get_sleep. cbn [store trace request_events].
    rewrite <- !app_assoc. reflexivity.
  - unfold after_get, after_get_sleep. cbn [store trace request_events].
    rewrite <- !app_assoc. reflexivity.
Qed.

(** Two answers 503 and then 200: the request succeeds at the third attempt,
    after sleeps of 2 and 4 seconds. *)
Example recovers_at_third_attempt :
  _request_with_retry Scenario.recovers
    {| keywordSearch := "openssl"; cvssV3Severity := "HIGH" |} {| apiKey := None |}
    (initial_state Scenario.recovers)
  = (Ok {| vulnerabilities := Some [Some {| e_cve := Some Scenario.flaw1 |}] |},
     {| store := FileAbsent;
        trace := [HttpGet {| keywordSearch := "openssl"; cvssV3Severity := "HIGH" |}
                          {| apiKey := None |};
                  Sleep 2;
                  HttpGet {| keywordSearch := "openssl"; cvssV3Severity := "HIGH" |}
                          {| apiKey := None |};
                  Sleep 4;
                  HttpGet {| keywordSearch := "openssl"; cvssV3Severity := "HIGH" |}
                          {| apiKey := None |}] |}).
Proof. vm_compute. reflexivity. Qed.

(** ** Further properties of the store and the normaliser *)

(** X3: when [_save_posted] returns, the id list of the store file is in
    ascending order, has no duplicate and holds exactly the ids that were
    given; the file was written once. *)
Theorem save_posted_sorted_dedup (cve_ids : gset string) (st st' : State) :
  _save_posted cve_ids st = (Ok tt, st') ->
  exists payload,
    store st' = FileJson (Some payload) /\
    trace st' = trace st ++ [WriteStore payload] /\
    StronglySorted (fun a b => String.leb a b = true) payload /\
    NoDup payload /\
    (forall id, In id payload <-> id ∈ cve_ids).
Proof.
  intros H. exists (sorted_ids cve_ids).
  unfold _save_posted, bind, emit, write_store in H. injection H as <-.
  split; [reflexivity|]. split; [reflexivity|].
  split; [apply sorted_ids_sorted|]. split; [apply sorted_ids_NoDup|].
  intros id.
  rewrite <- list_elem_of_In, <- (elem_of_list_to_set (C := gset string)), sorted_ids_to_set.
  reflexivity.
Qed.

Lemma save_posted_sorted_dedup_witness :
  exists payload,
    store (snd (_save_posted {[ "CVE-2024-0002"; "CVE-2024-0001"; "CVE-2024-0002" ]}
                  {| store := FileAbsent; trace := [] |}))
    = FileJson (Some payload) /\
    StronglySorted (fun a b => String.leb a b = true) payload /\
    NoDup payload /\
    (forall id, In id payload <-> id ∈ ({[ "CVE-2024-0002"; "CVE-2024-0001"; "CVE-2024-0002" ]}
                                          : gset string)).
Proof.
  destruct (save_posted_sorted_dedup
              {[ "CVE-2024-0002"; "CVE-2024-0001"; "CVE-2024-0002" ]}
              {| store := FileAbsent; trace := [] |}
              (snd (_save_posted {[ "CVE-2024-0002"; "CVE-2024-0001"; "CVE-2024-0002" ]}
                      {| store := FileAbsent; trace := [] |}))
              eq_refl)
    as [payload [Hstore [_ [Hsorted [Hnodup Hids]]]]].
  exists payload. auto.
Defined.

Lemma reference_urls_truthy (refs : list RawReference) :
  Forall (fun u => PyStr.truthy u = true) (reference_urls refs).
Proof.
  induction refs as [|ref refs IH]; simpl; [constructor|].
  destruct (r_url ref) as [u|]; [|exact IH].
  destruct (PyStr.truthy u) eqn:Hu; [constructor; assumption | exact IH].
Qed.

(** X4: an item never has more than 3 references, and none is empty. *)
Theorem normalize_item_references (cve : RawCve) (tag_rules : TagRules) :
  length (references (_normalize_item cve tag_rules)) <= 3 /\
  Forall (fun u => u <> "") (references (_normalize_item cve tag_rules)).
Proof.
  simpl. unfold _extract_references. split.
  - rewrite length_firstn. lia.
  - apply Forall_forall. intros u Hu. apply list_elem_of_In, firstn_In in Hu.
    pose proof (reference_urls_truthy (default [] (raw_references cve))) as Hall.
    rewrite Forall_forall in Hall. apply list_elem_of_In in Hu.
    specialize (Hall u Hu). intros ->. discriminate Hall.
Qed.

(** ** The run before FILTER_NEW *)

Lemma read_hours_back_cases (w : World) :
  (exists hours_back, forall st, read_hours_back w st = (Ok hours_back, st))
  \/ (exists msg, forall st, read_hours_back w st = (Raise (ValueError msg), st)).
Proof.
  unfold read_hours_back. destruct (env_HOURS_BACK w) as [|n|msg].
  - left. exists 24%Z. reflexivity.
  - left. exists n. reflexivity.
  - right. exists msg. reflexivity.
Qed.

Lemma fetch_event_early (evs : list event) :
  forallb fetch_event evs = true -> forallb early_event evs = true.
Proof.
  rewrite !forallb_forall. intros H ev Hev. unfold early_event. rewrite (H ev Hev).
  reflexivity.
Qed.

(** Either the run gets to FILTER_NEW, whatever the store file is, or it
    ends before, without looking at the store file: then it returns 1 or
    lets an exception other than [RuntimeError] out, having read the
    watchlist, made requests, slept and printed errors only. *)
Lemma main_before_filter (w : World) (tr : list event) :
  (exists webhook_url items tr1,
      forall s, reaches_filter w {| store := s; trace := tr |} webhook_url items
                  {| store := s; trace := tr1 |})
  \/ (exists r evs,
         (r = Ok 1%Z \/ exists e, r = Raise e /\ forall msg cause, e <> RuntimeError msg cause) /\
         forallb early_event evs = true /\
         forall s, main w {| store := s; trace := tr |}
                   = (r, {| store := s; trace := tr ++ evs |})).
Proof.
  destruct (env_SLACK_WEBHOOK_URL w) as [url|] eqn:Hurl.
  2: { right. exists (Ok 1%Z), [PrintErr "SLACK_WEBHOOK_URL is required."].
       split; [left; reflexivity|]. split; [reflexivity|].
       intros s. unfold main. rewrite Hurl. reflexivity. }
  destruct (PyStr.truthy url) eqn:Htruthy.
  2: { right. exists (Ok 1%Z), [PrintErr "SLACK_WEBHOOK_URL is required."].
       split; [left; reflexivity|]. split; [reflexivity|].
       intros s. unfold main. rewrite Hurl, Htruthy. reflexivity. }
  destruct (watchlist_file w (count_events is_ReadWatchlist tr)) as [msg|loaded] eqn:Hfile.
  { right. exists (Raise (WatchlistError msg)), [ReadWatchlist].
    split; [right; eexists; split; [reflexivity | discriminate]|]. split; [reflexivity|].
    intros s. unfold main. rewrite Hurl, Htruthy. cbn [negb].
    unfold bind at 1. rewrite load_watchlist_run. cbn [trace store]. rewrite Hfile.
    reflexivity. }
  set (watchlist := {| queries := default [] (y_queries (default empty_yaml loaded));
                       tag_rules := default (Some []) (y_tag_rules (default empty_yaml loaded)) |}).
  assert (Hload : forall s,
             _load_watchlist w {| store := s; trace := tr |}
             = (Ok watchlist, {| store := s; trace := tr ++ [ReadWatchlist] |})).
  { intros s. rewrite load_watchlist_run. cbn [trace store]. rewrite Hfile. reflexivity. }
  destruct (queries watchlist) as [|query rest] eqn:Hqueries.
  { right. exists (Ok 1%Z), [ReadWatchlist; PrintErr "watchlist.yml has no queries."].
    split; [left; reflexivity|]. split; [reflexivity|].
    intros s. unfold main. rewrite Hurl, Htruthy. cbn [negb].
    unfold bind at 1. rewrite Hload, Hqueries.
    unfold print_stderr, bind, emit, ret. cbn [trace store]. rewrite <- app_assoc.
    reflexivity. }
  destruct (read_hours_back_cases w) as [[hours_back Hhours] | [msg Hhours]].
  2: { right. exists (Raise (ValueError msg)), [ReadWatchlist].
       split; [right; eexists; split; [reflexivity | discriminate]|]. split; [reflexivity|].
       intros s. unfold main. rewrite Hurl, Htruthy. cbn [negb].
       unfold bind at 1. rewrite Hload, Hqueries.
       unfold bind at 1. rewrite Hhours. reflexivity. }
  destruct (fetch_cves_frame w (queries watchlist) (env_NVD_API_KEY w) hours_back
              (tr ++ [ReadWatchlist])) as [r [evs [Hp Hfetch]]].
  assert (Hmain : forall s,
             main w {| store := s; trace := tr |}
             = match r with
               | Ok items =>
                   main_after_fetch w url items
                     {| store := s; trace := (tr ++ [ReadWatchlist]) ++ evs |}
               | Raise (RuntimeError msg _) =>
                   (Ok 1%Z, {| store := s;
                               trace := ((tr ++ [ReadWatchlist]) ++ evs) ++ [PrintErr msg] |})
               | Raise e => (Raise e, {| store := s; trace := (tr ++ [ReadWatchlist]) ++ evs |})
               end).
  { intros s. unfold main. rewrite Hurl, Htruthy. cbn [negb].
    unfold bind at 1. rewrite Hload. rewrite Hqueries. rewrite <- Hqueries.
    unfold bind at 1. rewrite Hhours.
    unfold bind at 1, try_RuntimeError. rewrite Hfetch.
    destruct r as [items|[msg cause|e|msg|msg| |]]; reflexivity. }
  assert (Hearly : forallb early_event (ReadWatchlist :: evs) = true).
  { apply fetch_event_early. simpl. exact Hp. }
  destruct r as [items|e].
  - left. exists url, items, ((tr ++ [ReadWatchlist]) ++ evs). intros s.
    split; [exact Hurl|]. split; [exact Htruthy|].
    exists watchlist, {| store := s; trace := tr ++ [ReadWatchlist] |}, hours_back.
    split; [apply Hload|]. split; [rewrite Hqueries; discriminate|].
    split; [apply Hhours | apply Hfetch].
  - right.
    assert (Hcrash : (forall msg cause, e <> RuntimeError msg cause) ->
                     forall s, main w {| store := s; trace := tr |}
                               = (Raise e, {| store := s; trace := tr ++ ReadWatchlist :: evs |})).
    { intros Hother s. rewrite Hmain, <- !app_assoc.
      destruct e as [msg cause|e|msg|msg| |]; try reflexivity.
      exfalso. exact (Hother msg cause eq_refl). }
    destruct e as [msg cause|e|msg|msg| |].
    + exists (Ok 1%Z), (ReadWatchlist :: evs ++ [PrintErr msg]).
      split; [left; reflexivity|]. split.
      * change (ReadWatchlist :: evs ++ [PrintErr msg])
          with ((ReadWatchlist :: evs) ++ [PrintErr msg]).
        rewrite forallb_app, Hearly. reflexivity.
      * intros s. rewrite Hmain, <- !app_assoc. reflexivity.
    + exists (Raise (RequestException e)), (ReadWatchlist :: evs).
      split; [right; eexists; split; [reflexivity | discriminate]|].
      split; [exact Hearly|]. apply Hcrash. discriminate.
    + exists (Raise (ValueError msg)), (ReadWatchlist :: evs).
      split; [right; eexists; split; [reflexivity | discriminate]|].
      split; [exact Hearly|]. apply Hcrash. discriminate.
    + exists (Raise (WatchlistError msg)), (ReadWatchlist :: evs).
      split; [right; eexists; split; [reflexivity | discriminate]|].
      split; [exact Hearly|]. apply Hcrash. discriminate.
    + exists (Raise OverflowError), (ReadWatchlist :: evs).
      split; [right; eexists; split; [reflexivity | discriminate]|].
      split; [exact Hearly|]. apply Hcrash. discriminate.
    + exists (Raise AttributeError), (ReadWatchlist :: evs).
      split; [right; eexists; split; [reflexivity | discriminate]|].
      split; [exact Hearly|]. apply Hcrash. discriminate.
Qed.

Lemma main_after_fetch_code (w : World) (webhook_url : string) (items : list CveItem)
    (st : State) :
  fst (main_after_fetch w webhook_url items st) = Ok 0%Z.
Proof.
  pose proof (main_after_fetch_run w webhook_url items st) as Hrun. cbv zeta in Hrun.
  rewrite Hrun. destruct (unposted items (store_ids (store st))); reflexivity.
Qed.

Lemma early_event_counts (evs : list event) :
  forallb early_event evs = true ->
  count_events is_SlackPost evs = 0 /\
  count_events is_WriteStore evs = 0 /\
  posted_items evs = [].
Proof.
  intros H. split; [|split].
  - apply (count_events_none _ _ _ H). intros ev. unfold early_event, fetch_event, retry_event. destruct ev; simpl; congruence.
  - apply (count_events_none _ _ _ H). intros ev. unfold early_event, fetch_event, retry_event. destruct ev; simpl; congruence.
  - apply (posted_items_none _ _ H). intros ev. unfold early_event, fetch_event, retry_event. destruct ev; simpl; congruence.
Qed.

(** ** A fetch that fails *)

Lemma early_event_no_store_read (evs : list event) :
  forallb early_event evs = true -> count_events is_ReadStore evs = 0.
Proof.
  intros H. apply (count_events_none _ _ _ H). intros ev.
  unfold early_event, fetch_event, retry_event. destruct ev; simpl; congruence.
Qed.

(** What the run has done when its fetch ends: read the watchlist, made
    requests and slept. *)
Lemma fetch_ends_trace (w : World) (r : outcome (list CveItem)) (st1 : State) :
  fetch_ends w r st1 ->
  store st1 = posted_file w /\ forallb early_event (trace st1) = true.
Proof.
  intros [url [watchlist [st0 [hb [_ [_ [Hload [_ [_ Hfetch]]]]]]]]].
  rewrite load_watchlist_run in Hload.
  assert (Hst0 : st0 = {| store := posted_file w; trace := [ReadWatchlist] |})
    by (injection Hload; simpl; congruence).
  destruct (only_emits_run _ _ _ _ _ (fetch_cves_frame _ _ _ _) Hfetch) as [Hs [evs [Ht Hp]]].
  subst st0. cbn [store trace app] in Hs, Ht. split; [exact Hs|].
  rewrite Ht. cbn [forallb]. apply fetch_event_early. exact Hp.
Qed.

(** The failure of a loop of the fetch is the failure of one of its
    requests, unless it is the failure to tag without tag rules. *)
Lemma fetch_severities_failure (w : World) (headers : Headers) (rules : option TagRules)
    (query : string) (severities : list string) (items : list (string * CveItem))
    (st : State) (e : exn) (st' : State) :
  fetch_severities w headers rules query severities items st = (Raise e, st') ->
  (exists k severity,
      In severity severities /\
      request_outcome (nvd_api w k {| keywordSearch := query; cvssV3Severity := severity |})
      = Raise e)
  \/ e = AttributeError.
Proof.
  revert items st. induction severities as [|severity rest IH]; intros items st H;
    cbn [fetch_severities] in H.
  - discriminate H.
  - apply bind_inv in H as [[data [st1 [Hreq H]]] | [e' [Hreq He]]].
    + apply bind_inv in H as [[items1 [st2 [Hmerge H]]] | [e' [Hmerge He]]].
      * destruct (IH _ _ H) as [[k [sev [Hin Hout]]] | Hattr]; [left | right; exact Hattr].
        exists k, sev. split; [right; exact Hin | exact Hout].
      * right. rewrite merge_entries_run in Hmerge.
        destruct rules as [rules|]; [discriminate Hmerge|].
        destruct (List.filter _ _); [discriminate Hmerge|]. congruence.
    + left. rewrite request_with_retry_run in Hreq.
      eexists _, severity. split; [left; reflexivity|].
      injection Hreq as Hout _. rewrite Hout. congruence.
Qed.

Lemma fetch_queries_failure (w : World) (headers : Headers) (rules : option TagRules)
    (queries : list string) (items : list (string * CveItem))
    (st : State) (e : exn) (st' : State) :
  fetch_queries w headers rules queries items st = (Raise e, st') ->
  (exists k params,
      In params (request_pairs queries) /\ request_outcome (nvd_api w k params) = Raise e)
  \/ e = AttributeError.
Proof.
  revert items st. induction queries as [|query rest IH]; intros items st H;
    cbn [fetch_queries] in H.
  - discriminate H.
  - apply bind_inv in H as [[items1 [st1 [Hsev H]]] | [e' [Hsev He]]].
    + destruct (IH _ _ H) as [[k [params [Hin Hout]]] | Hattr]; [left | right; exact Hattr].
      exists k, params. split; [|exact Hout].
      cbn [request_pairs flat_map]. apply in_or_app. right. exact Hin.
    + injection He as <-.
      destruct (fetch_severities_failure _ _ _ _ _ _ _ _ _ Hsev)
        as [[k [severity [Hin Hout]]] | Hattr]; [left | right; exact Hattr].
      exists k, {| keywordSearch := query; cvssV3Severity := severity |}.
      split; [|exact Hout].
      cbn [request_pairs flat_map]. apply in_or_app. left.
      destruct Hin as [<- | [<- | []]]; [left | right; left]; reflexivity.
Qed.

(** Why a fetch fails: one of its requests failed, or its window starts at
    no date, or the watchlist could not be read, or it has no tag rules. *)
Lemma fetch_cves_failure (w : World) (queries : list string) (api_key : option string)
    (hours_back : Z) (st : State) (e : exn) (st1 : State) :
  _fetch_cves w queries api_key hours_back st = (Raise e, st1) ->
  (exists k params,
      In params (request_pairs queries) /\ request_outcome (nvd_api w k params) = Raise e)
  \/ e = OverflowError \/ e = AttributeError \/ exists msg, e = WatchlistError msg.
Proof.
  intros H. apply fetch_cves_inv in H as [[_ [H _]] | [_ H]].
  - right. left. congruence.
  - unfold fetch_in_window in H.
    apply bind_inv in H as [[watchlist [st0 [Hload H]]] | [e' [Hload He]]].
    + apply bind_inv in H as [[items [st2 [_ H]]] | [e' [Hfetch He]]]; [discriminate H|].
      injection He as <-.
      destruct (fetch_queries_failure _ _ _ _ _ _ _ _ Hfetch) as [Hreq | Hattr]; auto.
    + right. right. right. rewrite load_watchlist_run in Hload.
      destruct (watchlist_file w _) as [msg|loaded]; [|discriminate Hload].
      exists msg. congruence.
Qed.

(** C1: a request is attempted at most 3 times. A network failure or a
    transient status is retried after a sleep of 2 seconds at the first
    attempt and of 4 at the second; at the third attempt, and for any other
    error status at any attempt, the request fails at once: with a
    [RuntimeError] that wraps the network failure, or with the [HTTPError] of
    the response. A fetch that fails with a [RuntimeError] or an exception
    of [requests] fails with the failure of one of its requests. A fetch that
    fails is fatal for the run: [main] prints a [RuntimeError] and returns 1,
    any other exception leaves [main]; either way the process exits with
    status 1, nothing was posted and the store file was neither read nor
    written. *)
Theorem C1_fetch_failure_is_fatal (w : World) :
  (forall params headers st,
      let reply i := nvd_api w (count_events is_HttpGet (trace st) + i) params in
      let n := last_attempt reply in
      n <= 2 /\
      (forall i, i < n -> retryable (reply i) = true) /\
      (n < 2 -> retryable (reply n) = false) /\
      _request_with_retry w params headers st
      = (request_outcome (reply n),
         {| store := store st;
            trace := trace st ++ request_events (HttpGet params headers) n |})) /\
  (forall queries api_key hours_back st e st1,
      _fetch_cves w queries api_key hours_back st = (Raise e, st1) ->
      (exists k params,
          In params (request_pairs queries) /\
          request_outcome (nvd_api w k params) = Raise e)
      \/ e = OverflowError \/ e = AttributeError \/ exists msg, e = WatchlistError msg) /\
  (forall e st1,
      fetch_ends w (Raise e) st1 ->
      run w = (fst (after_fetch_failure e),
               {| store := posted_file w;
                  trace := trace st1 ++ snd (after_fetch_failure e) |}) /\
      exit_status (fst (run w)) = 1%Z /\
      count_events is_ReadStore (trace (snd (run w))) = 0 /\
      count_events is_SlackPost (trace (snd (run w))) = 0 /\
      count_events is_WriteStore (trace (snd (run w))) = 0).
Proof.
  split.
  - intros params headers st reply n.
    split; [|split; [|split]].
    + unfold n, last_attempt. destruct (retryable (reply 0)), (retryable (reply 1)); lia.
    + intros i Hi. unfold n, last_attempt in Hi.
      destruct (retryable (reply 0)) eqn:H0; [|lia].
      destruct (retryable (reply 1)) eqn:H1.
      * destruct i as [|[|i]]; [exact H0 | exact H1 | lia].
      * destruct i as [|i]; [exact H0 | lia].
    + intros Hn. unfold n, last_attempt in *.
      destruct (retryable (reply 0)) eqn:H0; [|exact H0].
      destruct (retryable (reply 1)) eqn:H1; [lia | exact H1].
    + apply request_with_retry_run.
  - split; [intros queries api_key hours_back st e st1; apply fetch_cves_failure|].
    intros e st1 Hends.
    destruct (fetch_ends_trace _ _ _ Hends) as [Hstore Hearly].
    assert (Hrun : run w = (fst (after_fetch_failure e),
                            {| store := posted_file w;
                               trace := trace st1 ++ snd (after_fetch_failure e) |})).
    { rewrite (fetch_ends_main _ _ _ Hends), <- Hstore.
      destruct e as [msg cause|e|msg|msg| |]; cbn [after_fetch_failure fst snd];
        try rewrite app_nil_r; try reflexivity; destruct st1; reflexivity. }
    split; [exact Hrun|]. rewrite Hrun. cbn [fst snd trace].
    assert (Hall : forallb early_event (trace st1 ++ snd (after_fetch_failure e)) = true).
    { rewrite forallb_app, Hearly. destruct e; reflexivity. }
    destruct (early_event_counts _ Hall) as [Hposts [Hwrites _]].
    split; [destruct e; reflexivity|].
    split; [exact (early_event_no_store_read _ Hall)|]. split; assumption.
Qed.

Lemma always_503_fetch_ends :
  fetch_ends Scenario.always_503
    (Raise (RequestException (HTTPError 503 "HTTP error")))
    (snd (ScenarioRuns.fetch Scenario.always_503)).
Proof.
  exists "https://hooks.example/T",
         {| queries := ["openssl"];
            tag_rules := Some [("crypto", Some ["openssl"; "tls"])] |},
         (ScenarioRuns.loaded Scenario.always_503), 24%Z.
  split; [reflexivity|]. split; [reflexivity|]. split; [reflexivity|].
  split; [discriminate|]. split; [reflexivity|]. vm_compute. reflexivity.
Qed.

Lemma C1_witness :
  _request_with_retry Scenario.always_503
    {| keywordSearch := "openssl"; cvssV3Severity := "HIGH" |} {| apiKey := None |}
    (ScenarioRuns.loaded Scenario.always_503)
  = (Raise (RequestException (HTTPError 503 "HTTP error")),
     {| store := FileJson (Some ["CVE-2023-9999"]);
        trace := [ReadWatchlist;
                  HttpGet {| keywordSearch := "openssl"; cvssV3Severity := "HIGH" |}
                          {| apiKey := None |};
                  Sleep 2;
                  HttpGet {| keywordSearch := "openssl"; cvssV3Severity := "HIGH" |}
                          {| apiKey := None |};
                  Sleep 4;
                  HttpGet {| keywordSearch := "openssl"; cvssV3Severity := "HIGH" |}
                          {| apiKey := None |}] |}) /\
  exit_status (fst (run Scenario.always_503)) = 1%Z /\
  count_events is_ReadStore (trace (snd (run Scenario.always_503))) = 0 /\
  count_events is_SlackPost (trace (snd (run Scenario.always_503))) = 0 /\
  count_events is_WriteStore (trace (snd (run Scenario.always_503))) = 0.
Proof.
  destruct (C1_fetch_failure_is_fatal Scenario.always_503) as [Hrequest [_ Hfatal]].
  split.
  - destruct (Hrequest {| keywordSearch := "openssl"; cvssV3Severity := "HIGH" |}
                {| apiKey := None |} (ScenarioRuns.loaded Scenario.always_503))
      as [_ [_ [_ Hrun]]].
    rewrite Hrun. reflexivity.
  - destruct (Hfatal _ _ always_503_fetch_ends) as [_ Hrest]. exact Hrest.
Defined.

(** The runs of three scenarios. The API answers 503 to all three attempts,
    or 404 to the first: the [HTTPError] leaves [main]. No connection can be
    made: [main] prints the [RuntimeError] and returns 1. *)
Example fetch_failure_runs :
  run Scenario.always_503
  = (Raise (RequestException (HTTPError 503 "HTTP error")),
     {| store := FileJson (Some ["CVE-2023-9999"]);
        trace := [ReadWatchlist; ReadWatchlist;
                  HttpGet {| keywordSearch := "openssl"; cvssV3Severity := "HIGH" |}
                          {| apiKey := None |};
                  Sleep 2;
                  HttpGet {| keywordSearch := "openssl"; cvssV3Severity := "HIGH" |}
                          {| apiKey := None |};
                  Sleep 4;
                  HttpGet {| keywordSearch := "openssl"; cvssV3Severity := "HIGH" |}
                          {| apiKey := None |}] |}) /\
  run Scenario.always_404
  = (Raise (RequestException (HTTPError 404 "HTTP error")),
     {| store := FileJson (Some ["CVE-2023-9999"]);
        trace := [ReadWatchlist; ReadWatchlist;
                  HttpGet {| keywordSearch := "openssl"; cvssV3Severity := "HIGH" |}
                          {| apiKey := None |}] |}) /\
  run Scenario.network_down
  = (Ok 1%Z,
     {| store := FileJson (Some ["CVE-2023-9999"]);
        trace := [ReadWatchlist; ReadWatchlist;
                  HttpGet {| keywordSearch := "openssl"; cvssV3Severity := "HIGH" |}
                          {| apiKey := None |};
                  Sleep 2;
                  HttpGet {| keywordSearch := "openssl"; cvssV3Severity := "HIGH" |}
                          {| apiKey := None |};
                  Sleep 4;
                  HttpGet {| keywordSearch := "openssl"; cvssV3Severity := "HIGH" |}
                          {| apiKey := None |};
                  PrintErr "NVD request failed: connection refused"] |}) /\
  map (fun w => exit_status (fst (run w)))
    [Scenario.always_503; Scenario.always_404; Scenario.network_down]
  = [1; 1; 1]%Z.
Proof. repeat split; vm_compute; reflexivity. Qed.

(** X6: a run that returns 1 has posted nothing and has left the store file
    as it was, without reading it: it has read the watchlist, made requests
    and slept, and the last thing it did was print an error. *)
Theorem return_code_1_has_no_side_effects (w : World) :
  fst (run w) = Ok 1%Z ->
  store (snd (run w)) = posted_file w /\
  count_events is_ReadStore (trace (snd (run w))) = 0 /\
  count_events is_SlackPost (trace (snd (run w))) = 0 /\
  count_events is_WriteStore (trace (snd (run w))) = 0 /\
  forallb early_event (trace (snd (run w))) = true /\
  exists before msg, trace (snd (run w)) = before ++ [PrintErr msg].
Proof.
  intros Hcode.
  assert (Hlast : exists before msg, trace (snd (run w)) = before ++ [PrintErr msg]).
  { unfold run in *.
    destruct (main_takes_a_path w (initial_state w))
      as [ Hurl
         | url r st0 e Hurl Htruthy Hload Hr
         | url watchlist st0 Hurl Htruthy Hload Hq
         | url watchlist st0 e Hurl Htruthy Hload Hq Hhours
         | url watchlist st0 hb msg cause st1 Hurl Htruthy Hload Hq Hhours Hfetch
         | url watchlist st0 hb e st1 Hurl Htruthy Hload Hq Hhours Hfetch Hother
         | url watchlist st0 hb items st1 Hurl Htruthy Hload Hq Hhours Hfetch ];
      try discriminate Hcode; try (eexists _, _; reflexivity).
    rewrite main_after_fetch_code in Hcode. discriminate Hcode. }
  unfold run, initial_state in *.
  destruct (main_before_filter w []) as [[url [items [tr1 Hreach]]] | [r [evs [_ [Hp Hmain]]]]].
  - rewrite (reaches_filter_main _ _ _ _ _ (Hreach (posted_file w))) in Hcode.
    rewrite main_after_fetch_code in Hcode. discriminate Hcode.
  - rewrite Hmain in *. cbn [fst snd store trace app] in *.
    destruct (early_event_counts evs Hp) as [Hposts [Hwrites _]].
    split; [reflexivity|]. split; [exact (early_event_no_store_read _ Hp)|].
    auto.
Qed.

Lemma return_code_1_has_no_side_effects_witness :
  store (snd (run Scenario.network_down)) = FileJson (Some ["CVE-2023-9999"]) /\
  count_events is_ReadStore (trace (snd (run Scenario.network_down))) = 0 /\
  count_events is_SlackPost (trace (snd (run Scenario.network_down))) = 0 /\
  count_events is_WriteStore (trace (snd (run Scenario.network_down))) = 0 /\
  forallb early_event (trace (snd (run Scenario.network_down))) = true /\
  exists before msg, trace (snd (run Scenario.network_down)) = before ++ [PrintErr msg].
Proof.
  apply (return_code_1_has_no_side_effects Scenario.network_down).
  vm_compute. reflexivity.
Defined.

(** X7: a run depends on the store file only through the set of ids read
    from it: with two files holding the same ids (an absent, an unparsable
    and an empty one; one with repeated or reordered ids) the run returns
    the same code, does the same things and leaves files with the same ids. *)
Theorem run_depends_on_store_ids (w : World) (s1 s2 : StoreFile) :
  store_ids s1 = store_ids s2 ->
  fst (main w {| store := s1; trace := [] |}) = fst (main w {| store := s2; trace := [] |}) /\
  trace (snd (main w {| store := s1; trace := [] |}))
  = trace (snd (main w {| store := s2; trace := [] |})) /\
  store_ids (store (snd (main w {| store := s1; trace := [] |})))
  = store_ids (store (snd (main w {| store := s2; trace := [] |}))).
Proof.
  intros Hids.
  destruct (main_before_filter w []) as [[url [items [tr1 Hreach]]] | [r [evs [_ [_ Hmain]]]]].
  - rewrite (reaches_filter_main _ _ _ _ _ (Hreach s1)).
    rewrite (reaches_filter_main _ _ _ _ _ (Hreach s2)).
    pose proof (main_after_fetch_run w url items {| store := s1; trace := tr1 |}) as H1.
    pose proof (main_after_fetch_run w url items {| store := s2; trace := tr1 |}) as H2.
    cbv zeta in H1, H2. cbn [store trace] in H1, H2. rewrite H1, H2, Hids.
    destruct (unposted items (store_ids s2)); simpl; auto.
  - rewrite !Hmain. simpl. auto.
Qed.

Lemma run_depends_on_store_ids_witness :
  fst (main Scenario.three_new {| store := FileUnparsable; trace := [] |})
  = fst (main Scenario.three_new
           {| store := FileJson (Some []); trace := [] |}) /\
  trace (snd (main Scenario.three_new {| store := FileUnparsable; trace := [] |}))
  = trace (snd (main Scenario.three_new
                  {| store := FileJson (Some []); trace := [] |})) /\
  store_ids (store (snd (main Scenario.three_new {| store := FileUnparsable; trace := [] |})))
  = store_ids (store (snd (main Scenario.three_new
                             {| store := FileJson (Some []); trace := [] |}))).
Proof.
  apply (run_depends_on_store_ids Scenario.three_new FileUnparsable (FileJson (Some []))).
  reflexivity.
Defined.

(** ** Loading and saving the store *)

(** X8: loading the store file that [_save_posted] has written gives back
    exactly the set of ids that was saved. *)
Theorem load_after_save_round_trip (cve_ids : gset string) (st st1 : State) :
  _save_posted cve_ids st = (Ok tt, st1) ->
  _load_posted st1
  = (Ok cve_ids, {| store := store st1; trace := trace st1 ++ [ReadStore] |}).
Proof.
  intros H. rewrite load_posted_run.
  unfold _save_posted, bind, emit, write_store in H. injection H as <-.
  cbn [store store_ids]. rewrite sorted_ids_to_set. reflexivity.
Qed.

Lemma load_after_save_round_trip_witness :
  fst (_load_posted
         (snd (_save_posted {[ "CVE-2024-0002"; "CVE-2024-0001" ]}
                 {| store := FileUnparsable; trace := [] |})))
  = Ok {[ "CVE-2024-0002"; "CVE-2024-0001" ]}.
Proof.
  rewrite (load_after_save_round_trip {[ "CVE-2024-0002"; "CVE-2024-0001" ]}
             {| store := FileUnparsable; trace := [] |}
             (snd (_save_posted {[ "CVE-2024-0002"; "CVE-2024-0001" ]}
                     {| store := FileUnparsable; trace := [] |}))
             eq_refl).
  reflexivity.
Defined.

(** ** What is posted *)

Lemma StronglySorted_sublist {A} (R : A -> A -> Prop) (l k : list A) :
  sublist l k -> StronglySorted R k -> StronglySorted R l.
Proof.
  induction 1 as [|x l k Hsub IH|x l k Hsub IH]; intros Hs.
  - constructor.
  - apply StronglySorted_inv in Hs as [Hs Hx]. constructor; [exact (IH Hs)|].
    rewrite Forall_forall in *. intros y Hy. apply Hx.
    exact (sublist_subseteq _ _ Hsub y Hy).
  - apply StronglySorted_inv in Hs as [Hs _]. exact (IH Hs).
Qed.

Lemma sublist_map {A B} (f : A -> B) (l k : list A) :
  sublist l k -> sublist (map f l) (map f k).
Proof. induction 1; simpl; constructor; assumption. Qed.

Lemma unposted_sublist (items : list CveItem) (posted_ids : gset string) :
  sublist (unposted items posted_ids) items.
Proof.
  unfold unposted. induction items as [|x items IH]; simpl; [constructor|].
  destruct (negb (bool_decide (cve_id x ∈ posted_ids)));
    [apply sublist_skip | apply sublist_cons]; exact IH.
Qed.

Lemma firstn_unposted_sublist (n : nat) (items : list CveItem) (posted_ids : gset string) :
  sublist (firstn n (unposted items posted_ids)) items.
Proof.
  etransitivity; [apply sublist_take | apply unposted_sublist].
Qed.

(** The posts of [main] from FILTER_NEW on are a prefix of the new items. *)
Lemma main_after_fetch_posts (w : World) (webhook_url : string) (items : list CveItem)
    (st : State) :
  exists n,
    posted_items (trace (snd (main_after_fetch w webhook_url items st)))
    = posted_items (trace st) ++ firstn n (unposted items (store_ids (store st))).
Proof.
  pose proof (main_after_fetch_run w webhook_url items st) as Hrun. cbv zeta in Hrun.
  rewrite Hrun.
  destruct (unposted items (store_ids (store st))) as [|first rest] eqn:Hto_post.
  - exists 0. cbn [snd trace]. rewrite posted_items_app. reflexivity.
  - exists (S (length (delivered w (count_events is_SlackPost (trace st)) (first :: rest)))).
    cbn [snd trace]. rewrite posted_items_app. f_equal.
    change (ReadStore :: ?l) with ([ReadStore] ++ l).
    rewrite !posted_items_app.
    change (posted_items [ReadStore]) with (@nil CveItem).
    change (posted_items [WriteStore ?ids; Print ?msg]) with (@nil CveItem).
    rewrite app_nil_r. cbn [app]. apply notify_events_posts.
Qed.

Lemma reaches_filter_items (w : World) (st : State) (webhook_url : string)
    (items : list CveItem) (st1 : State) :
  reaches_filter w st webhook_url items st1 ->
  NoDup (map cve_id items) /\ StronglySorted published_desc items.
Proof.
  intros [_ [_ [watchlist [st0 [hb [_ [_ [_ Hfetch]]]]]]]].
  split; [exact (fetch_cves_NoDup _ _ _ _ _ _ _ Hfetch)|].
  apply fetch_cves_ok in Hfetch as [rules [bodies [_ [_ ->]]]].
  apply sorted_by_published_desc_sorted.
Qed.

(** X9: within a run no advisory is posted twice, no advisory whose id the
    store file held before the run is posted, and the posts are made in
    descending order of [published]. *)
Theorem posts_are_new_distinct_and_ordered (w : World) :
  NoDup (map cve_id (posted_items (trace (snd (run w))))) /\
  (forall item, In item (posted_items (trace (snd (run w)))) ->
                cve_id item ∉ store_ids (posted_file w)) /\
  StronglySorted (fun a b => String.leb (published b) (published a) = true)
    (posted_items (trace (snd (run w)))).
Proof.
  unfold run, initial_state.
  destruct (main_before_filter w []) as [[url [items [tr1 Hreach]]] | [r [evs [_ [Hp Hmain]]]]].
  - specialize (Hreach (posted_file w)).
    rewrite (reaches_filter_main _ _ _ _ _ Hreach).
    destruct (reaches_filter_items _ _ _ _ _ Hreach) as [Hnodup Hsorted].
    destruct (reaches_filter_trace _ _ _ _ _ Hreach) as [_ [evs [Ht Hp]]].
    cbn [trace app] in Ht.
    destruct (main_after_fetch_posts w url items {| store := posted_file w; trace := tr1 |})
      as [n Hposts].
    cbn [trace store] in Hposts. rewrite Hposts, Ht.
    change (posted_items (ReadWatchlist :: ReadWatchlist :: evs)) with (posted_items evs).
    rewrite (posted_items_none _ _ Hp retry_event_not_post). cbn [app].
    split; [|split].
    + eapply sublist_NoDup; [exact Hnodup|].
      apply sublist_map. apply firstn_unposted_sublist.
    + intros item Hin. apply firstn_In, unposted_In in Hin as [_ Hnew]. exact Hnew.
    + exact (StronglySorted_sublist _ _ _ (firstn_unposted_sublist n items _) Hsorted).
  - rewrite Hmain. cbn [snd trace app].
    destruct (early_event_counts evs Hp) as [_ [_ ->]].
    split; [constructor|]. split; [intros item []|constructor].
Qed.

Lemma delivered_sublist (w : World) (k : nat) (to_post : list CveItem) :
  sublist (delivered w k to_post) to_post.
Proof. rewrite delivered_prefix. apply sublist_take. Qed.

(** X10: when there is something new, the run ends by writing the store
    file and printing "Posted N CVEs." where N is the number of items whose
    post succeeded; the store file then holds the ids it held before and
    those N ids, and nothing else. *)
Theorem posted_count_is_delivered (w : World) (webhook_url : string)
    (items : list CveItem) (st1 : State) :
  reaches_filter w (initial_state w) webhook_url items st1 ->
  unposted items (store_ids (posted_file w)) <> [] ->
  let ok := delivered w 0 (unposted items (store_ids (posted_file w))) in
  let after := store_ids (posted_file w) ∪ list_to_set (map cve_id ok) in
  (exists before,
      trace (snd (run w))
      = before ++ [WriteStore (sorted_ids after);
                   Print ("Posted " +:+ str_int (Z.of_nat (length ok)) +:+ " CVEs.")]) /\
  store_ids (store (snd (run w))) = after /\
  size after = size (store_ids (posted_file w)) + length ok.
Proof.
  intros Hreach Hsome ok after.
  destruct (reaches_filter_items _ _ _ _ _ Hreach) as [Hnodup _].
  destruct (reaches_filter_trace _ _ _ _ _ Hreach) as [Hs1 [evs [Ht1 Hp1]]].
  cbn [initial_state store trace app] in Hs1, Ht1.
  assert (Hposts0 : count_events is_SlackPost (trace st1) = 0).
  { rewrite Ht1.
    change (count_events is_SlackPost (ReadWatchlist :: ReadWatchlist :: evs))
      with (count_events is_SlackPost evs).
    exact (count_events_none _ _ _ Hp1 retry_event_not_post). }
  assert (Hsize : size after = size (store_ids (posted_file w)) + length ok).
  { unfold after. rewrite size_union.
    - rewrite size_list_to_set, length_map; [reflexivity|].
      eapply sublist_NoDup; [exact Hnodup|]. apply sublist_map.
      etransitivity; [apply delivered_sublist | apply unposted_sublist].
    - intros id Hold Hnew. apply elem_of_list_to_set, list_elem_of_In in Hnew.
      apply in_map_iff in Hnew as [item [<- Hitem]].
      apply list_elem_of_In in Hitem.
      apply (sublist_subseteq _ _ (delivered_sublist w 0 _)) in Hitem.
      apply list_elem_of_In, unposted_In in Hitem as [_ Hnot]. exact (Hnot Hold). }
  unfold run. rewrite (reaches_filter_main _ _ _ _ _ Hreach).
  pose proof (main_after_fetch_run w webhook_url items st1) as Hrun. cbv zeta in Hrun.
  rewrite Hs1, Hposts0 in Hrun. fold ok in Hrun. fold after in Hrun. rewrite Hrun.
  destruct (unposted items (store_ids (posted_file w))) as [|first rest] eqn:Hto_post;
    [contradiction|].
  cbn [snd store trace store_ids]. split; [|split; [apply sorted_ids_to_set | exact Hsize]].
  exists (trace st1 ++ ReadStore :: notify_events w webhook_url 0 (first :: rest)).
  assert (Hmsg : posted_message (store_ids (posted_file w)) after
                 = "Posted " +:+ str_int (Z.of_nat (length ok)) +:+ " CVEs.").
  { unfold posted_message. rewrite Hsize.
    replace (Z.of_nat (size (store_ids (posted_file w)) + length ok)
             - Z.of_nat (size (store_ids (posted_file w))))%Z
      with (Z.of_nat (length ok)) by lia.
    reflexivity. }
  rewrite Hmsg, <- app_assoc. reflexivity.
Qed.

Lemma posted_count_is_delivered_witness :
  (exists before,
      trace (snd (run Scenario.second_post_fails))
      = before ++ [WriteStore (sorted_ids ({[ "CVE-2023-9999" ]} ∪ {[ "CVE-2024-0003" ]}));
                   Print "Posted 1 CVEs."]) /\
  size (store_ids (store (snd (run Scenario.second_post_fails)))) = 2.
Proof.
  destruct (posted_count_is_delivered Scenario.second_post_fails "https://hooks.example/T"
              (Scenario.returned [] (ScenarioRuns.fetch Scenario.second_post_fails))
              (snd (ScenarioRuns.fetch Scenario.second_post_fails))
              second_post_fails_reaches_filter) as [[before Hlast] [Hstore Hsize]].
  - vm_compute. discriminate.
  - split.
    + exists before. rewrite Hlast. vm_compute. reflexivity.
    + rewrite Hstore, Hsize. vm_compute. reflexivity.
Defined.

(** ** Configuration errors *)

(** X11: what a run does when its configuration is missing or broken.
    Without a webhook URL it prints an error and returns 1 without reading
    any file. With one, a watchlist that cannot be read or parsed lets the
    error out of [main]; a watchlist without queries makes it print an error
    and return 1; an HOURS_BACK that is no integer lets a [ValueError] out.
    In all four cases nothing is requested and nothing is posted. *)
Theorem configuration_errors (w : World) :
  (PyStr.or_else (env_SLACK_WEBHOOK_URL w) "" = "" ->
   run w = (Ok 1%Z,
            {| store := posted_file w;
               trace := [PrintErr "SLACK_WEBHOOK_URL is required."] |})) /\
  (PyStr.or_else (env_SLACK_WEBHOOK_URL w) "" <> "" ->
   (forall msg,
       watchlist_file w 0 = LoadFailure msg ->
       run w = (Raise (WatchlistError msg),
                {| store := posted_file w; trace := [ReadWatchlist] |})) /\
   (loaded_queries w 0 = Some [] ->
    run w = (Ok 1%Z,
             {| store := posted_file w;
                trace := [ReadWatchlist; PrintErr "watchlist.yml has no queries."] |})) /\
   (forall qs msg,
       loaded_queries w 0 = Some qs -> qs <> [] ->
       env_HOURS_BACK w = HoursInvalid msg ->
       run w = (Raise (ValueError msg),
                {| store := posted_file w; trace := [ReadWatchlist] |}))).
Proof.
  assert (Hload : forall loaded,
             watchlist_file w 0 = Loaded loaded ->
             _load_watchlist w {| store := posted_file w; trace := [] |}
             = (Ok {| queries := default [] (y_queries (default empty_yaml loaded));
                      tag_rules := default (Some []) (y_tag_rules (default empty_yaml loaded)) |},
                {| store := posted_file w; trace := [ReadWatchlist] |})).
  { intros loaded Hfile. rewrite load_watchlist_run. cbn [trace store app].
    change (count_events is_ReadWatchlist []) with 0. rewrite Hfile. reflexivity. }
  unfold run, initial_state, main. split.
  - destruct (env_SLACK_WEBHOOK_URL w) as [url|]; simpl; [|reflexivity].
    destruct (PyStr.truthy url) eqn:Htruthy; [|reflexivity].
    intros ->. discriminate Htruthy.
  - destruct (env_SLACK_WEBHOOK_URL w) as [url|]; simpl; [|congruence].
    destruct (PyStr.truthy url) eqn:Htruthy; [|congruence].
    intros _. cbn [negb]. unfold loaded_queries.
    split; [|split].
    + intros msg Hfile. unfold bind at 1. rewrite load_watchlist_run.
      cbn [trace store app]. change (count_events is_ReadWatchlist []) with 0.
      rewrite Hfile. reflexivity.
    + destruct (watchlist_file w 0) as [msg|loaded] eqn:Hfile; [discriminate|].
      intros Hq. injection Hq as Hq. unfold bind at 1. rewrite (Hload loaded eq_refl).
      cbn [queries]. rewrite Hq. reflexivity.
    + intros qs msg Hq Hne Hhours.
      destruct (watchlist_file w 0) as [msg'|loaded] eqn:Hfile; [discriminate|].
      injection Hq as Hq. unfold bind at 1. rewrite (Hload loaded eq_refl).
      cbn [queries]. rewrite Hq.
      destruct qs as [|query rest]; [contradiction|].
      unfold bind at 1. unfold read_hours_back. rewrite Hhours. reflexivity.
Qed.

(** ** The requests of a fetch *)

Lemma retry_loop_healthy (w : World) (params : Params) (headers : Headers)
    (attempt : Z) (rest : list Z) (st : State) :
  api_healthy w ->
  exists body,
    retry_loop w params headers (attempt :: rest) st
    = (Ok body, after_get params headers st).
Proof.
  intros Hhealthy. rewrite retry_loop_step.
  destruct (Hhealthy (count_events is_HttpGet (trace st)) params)
    as [response [body [-> [Hok Hbody]]]].
  unfold is_success in Hok. apply negb_true_iff in Hok. rewrite Hok.
  destruct (is_transient (status_code response)) eqn:Htransient.
  - rewrite (is_transient_is_error _ Htransient) in Hok. discriminate Hok.
  - rewrite Hbody. exists body. reflexivity.
Qed.

Lemma fetch_severities_healthy (w : World) (headers : Headers) (rules : TagRules)
    (query : string) (severities : list string) (items : list (string * CveItem))
    (st : State) :
  api_healthy w ->
  exists items',
    fetch_severities w headers (Some rules) query severities items st
    = (Ok items',
       {| store := store st;
          trace := trace st
                   ++ map (fun severity =>
                             HttpGet {| keywordSearch := query; cvssV3Severity := severity |}
                                     headers)
                          severities |}).
Proof.
  intros Hhealthy. revert items st.
  induction severities as [|severity rest IH]; intros items st; cbn [fetch_severities map].
  - exists items. unfold ret. rewrite app_nil_r. destruct st. reflexivity.
  - unfold bind at 1. unfold _request_with_retry.
    change (range 1 (MAX_RETRIES + 1)) with [1; 2; 3]%Z.
    destruct (retry_loop_healthy w {| keywordSearch := query; cvssV3Severity := severity |}
                headers 1 [2; 3]%Z st Hhealthy) as [body ->].
    unfold bind at 1. rewrite merge_entries_run.
    match goal with
    | |- context [fetch_severities w headers (Some rules) query rest ?items1 ?st1] =>
        destruct (IH items1 st1) as [items' ->]
    end.
    exists items'. unfold after_get. cbn [store trace]. rewrite <- app_assoc. reflexivity.
Qed.

Lemma fetch_queries_healthy (w : World) (headers : Headers) (rules : TagRules)
    (queries : list string) (items : list (string * CveItem)) (st : State) :
  api_healthy w ->
  exists items',
    fetch_queries w headers (Some rules) queries items st
    = (Ok items',
       {| store := store st;
          trace := trace st
                   ++ map (fun params => HttpGet params headers) (request_pairs queries) |}).
Proof.
  intros Hhealthy. revert items st.
  induction queries as [|query rest IH]; intros items st; cbn [fetch_queries].
  - exists items. unfold ret. simpl. rewrite app_nil_r. destruct st. reflexivity.
  - unfold bind at 1.
    destruct (fetch_severities_healthy w headers rules query ["HIGH"; "CRITICAL"] items st
                Hhealthy) as [items1 ->].
    destruct (IH items1
                {| store := store st;
                   trace := trace st
                            ++ map (fun severity =>
                                      HttpGet {| keywordSearch := query;
                                                 cvssV3Severity := severity |} headers)
                                   ["HIGH"; "CRITICAL"] |}) as [items' ->].
    exists items'. cbn [store trace request_pairs flat_map map app].
    rewrite <- app_assoc. reflexivity.
Qed.

(** A window that starts at the beginning of the year 1 or later, and does
    not start after the fetch, is in range. *)
Lemma window_in_range_back (w : World) (hours_back : Z) :
  (0 <= hours_back)%Z ->
  (hours_back * 3600000000 <= datetime_now w)%Z ->
  (datetime_now w <= DATETIME_MAX)%Z ->
  window_in_range w hours_back = true.
Proof.
  unfold window_in_range, DATETIME_MAX, MAX_DELTA_DAYS. intros Hpos Hstart Hnow.
  assert (Hdays : (0 <= hours_back / 24 <= 999999999)%Z).
  { split; [apply Z.div_pos; lia|]. apply Z.div_le_upper_bound; lia. }
  rewrite Z.abs_eq by lia.
  apply andb_true_iff. split; [apply Z.leb_le; lia|].
  apply andb_true_iff. split; apply Z.leb_le; lia.
Qed.

(** X12: when the window of the fetch starts at a date (the fetch is asked
    to go back a number of hours that is not negative and does not lead before
    the year 1), the watchlist can be read and gives tag rules, and the API
    answers every request with a success that carries JSON, then the fetch
    returns; it reads the watchlist once and then makes exactly one request
    per query and severity band, HIGH before CRITICAL, query after query,
    never sleeping. *)
Theorem fetch_succeeds_when_api_healthy (w : World) (queries : list string)
    (api_key : option string) (hours_back : Z) (st : State) (rules : TagRules) :
  (0 <= hours_back)%Z ->
  (hours_back * 3600000000 <= datetime_now w)%Z ->
  (datetime_now w <= DATETIME_MAX)%Z ->
  loaded_tag_rules w (count_events is_ReadWatchlist (trace st)) = Some rules ->
  api_healthy w ->
  exists items,
    _fetch_cves w queries api_key hours_back st
    = (Ok items,
       {| store := store st;
          trace := trace st
                   ++ ReadWatchlist
                      :: map (fun params => HttpGet params (headers_of_key api_key))
                           (request_pairs queries) |}).
Proof.
  intros Hpos Hstart Hnow Hrules Hhealthy.
  rewrite fetch_cves_window, (window_in_range_back w hours_back Hpos Hstart Hnow).
  unfold fetch_in_window.
  unfold bind at 1. rewrite load_watchlist_run.
  unfold loaded_tag_rules in Hrules.
  destruct (watchlist_file w (count_events is_ReadWatchlist (trace st))) as [msg|loaded];
    [discriminate Hrules|].
  cbn [tag_rules]. rewrite Hrules.
  unfold bind at 1.
  match goal with
  | |- context [fetch_queries w ?h (Some rules) queries [] ?s] =>
      destruct (fetch_queries_healthy w h rules queries [] s Hhealthy) as [items ->]
  end.
  eexists. unfold ret. cbn [store trace]. rewrite <- app_assoc. reflexivity.
Qed.

Lemma three_new_healthy : api_healthy Scenario.three_new.
Proof.
  intros k params. eexists _, _. split; [reflexivity|]. split; reflexivity.
Qed.

Lemma fetch_succeeds_when_api_healthy_witness :
  exists items,
    _fetch_cves Scenario.three_new ["openssl"; "nginx"] None 24
      (initial_state Scenario.three_new)
    = (Ok items,
       {| store := FileAbsent;
          trace := [ReadWatchlist;
                    HttpGet {| keywordSearch := "openssl"; cvssV3Severity := "HIGH" |}
                            {| apiKey := None |};
                    HttpGet {| keywordSearch := "openssl"; cvssV3Severity := "CRITICAL" |}
                            {| apiKey := None |};
                    HttpGet {| keywordSearch := "nginx"; cvssV3Severity := "HIGH" |}
                            {| apiKey := None |};
                    HttpGet {| keywordSearch := "nginx"; cvssV3Severity := "CRITICAL" |}
                            {| apiKey := None |}] |}).
Proof.
  apply (fetch_succeeds_when_api_healthy Scenario.three_new ["openssl"; "nginx"] None 24
           (initial_state Scenario.three_new) [("crypto", Some ["openssl"; "tls"])]).
  - lia.
  - vm_compute. discriminate.
  - vm_compute. discriminate.
  - reflexivity.
  - exact three_new_healthy.
Defined.

Lemma headers_eqb_eq (h1 h2 : Headers) : headers_eqb h1 h2 = true <-> h1 = h2.
Proof.
  destruct h1 as [[a|]], h2 as [[b|]]; unfold headers_eqb; simpl.
  - rewrite String.eqb_eq. split; congruence.
  - split; discriminate.
  - split; discriminate.
  - split; reflexivity.
Qed.

Lemma retry_loop_class (p : event -> bool) (w : World) (params : Params)
    (headers : Headers) (attempts : list Z) :
  p (HttpGet params headers) = true ->
  (forall seconds, p (Sleep seconds) = true) ->
  only_emits p (retry_loop w params headers attempts).
Proof.
  intros Hget Hsleep.
  assert (Hrequest : only_emits p (requests_get w params headers)).
  { unfold requests_get. apply only_emits_bind; [apply only_emits_get_trace | intros tr].
    apply only_emits_bind; [apply only_emits_emit; exact Hget | intros _; frame]. }
  assert (Hsleeps : forall seconds, only_emits p (sleep seconds)).
  { intros seconds. apply only_emits_emit. apply Hsleep. }
  induction attempts as [|attempt rest IH]; simpl; frame.
Qed.

Lemma fetch_severities_band (w : World) (headers : Headers) (rules : option TagRules)
    (query : string) (severities : list string) (items : list (string * CveItem)) :
  Forall (fun severity => severity = "HIGH" \/ severity = "CRITICAL") severities ->
  only_emits (band_event headers)
    (fetch_severities w headers rules query severities items).
Proof.
  intros Hbands. revert items.
  induction severities as [|severity rest IH]; intros items; simpl.
  - frame.
  - apply Forall_cons in Hbands as [Hband Hbands].
    apply only_emits_bind;
      [|intros data; apply only_emits_bind;
                       [apply merge_entries_frame | intros items'; apply IH; exact Hbands]].
    apply retry_loop_class; [|reflexivity].
    simpl. rewrite (proj2 (headers_eqb_eq headers headers) eq_refl).
    destruct Hband as [-> | ->]; reflexivity.
Qed.

Lemma fetch_queries_band (w : World) (headers : Headers) (rules : option TagRules)
    (queries : list string) (items : list (string * CveItem)) :
  only_emits (band_event headers) (fetch_queries w headers rules queries items).
Proof.
  revert items. induction queries as [|query rest IH]; intros items; cbn [fetch_queries].
  - frame.
  - apply only_emits_bind; [|intros items'; apply IH].
    apply fetch_severities_band.
    constructor; [left; reflexivity|]. constructor; [right; reflexivity|]. constructor.
Qed.

Lemma fetch_cves_band (w : World) (queries : list string) (api_key : option string)
    (hours_back : Z) (st : State) (r : outcome (list CveItem)) (st1 : State) :
  _fetch_cves w queries api_key hours_back st = (r, st1) ->
  (r = Raise OverflowError /\ st1 = st)
  \/ exists evs,
       trace st1 = trace st ++ ReadWatchlist :: evs /\
       forallb (band_event (headers_of_key api_key)) evs = true.
Proof.
  intros H. apply fetch_cves_inv in H as [[_ [H1 H2]] | [_ H]]; [left; auto | right].
  unfold fetch_in_window in H.
  apply bind_inv in H as [[watchlist [st0 [Hload H]]] | [e [Hload _]]].
  - rewrite load_watchlist_run in Hload.
    assert (Hst0 : st0 = {| store := store st; trace := trace st ++ [ReadWatchlist] |})
      by (injection Hload; congruence).
    assert (Hframe : only_emits (band_event (headers_of_key api_key))
                       (items <- fetch_queries w (headers_of_key api_key)
                                   (tag_rules watchlist) queries [] ;;
                        ret (sorted_by_published_desc (dict_values items)))).
    { apply only_emits_bind; [apply fetch_queries_band | intros; apply only_emits_ret]. }
    destruct (only_emits_run _ _ _ _ _ Hframe H) as [_ [evs [Ht Hp]]].
    subst st0. simpl in Ht. exists evs. rewrite Ht, <- app_assoc. auto.
  - rewrite load_watchlist_run in Hload. injection Hload as _ <-. simpl.
    exists []. auto.
Qed.

(** Every request of a run is made by the fetch that [main] starts. *)
Lemma run_requests (w : World) (p : event -> bool) :
  (forall queries hours_back st r st1,
      _fetch_cves w queries (env_NVD_API_KEY w) hours_back st = (r, st1) ->
      (r = Raise OverflowError /\ st1 = st)
      \/ exists evs, trace st1 = trace st ++ ReadWatchlist :: evs /\ forallb p evs = true) ->
  forall params headers,
    In (HttpGet params headers) (trace (snd (run w))) ->
    p (HttpGet params headers) = true.
Proof.
  intros Hclass params headers. unfold run.
  destruct (main_takes_a_path w (initial_state w))
    as [ Hurl
       | url r st0 e Hurl Htruthy Hload Hr
       | url watchlist st0 Hurl Htruthy Hload Hq
       | url watchlist st0 e Hurl Htruthy Hload Hq Hhours
       | url watchlist st0 hb msg cause st1 Hurl Htruthy Hload Hq Hhours Hfetch
       | url watchlist st0 hb e st1 Hurl Htruthy Hload Hq Hhours Hfetch Hother
       | url watchlist st0 hb items st1 Hurl Htruthy Hload Hq Hhours Hfetch ];
    try (rewrite load_watchlist_run in Hload; injection Hload as _ <-);
    cbn [snd trace initial_state app].
  - intros [H | []]. discriminate H.
  - intros [H | []]. discriminate H.
  - intros [H | [H | []]]; discriminate H.
  - intros [H | []]. discriminate H.
  - destruct (Hclass _ _ _ _ _ Hfetch) as [[Hover _] | [evs [-> Hp]]]; [discriminate Hover|].
    cbn [trace app].
    intros [H | [H | Hin]]; try discriminate H.
    apply in_app_or in Hin as [Hin | [H | []]]; [|discriminate H].
    exact (In_forallb _ _ _ Hp Hin).
  - destruct (Hclass _ _ _ _ _ Hfetch) as [[_ ->] | [evs [-> Hp]]]; cbn [trace app].
    { intros [H | []]. discriminate H. }
    intros [H | [H | Hin]]; try discriminate H.
    exact (In_forallb _ _ _ Hp Hin).
  - destruct (Hclass _ _ _ _ _ Hfetch) as [[Hover _] | [evs [Ht Hp]]]; [discriminate Hover|].
    cbn [trace app] in Ht.
    destruct (main_after_fetch_trace w url items st1) as [tail [-> [Htail _]]].
    rewrite Ht. intros Hin. apply in_app_or in Hin as [[H | [H | Hin]] | Hin];
      try discriminate H.
    + exact (In_forallb _ _ _ Hp Hin).
    + pose proof (In_forallb _ _ _ Htail Hin) as Hev. discriminate Hev.
Qed.

(** X13: every request of a run asks for the severity band HIGH or
    CRITICAL, and carries the [apiKey] header exactly when NVD_API_KEY is set
    and not empty, with that key. *)
Theorem requests_carry_key_and_band (w : World) (params : Params) (headers : Headers) :
  In (HttpGet params headers) (trace (snd (run w))) ->
  (cvssV3Severity params = "HIGH" \/ cvssV3Severity params = "CRITICAL") /\
  apiKey headers
  = match env_NVD_API_KEY w with
    | Some key => if PyStr.truthy key then Some key else None
    | None => None
    end.
Proof.
  intros Hin.
  pose proof (run_requests w (band_event (headers_of_key (env_NVD_API_KEY w)))
                (fun queries hb st r st1 => fetch_cves_band w queries _ hb st r st1)
                params headers Hin) as Hband.
  simpl in Hband. apply andb_true_iff in Hband as [Hheaders Hseverity].
  apply headers_eqb_eq in Hheaders. subst headers. split; [|reflexivity].
  apply orb_true_iff in Hseverity as [H | H]; apply String.eqb_eq in H; auto.
Qed.

Lemma requests_carry_key_and_band_witness :
  (cvssV3Severity {| keywordSearch := "openssl"; cvssV3Severity := "CRITICAL" |} = "HIGH"
   \/ cvssV3Severity {| keywordSearch := "openssl"; cvssV3Severity := "CRITICAL" |}
      = "CRITICAL") /\
  apiKey {| apiKey := Some "key" |}
  = match env_NVD_API_KEY Scenario.mixed with
    | Some key => if PyStr.truthy key then Some key else None
    | None => None
    end.
Proof.
  apply (requests_carry_key_and_band Scenario.mixed
           {| keywordSearch := "openssl"; cvssV3Severity := "CRITICAL" |}
           {| apiKey := Some "key" |}).
  vm_compute. right. right. right. left. reflexivity.
Defined.

(** ** More on strings *)

Lemma app_assoc_string (a b c : string) : (a +:+ b) +:+ c = a +:+ (b +:+ c).
Proof.
  induction a as [|x a IH]; [reflexivity|].
  change (String x ((a +:+ b) +:+ c) = String x (a +:+ (b +:+ c))).
  f_equal. exact IH.
Qed.

Lemma app_nil_r_string (a : string) : a +:+ "" = a.
Proof.
  induction a as [|x a IH]; [reflexivity|].
  change (String x (a +:+ "") = String x a).
  f_equal. exact IH.
Qed.

Lemma lower_app (a b : string) : PyStr.lower (a +:+ b) = PyStr.lower a +:+ PyStr.lower b.
Proof.
  induction a as [|x a IH]; [reflexivity|].
  change (String (PyStr.lower_ascii x) (PyStr.lower (a +:+ b))
          = String (PyStr.lower_ascii x) (PyStr.lower a +:+ PyStr.lower b)).
  f_equal. exact IH.
Qed.

Lemma lower_ascii_idem (c : ascii) :
  PyStr.lower_ascii (PyStr.lower_ascii c) = PyStr.lower_ascii c.
Proof.
  unfold PyStr.lower_ascii.
  destruct ((65 <=? nat_of_ascii c)%nat && (nat_of_ascii c <=? 90)%nat) eqn:Hupper.
  - apply andb_true_iff in Hupper as [Hlo Hhi].
    apply Nat.leb_le in Hlo. apply Nat.leb_le in Hhi.
    rewrite nat_ascii_embedding by lia.
    replace ((nat_of_ascii c + 32 <=? 90)%nat) with false
      by (symmetry; apply Nat.leb_gt; lia).
    rewrite andb_false_r. reflexivity.
  - rewrite Hupper. reflexivity.
Qed.

Lemma lower_idem (s : string) : PyStr.lower (PyStr.lower s) = PyStr.lower s.
Proof.
  induction s as [|c s IH]; simpl; [reflexivity|]. rewrite lower_ascii_idem, IH. reflexivity.
Qed.

Lemma lower_concat (sep : string) (l : list string) :
  PyStr.lower (String.concat sep l) = String.concat (PyStr.lower sep) (map PyStr.lower l).
Proof.
  induction l as [|x l IH]; [reflexivity|].
  destruct l as [|y l]; [reflexivity|].
  cbn [String.concat map] in *. rewrite !lower_app, IH. reflexivity.
Qed.

Lemma is_substring_app_l (needle a b : string) :
  is_substring needle a -> is_substring needle (a +:+ b).
Proof.
  intros [pre [post ->]]. exists pre, (post +:+ b).
  rewrite !app_assoc_string. reflexivity.
Qed.

Lemma is_substring_app_r (needle a b : string) :
  is_substring needle b -> is_substring needle (a +:+ b).
Proof.
  intros [pre [post ->]]. exists (a +:+ pre), post.
  rewrite !app_assoc_string. reflexivity.
Qed.

Lemma is_substring_concat (needle sep field : string) (l : list string) :
  In field l -> is_substring needle field -> is_substring needle (String.concat sep l).
Proof.
  intros Hin Hsub. induction l as [|x l IH]; [destruct Hin|].
  destruct l as [|y l].
  - destruct Hin as [-> | []]. exact Hsub.
  - cbn [String.concat]. destruct Hin as [-> | Hin].
    + apply is_substring_app_l. exact Hsub.
    + apply is_substring_app_r, is_substring_app_r. exact (IH Hin).
Qed.

(** ** Letter case *)

Lemma nat_of_lower_ascii (c : ascii) :
  nat_of_ascii (PyStr.lower_ascii c)
  = if (65 <=? nat_of_ascii c)%nat && (nat_of_ascii c <=? 90)%nat
    then nat_of_ascii c + 32
    else nat_of_ascii c.
Proof.
  unfold PyStr.lower_ascii.
  destruct ((65 <=? nat_of_ascii c)%nat && (nat_of_ascii c <=? 90)%nat) eqn:Hupper;
    [|reflexivity].
  apply andb_true_iff in Hupper as [Hlo Hhi].
  apply Nat.leb_le in Hlo. apply Nat.leb_le in Hhi.
  apply nat_ascii_embedding. lia.
Qed.

Lemma nat_of_ascii_inj (a b : ascii) : nat_of_ascii a = nat_of_ascii b -> a = b.
Proof.
  intros H. rewrite <- (ascii_nat_embedding a), <- (ascii_nat_embedding b), H. reflexivity.
Qed.

(** Two characters are the same up to case exactly when [lower] makes them
    equal. *)
Lemma same_letter_lower (c d : ascii) :
  same_letter c d = true <-> PyStr.lower_ascii c = PyStr.lower_ascii d.
Proof.
  assert (Hnat : PyStr.lower_ascii c = PyStr.lower_ascii d
                 <-> nat_of_ascii (PyStr.lower_ascii c) = nat_of_ascii (PyStr.lower_ascii d)).
  { split; [intros ->; reflexivity | apply nat_of_ascii_inj]. }
  rewrite Hnat, !nat_of_lower_ascii. unfold same_letter. cbv zeta.
  destruct (Nat.leb_spec 65 (nat_of_ascii c)), (Nat.leb_spec (nat_of_ascii c) 90),
           (Nat.leb_spec 65 (nat_of_ascii d)), (Nat.leb_spec (nat_of_ascii d) 90);
    destruct (Nat.eqb_spec (nat_of_ascii c) (nat_of_ascii d)),
             (Nat.eqb_spec (nat_of_ascii d) (nat_of_ascii c + 32)),
             (Nat.eqb_spec (nat_of_ascii c) (nat_of_ascii d + 32));
    cbn [andb orb]; split; intros Hsame; try reflexivity; try discriminate Hsame; lia.
Qed.

Lemma case_variant_lower (s t : string) :
  case_variant s t = true <-> PyStr.lower s = PyStr.lower t.
Proof.
  revert t. induction s as [|c s IH]; intros [|d t]; simpl.
  - tauto.
  - split; discriminate.
  - split; discriminate.
  - rewrite andb_true_iff, same_letter_lower, IH. split.
    + intros [-> ->]. reflexivity.
    + intros H. injection H as Hc Hs. auto.
Qed.





(** ** More on the tagger *)




(** X14: a tag is given whenever one of its keywords, a keyword of ASCII
    characters, occurs in some letter case in the summary or in one of the
    references. *)
Theorem tag_when_keyword_occurs (summary : string) (references : list string)
    (tag_rules : TagRules) (tag : string) (keywords : list string)
    (keyword field pre occurrence post : string) :
  PyStr.isascii keyword = true ->
  In (tag, Some keywords) tag_rules ->
  In keyword keywords ->
  In field (summary :: references) ->
  field = pre +:+ occurrence +:+ post ->
  case_variant keyword occurrence = true ->
  In tag (_tag_item summary references tag_rules).
Proof.
  intros _ Hrule Hkeyword Hfield Hoccurs Hcase.
  rewrite tag_item_filter, in_map_iff. exists (tag, Some keywords).
  split; [reflexivity|]. apply filter_In. split; [exact Hrule|]. simpl.
  apply any_keyword_spec. exists keywords, keyword.
  split; [reflexivity|]. split; [exact Hkeyword|].
  unfold tag_corpus. rewrite lower_concat.
  apply (is_substring_concat _ _ (PyStr.lower field)).
  - apply in_map. exact Hfield.
  - exists (PyStr.lower pre), (PyStr.lower post).
    apply case_variant_lower in Hcase.
    rewrite Hoccurs, !lower_app, Hcase. reflexivity.
Qed.

Lemma tag_when_keyword_occurs_witness :
  In "crypto"
    (_tag_item "Heap overflow" ["https://example.org/a"; "https://www.OpenSSL.org/news"]
       [("kernel", None); ("crypto", Some ["tls"; "OPENSSL"])]).
Proof.
  apply (tag_when_keyword_occurs "Heap overflow"
           ["https://example.org/a"; "https://www.OpenSSL.org/news"]
           [("kernel", None); ("crypto", Some ["tls"; "OPENSSL"])]
           "crypto" ["tls"; "OPENSSL"] "OPENSSL" "https://www.OpenSSL.org/news"
           "https://www." "OpenSSL" ".org/news").
  - reflexivity.
  - right. left. reflexivity.
  - right. left. reflexivity.
  - right. right. left. reflexivity.
  - reflexivity.
  - reflexivity.
Defined.

Lemma any_keyword_ignoring_case (corpus : string) (kws kws' : list string) :
  Forall2 same_ignoring_case kws kws' ->
  any_keyword corpus (Some kws) = any_keyword corpus (Some kws').
Proof.
  unfold any_keyword. simpl. induction 1 as [|k k' kws kws' Hk _ IH]; simpl; [reflexivity|].
  unfold same_ignoring_case in Hk. rewrite Hk, IH. reflexivity.
Qed.

(** Two rule sets with the same tags whose keywords agree up to letter case. *)
Lemma tag_loop_ignoring_case (corpus : string) (rules rules' : TagRules) (acc : list string) :
  Forall2 (fun rule rule' =>
             fst rule = fst rule' /\
             match snd rule, snd rule' with
             | Some kws, Some kws' => Forall2 same_ignoring_case kws kws'
             | None, None => True
             | _, _ => False
             end) rules rules' ->
  tag_loop corpus rules acc = tag_loop corpus rules' acc.
Proof.
  intros Hrules. revert acc.
  induction Hrules as [|[tag kws] [tag' kws'] rules rules' [Htag Hkws] _ IH]; intros acc;
    [reflexivity|].
  simpl in Htag, Hkws. subst tag'. cbn [tag_loop].
  assert (Hany : any_keyword corpus kws = any_keyword corpus kws').
  { destruct kws as [kws|], kws' as [kws'|]; try contradiction; [|reflexivity].
    apply any_keyword_ignoring_case. exact Hkws. }
  rewrite Hany. destruct (any_keyword corpus kws'); apply IH.
Qed.

(** X15: the tagger ignores letter case throughout: summaries, references
    and keywords that agree up to the case of their letters give the same
    tags. *)
Theorem tag_item_ignores_case (summary summary' : string)
    (references references' : list string) (tag_rules tag_rules' : TagRules) :
  same_ignoring_case summary summary' ->
  Forall2 same_ignoring_case references references' ->
  Forall2 (fun rule rule' =>
             fst rule = fst rule' /\
             match snd rule, snd rule' with
             | Some kws, Some kws' => Forall2 same_ignoring_case kws kws'
             | None, None => True
             | _, _ => False
             end) tag_rules tag_rules' ->
  _tag_item summary references tag_rules = _tag_item summary' references' tag_rules'.
Proof.
  intros Hsummary Hrefs Hrules. unfold _tag_item.
  assert (Hcorpus : tag_corpus summary references = tag_corpus summary' references').
  { unfold tag_corpus. rewrite !lower_concat. f_equal. cbn [map].
    unfold same_ignoring_case in Hsummary. rewrite Hsummary. f_equal.
    induction Hrefs as [|r r' rs rs' Hr _ IH]; [reflexivity|].
    cbn [map]. unfold same_ignoring_case in Hr. rewrite Hr, IH. reflexivity. }
  rewrite Hcorpus. apply tag_loop_ignoring_case. exact Hrules.
Qed.

Lemma tag_item_ignores_case_witness :
  _tag_item "A flaw in OpenSSL" ["https://Example.org/x"] [("crypto", Some ["OpenSSL"])]
  = _tag_item "a FLAW in openssl" ["HTTPS://example.ORG/x"] [("crypto", Some ["OPENSSL"])].
Proof.
  apply (tag_item_ignores_case "A flaw in OpenSSL" "a FLAW in openssl"
           ["https://Example.org/x"] ["HTTPS://example.ORG/x"]
           [("crypto", Some ["OpenSSL"])] [("crypto", Some ["OPENSSL"])]).
  - reflexivity.
  - constructor; [reflexivity | constructor].
  - constructor; [|constructor]. split; [reflexivity|].
    constructor; [reflexivity | constructor].
Defined.

(** X16: each rule is judged on its own: the tags for two rule sets put one
    after the other are the tags for the first followed by the tags for the
    second, and a rule whose keyword list is null or empty gives no tag. *)
Theorem tag_item_rule_by_rule (summary : string) (references : list string)
    (rules1 rules2 : TagRules) :
  _tag_item summary references (rules1 ++ rules2)
  = _tag_item summary references rules1 ++ _tag_item summary references rules2 /\
  (forall tag keywords,
      keywords = None \/ keywords = Some [] ->
      _tag_item summary references (rules1 ++ (tag, keywords) :: rules2)
      = _tag_item summary references (rules1 ++ rules2)).
Proof.
  rewrite !tag_item_filter. split.
  - rewrite List.filter_app, map_app. reflexivity.
  - intros tag keywords Hempty. rewrite !tag_item_filter, !List.filter_app.
    cbn [List.filter snd]. destruct Hempty as [-> | ->]; reflexivity.
Qed.

(** ** More on the normaliser *)

Lemma lstrip_head (s : string) (c : ascii) (rest : string) :
  PyStr.lstrip s = String c rest -> PyStr.is_space c = false.
Proof.
  induction s as [|a s IH]; simpl; [discriminate|].
  destruct (PyStr.is_space a) eqn:Ha; [exact IH|].
  intros H. injection H as <- _. exact Ha.
Qed.

Lemma rstrip_head (s : string) (c : ascii) (rest : string) :
  PyStr.rstrip s = String c rest -> exists rest', s = String c rest'.
Proof.
  destruct s as [|a s]; simpl; [discriminate|].
  destruct (PyStr.rstrip s).
  - destruct (PyStr.is_space a); [discriminate|]. intros H. injection H as <- _. eauto.
  - intros H. injection H as <- _. eauto.
Qed.

Lemma rstrip_last (s pre : string) (c : ascii) :
  PyStr.rstrip s = pre +:+ String c "" -> PyStr.is_space c = false.
Proof.
  revert pre. induction s as [|a s IH]; intros pre; simpl.
  - destruct pre; discriminate.
  - destruct (PyStr.rstrip s) as [|b r] eqn:Hr.
    + destruct (PyStr.is_space a) eqn:Ha; [destruct pre; discriminate|].
      destruct pre as [|p pre]; intros H.
      * injection H as <-. exact Ha.
      * injection H as _ H. destruct pre; discriminate H.
    + destruct pre as [|p pre]; intros H.
      * injection H as _ H. discriminate H.
      * injection H as _ H. exact (IH pre H).
Qed.

Lemma extract_summary_is_strip (cve : RawCve) :
  exists text, _extract_summary cve = PyStr.strip text.
Proof.
  unfold _extract_summary.
  assert (Hfirst : forall ds s, first_english ds = Some s -> exists text, s = PyStr.strip text).
  { induction ds as [|d ds IH]; simpl; [discriminate|]. intros s.
    destruct (d_lang d) as [lang|]; [|apply IH].
    destruct (d_value d) as [value|]; [|apply IH].
    destruct (String.eqb lang "en" && PyStr.truthy value); [|apply IH].
    intros H. injection H as <-. eauto. }
  destruct (first_english (default [] (raw_descriptions cve))) as [s|] eqn:Hs.
  - exact (Hfirst _ _ Hs).
  - destruct (default [] (raw_descriptions cve)) as [|first rest]; [exists ""|]; eauto.
Qed.

Lemma is_space_whitespace (c : ascii) :
  PyStr.is_space c = existsb (Nat.eqb (nat_of_ascii c)) ascii_whitespace.
Proof.
  unfold PyStr.is_space, ascii_whitespace. cbn [existsb]. cbv zeta.
  destruct (Nat.leb_spec 9 (nat_of_ascii c)), (Nat.leb_spec (nat_of_ascii c) 13),
           (Nat.leb_spec 28 (nat_of_ascii c)), (Nat.leb_spec (nat_of_ascii c) 32);
    cbn [andb orb];
    repeat match goal with
           | |- context [Nat.eqb ?a ?b] => destruct (Nat.eqb_spec a b)
           end;
    cbn [orb]; try reflexivity; lia.
Qed.

Lemma is_space_In (c : ascii) :
  PyStr.is_space c = false -> ~ In (nat_of_ascii c) ascii_whitespace.
Proof.
  rewrite is_space_whitespace. intros Hnot Hin.
  assert (Hex : existsb (Nat.eqb (nat_of_ascii c)) ascii_whitespace = true).
  { apply existsb_exists. exists (nat_of_ascii c). split; [exact Hin | apply Nat.eqb_refl]. }
  congruence.
Qed.

(** [lstrip] and [rstrip] take away whitespace only. *)
Lemma lstrip_decompose (s : string) :
  exists pre, s = pre +:+ PyStr.lstrip s /\ all_whitespace pre = true.
Proof.
  induction s as [|c s [pre [Hs Hpre]]].
  - exists "". auto.
  - cbn [PyStr.lstrip]. destruct (PyStr.is_space c) eqn:Hc.
    + exists (String c pre). split.
      * change (String c s = String c (pre +:+ PyStr.lstrip s)). f_equal. exact Hs.
      * cbn [all_whitespace]. rewrite <- is_space_whitespace, Hc. exact Hpre.
    + exists "". auto.
Qed.

Lemma rstrip_decompose (s : string) :
  exists post, s = PyStr.rstrip s +:+ post /\ all_whitespace post = true.
Proof.
  induction s as [|c s [post [Hs Hpost]]].
  - exists "". auto.
  - cbn [PyStr.rstrip]. destruct (PyStr.rstrip s) as [|d r] eqn:Hr.
    + destruct (PyStr.is_space c) eqn:Hc.
      * exists (String c post). split.
        -- change (String c s = String c post). f_equal. exact Hs.
        -- cbn [all_whitespace]. rewrite <- is_space_whitespace, Hc. exact Hpost.
      * exists post. split; [|exact Hpost].
        change (String c s = String c post). f_equal. exact Hs.
    + exists post. split; [|exact Hpost].
      change (String c s = String c (String d r +:+ post)). f_equal. exact Hs.
Qed.

Lemma strip_decompose (s : string) :
  exists pre post,
    s = pre +:+ PyStr.strip s +:+ post /\
    all_whitespace pre = true /\ all_whitespace post = true.
Proof.
  destruct (lstrip_decompose s) as [pre [Hs Hpre]].
  destruct (rstrip_decompose (PyStr.lstrip s)) as [post [Ht Hpost]].
  exists pre, post. unfold PyStr.strip. rewrite <- Ht. auto.
Qed.

(** The summary is the stripped value of one of the descriptions. *)
Lemma extract_summary_source (cve : RawCve) (descriptions : list RawDescription) :
  raw_descriptions cve = Some descriptions ->
  descriptions <> [] ->
  exists entry,
    In entry descriptions /\
    _extract_summary cve = PyStr.strip (default "" (d_value entry)).
Proof.
  intros Hd Hne. unfold _extract_summary. rewrite Hd. cbn [default from_option id].
  assert (Hfirst : forall ds s,
             first_english ds = Some s ->
             exists entry, In entry ds /\ s = PyStr.strip (default "" (d_value entry))).
  { induction ds as [|d ds IH]; simpl; [discriminate|]. intros s Hs.
    assert (Hrest : first_english ds = Some s ->
                    exists entry,
                      (d = entry \/ In entry ds) /\
                      s = PyStr.strip (default "" (d_value entry))).
    { intros H. destruct (IH s H) as [entry [Hin Heq]]. exists entry. auto. }
    destruct (d_lang d) as [lang|]; [|exact (Hrest Hs)].
    destruct (d_value d) as [value|] eqn:Hvalue; [|exact (Hrest Hs)].
    destruct (String.eqb lang "en" && PyStr.truthy value); [|exact (Hrest Hs)].
    injection Hs as <-. exists d. rewrite Hvalue. auto. }
  destruct (first_english descriptions) as [s|] eqn:Hs.
  - exact (Hfirst _ _ Hs).
  - destruct descriptions as [|first rest]; [contradiction|].
    exists first. split; [left; reflexivity | reflexivity].
Qed.

(** X17: for a record whose descriptions are ASCII text, on which
    [PyStr.strip] is [str.strip()], the summary is the value of one of the
    descriptions without the whitespace at its two ends: it never begins or
    ends with a whitespace character. The summary of a record without
    description is empty. *)
Theorem extract_summary_is_trimmed (cve : RawCve) :
  Forall (fun entry => PyStr.isascii (default "" (d_value entry)) = true)
    (default [] (raw_descriptions cve)) ->
  (forall c rest,
      _extract_summary cve = String c rest -> ~ In (nat_of_ascii c) ascii_whitespace) /\
  (forall pre c,
      _extract_summary cve = pre +:+ String c "" -> ~ In (nat_of_ascii c) ascii_whitespace) /\
  (forall descriptions,
      raw_descriptions cve = Some descriptions ->
      descriptions <> [] ->
      exists entry pre post,
        In entry descriptions /\
        default "" (d_value entry) = pre +:+ _extract_summary cve +:+ post /\
        all_whitespace pre = true /\ all_whitespace post = true) /\
  (raw_descriptions cve = None \/ raw_descriptions cve = Some [] ->
   _extract_summary cve = "").
Proof.
  intros _.
  destruct (extract_summary_is_strip cve) as [text Htext]. split; [|split; [|split]].
  - intros c rest H. rewrite Htext in H. unfold PyStr.strip in H.
    apply rstrip_head in H as [rest' H]. exact (is_space_In _ (lstrip_head _ _ _ H)).
  - intros pre c H. rewrite Htext in H. exact (is_space_In _ (rstrip_last _ _ _ H)).
  - intros descriptions Hd Hne.
    destruct (extract_summary_source cve descriptions Hd Hne) as [entry [Hin ->]].
    destruct (strip_decompose (default "" (d_value entry))) as [pre [post [Hs [Hpre Hpost]]]].
    exists entry, pre, post. auto.
  - unfold _extract_summary. intros [-> | ->]; reflexivity.
Qed.

Lemma extract_summary_is_trimmed_witness :
  _extract_summary (Scenario.advisory "CVE-2024-0001" "2024-01-01T00:00:00.000"
                      "   Heap overflow in libfoo.  ")
  = "Heap overflow in libfoo." /\
  (forall c rest,
      _extract_summary (Scenario.advisory "CVE-2024-0001" "2024-01-01T00:00:00.000"
                          "   Heap overflow in libfoo.  ")
      = String c rest ->
      ~ In (nat_of_ascii c) ascii_whitespace).
Proof.
  split; [reflexivity|].
  apply (extract_summary_is_trimmed
           (Scenario.advisory "CVE-2024-0001" "2024-01-01T00:00:00.000"
              "   Heap overflow in libfoo.  ")).
  constructor; [reflexivity | constructor].
Defined.

(** X18: an item always has a non-empty id, the record's own when it has a
    non-empty one; its URL is the NVD detail URL of that id; and its
    [published] is the record's [published], else its [lastModified], being
    empty only when the record has neither. *)
Theorem normalize_item_identity (cve : RawCve) (tag_rules : TagRules) :
  let item := _normalize_item cve tag_rules in
  cve_id item <> "" /\
  (forall id, raw_id cve = Some id -> id <> "" -> cve_id item = id) /\
  nvd_url item = "https://nvd.nist.gov/vuln/detail/" +:+ cve_id item /\
  (forall date, raw_published cve = Some date -> date <> "" -> published item = date) /\
  (raw_published cve = None \/ raw_published cve = Some "" ->
   forall date, raw_lastModified cve = Some date -> published item = date) /\
  (published item = "" ->
   (raw_published cve = None \/ raw_published cve = Some "") /\
   (raw_lastModified cve = None \/ raw_lastModified cve = Some "")).
Proof.
  cbn [_normalize_item cve_id nvd_url published]. unfold PyStr.or_else.
  split; [|split; [|split; [|split; [|split]]]].
  - destruct (raw_id cve) as [[|c id]|]; simpl; discriminate.
  - intros id -> Hid. destruct id; [contradiction | reflexivity].
  - reflexivity.
  - intros date -> Hdate. destruct date; [contradiction | reflexivity].
  - intros Hpublished date ->.
    destruct Hpublished as [-> | ->]; simpl; destruct date; reflexivity.
  - destruct (raw_published cve) as [[|c date]|]; simpl;
      destruct (raw_lastModified cve) as [[|c' date']|]; simpl; intros H;
      try discriminate H; auto.
Qed.

(** ** The message *)

Lemma substring_prefix (head tail : string) :
  String.substring 0 (String.length head) (head +:+ tail) = head.
Proof.
  induction head as [|c head IH]; simpl.
  - destruct tail; reflexivity.
  - f_equal. exact IH.
Qed.

Lemma substring_length_le (n : nat) (s : string) :
  String.length (String.substring 0 n s) <= n.
Proof.
  revert s. induction n as [|n IH]; intros s.
  - destruct s; simpl; lia.
  - destruct s as [|c s]; simpl; [lia|]. specialize (IH s). lia.
Qed.

Lemma substring_all (n : nat) (s : string) :
  String.length s <= n -> String.substring 0 n s = s.
Proof.
  revert n. induction s as [|c s IH]; intros n Hn.
  - destruct n; reflexivity.
  - change (String.length (String c s)) with (S (String.length s)) in Hn.
    destruct n as [|n]; [lia|].
    change (String c (String.substring 0 n s) = String c s). f_equal. apply IH. lia.
Qed.

Lemma concat_snoc (sep : string) (lines : list string) (first last : string) :
  String.concat sep ((first :: lines) ++ [last])
  = String.concat sep (first :: lines) +:+ sep +:+ last.
Proof.
  revert first. induction lines as [|line lines IH]; intros first.
  - reflexivity.
  - change (String.concat sep ((first :: line :: lines) ++ [last]))
      with (first +:+ sep +:+ String.concat sep ((line :: lines) ++ [last])).
    rewrite IH.
    change (String.concat sep (first :: line :: lines))
      with (first +:+ sep +:+ String.concat sep (line :: lines)).
    rewrite !app_assoc_string. reflexivity.
Qed.

(** X19: for summaries of ASCII text, where a character is a byte, the
    message shows at most the first 300 characters of the summary: two items
    that differ only beyond them give the same message, and a summary of at
    most 300 characters is shown whole. The references, when there are any,
    come as one last line after the message of the item without them; and
    the score is shown as "N/A" when there is none. *)
Theorem format_message_layout (str_float : Q -> string) (item : CveItem) :
  (forall head tail tail',
      PyStr.isascii (head +:+ tail) = true ->
      PyStr.isascii (head +:+ tail') = true ->
      String.length head = 300 ->
      _format_message str_float (with_summary (head +:+ tail) item)
      = _format_message str_float (with_summary (head +:+ tail') item)) /\
  (PyStr.isascii (summary item) = true ->
   String.length (summary item) <= 300 ->
   is_substring (newline +:+ "Summary: " +:+ summary item +:+ newline)
     (_format_message str_float item)) /\
  _format_message str_float item
  = _format_message str_float (without_references item)
    +:+ match references item with
        | [] => ""
        | _ :: _ => newline +:+ "References: " +:+ String.concat ", " (references item)
        end /\
  (base_score (cvss item) = None ->
   is_substring (newline +:+ "CVSS: N/A" +:+ newline) (_format_message str_float item)).
Proof.
  split; [|split; [|split]].
  - intros head tail tail' _ _ Hhead. unfold _format_message, with_summary.
    cbn [summary cve_id published cvss tags references nvd_url].
    rewrite <- Hhead, !substring_prefix. reflexivity.
  - intros _ Hshort.
    unfold _format_message. rewrite (substring_all _ _ Hshort).
    destruct (references item) as [|ref refs].
    + exists ("*" +:+ cve_id item +:+ "*" +:+ newline +:+
              "Published: " +:+ published item +:+ newline +:+
              "CVSS: " +:+ match base_score (cvss item) with
                           | Some score =>
                               str_float score +:+ " ("
                               +:+ str_optional (severity (cvss item)) +:+ ")"
                           | None => "N/A"
                           end +:+ newline +:+
              "Tags: " +:+ match tags item with
                           | [] => "none"
                           | _ :: _ => String.concat ", " (tags item)
                           end),
             ("NVD: " +:+ nvd_url item).
      cbn [String.concat]. rewrite !app_assoc_string. reflexivity.
    + exists ("*" +:+ cve_id item +:+ "*" +:+ newline +:+
              "Published: " +:+ published item +:+ newline +:+
              "CVSS: " +:+ match base_score (cvss item) with
                           | Some score =>
                               str_float score +:+ " ("
                               +:+ str_optional (severity (cvss item)) +:+ ")"
                           | None => "N/A"
                           end +:+ newline +:+
              "Tags: " +:+ match tags item with
                           | [] => "none"
                           | _ :: _ => String.concat ", " (tags item)
                           end),
             ("NVD: " +:+ nvd_url item +:+ newline +:+
              "References: " +:+ String.concat ", " (ref :: refs)).
      cbn [String.concat app]. rewrite !app_assoc_string. reflexivity.
  - unfold _format_message, without_references.
    cbn [summary cve_id published cvss tags references nvd_url].
    destruct (references item) as [|ref refs].
    + rewrite app_nil_r_string. reflexivity.
    + rewrite concat_snoc. reflexivity.
  - intros Hnone. unfold _format_message. rewrite Hnone.
    destruct (references item) as [|ref refs].
    + exists ("*" +:+ cve_id item +:+ "*" +:+ newline +:+ "Published: " +:+ published item),
             ("Tags: " +:+ match tags item with
                           | [] => "none"
                           | _ :: _ => String.concat ", " (tags item)
                           end +:+ newline +:+
              "Summary: " +:+ String.substring 0 300 (summary item) +:+ newline +:+
              "NVD: " +:+ nvd_url item).
      cbn [String.concat]. rewrite !app_assoc_string. reflexivity.
    + exists ("*" +:+ cve_id item +:+ "*" +:+ newline +:+ "Published: " +:+ published item),
             ("Tags: " +:+ match tags item with
                           | [] => "none"
                           | _ :: _ => String.concat ", " (tags item)
                           end +:+ newline +:+
              "Summary: " +:+ String.substring 0 300 (summary item) +:+ newline +:+
              "NVD: " +:+ nvd_url item +:+ newline +:+
              "References: " +:+ String.concat ", " (ref :: refs)).
      cbn [String.concat app]. rewrite !app_assoc_string. reflexivity.
Qed.

Lemma format_message_layout_witness :
  _format_message (fun _ => "7.5")
    (with_summary (Scenario.long_text +:+ " and more") SecondPostFails.item1)
  = _format_message (fun _ => "7.5")
      (with_summary (Scenario.long_text +:+ ", then something else")
         SecondPostFails.item1) /\
  is_substring (newline +:+ "Summary: A flaw in OpenSSL handling of TLS handshakes" +:+ newline)
    (_format_message (fun _ => "7.5") SecondPostFails.item1).
Proof.
  destruct (format_message_layout (fun _ => "7.5") SecondPostFails.item1)
    as [Hcut [Hwhole _]].
  split.
  - apply Hcut; reflexivity.
  - apply Hwhole; [reflexivity|]. vm_compute. lia.
Defined.

Example format_message_example :
  _format_message (fun _ => "7.5")
    {| cve_id := "CVE-2024-0001"; published := "2024-01-01T00:00:00.000";
       cvss := {| version := "3.1"; base_score := Some (75 # 10); severity := None |};
       summary := "A flaw"; tags := ["crypto"; "tls"];
       references := ["https://a.example"; "https://b.example"];
       nvd_url := "https://nvd.nist.gov/vuln/detail/CVE-2024-0001" |}
  = String.concat newline
      ["*CVE-2024-0001*";
       "Published: 2024-01-01T00:00:00.000";
       "CVSS: 7.5 (None)";
       "Tags: crypto, tls";
       "Summary: A flaw";
       "NVD: https://nvd.nist.gov/vuln/detail/CVE-2024-0001";
       "References: https://a.example, https://b.example"].
Proof. reflexivity. Qed.

(** ** The phases of a run *)

Lemma retry_event_early (evs : list event) :
  forallb retry_event evs = true -> forallb early_event evs = true.
Proof.
  rewrite !forallb_forall. intros H ev Hev. unfold early_event, fetch_event.
  rewrite (H ev Hev), orb_true_r. reflexivity.
Qed.

(** X20: a run goes through its phases in order. It first reads the
    watchlist, makes its requests and reports errors; it may end there.
    Otherwise it reads the store file once and either prints that nothing is
    new, or makes its posts, then writes the store file once and prints the
    count. Nothing is posted before the store file is read or after it is
    written. *)
Theorem run_phases (w : World) :
  exists early,
    forallb early_event early = true /\
    (trace (snd (run w)) = early
     \/ trace (snd (run w)) = early ++ [ReadStore; Print "No new CVEs to post."]
     \/ exists posts cve_ids msg,
          forallb notify_event posts = true /\
          trace (snd (run w)) = early ++ ReadStore :: posts ++ [WriteStore cve_ids; Print msg]).
Proof.
  unfold run, initial_state.
  destruct (main_before_filter w []) as [[url [items [tr1 Hreach]]] | [r [evs [_ [Hp Hmain]]]]].
  - specialize (Hreach (posted_file w)).
    rewrite (reaches_filter_main _ _ _ _ _ Hreach).
    destruct (reaches_filter_trace _ _ _ _ _ Hreach) as [_ [evs [Ht Hp]]].
    cbn [trace app] in Ht.
    exists tr1. split.
    { rewrite Ht. simpl. apply retry_event_early. exact Hp. }
    pose proof (main_after_fetch_run w url items {| store := posted_file w; trace := tr1 |})
      as Hrun.
    cbv zeta in Hrun. cbn [store trace] in Hrun. rewrite Hrun.
    destruct (unposted items (store_ids (posted_file w))) as [|first rest].
    + right. left. reflexivity.
    + right. right. eexists _, _, _. split; [apply notify_events_class | reflexivity].
  - exists evs. split; [exact Hp|]. left. rewrite Hmain. reflexivity.
Qed.

(** ** Failures of the fetch outside its requests *)

(** X21: when HOURS_BACK is an integer so large that the window of the
    fetch would start before the year 1, a run that is otherwise well
    configured ends with an [OverflowError] that leaves [main], after the
    first reading of the watchlist and before anything else: nothing is
    requested, nothing is posted, the store file is not touched, and the
    process exits with status 1. *)
Theorem window_before_year_one_is_fatal (w : World) (webhook_url : string)
    (qs : list string) (hours : Z) :
  env_SLACK_WEBHOOK_URL w = Some webhook_url ->
  webhook_url <> "" ->
  loaded_queries w 0 = Some qs ->
  qs <> [] ->
  env_HOURS_BACK w = HoursInt hours ->
  (datetime_now w < hours * 3600000000)%Z ->
  run w = (Raise OverflowError, {| store := posted_file w; trace := [ReadWatchlist] |}) /\
  exit_status (fst (run w)) = 1%Z.
Proof.
  intros Hurl Hne Hqueries Hqs Hhours Hfar.
  assert (Hrun : run w = (Raise OverflowError,
                          {| store := posted_file w; trace := [ReadWatchlist] |})).
  { unfold run, initial_state, main. rewrite Hurl.
    destruct webhook_url as [|c url]; [contradiction|]. cbn [PyStr.truthy negb].
    unfold bind at 1. rewrite load_watchlist_run. cbn [trace store app].
    change (count_events is_ReadWatchlist []) with 0.
    unfold loaded_queries in Hqueries.
    destruct (watchlist_file w 0) as [msg|loaded]; [discriminate Hqueries|].
    injection Hqueries as Hqueries. cbn [queries]. rewrite Hqueries.
    destruct qs as [|query rest]; [contradiction|].
    unfold bind at 1. unfold read_hours_back. rewrite Hhours. unfold ret.
    unfold bind at 1, try_RuntimeError. rewrite fetch_cves_window.
    assert (Hwindow : window_in_range w hours = false).
    { unfold window_in_range.
      replace (0 <=? datetime_now w - hours * 3600000000)%Z with false
        by (symmetry; apply Z.leb_gt; lia).
      apply andb_false_r. }
    rewrite Hwindow. reflexivity. }
  rewrite Hrun. split; reflexivity.
Qed.

Lemma window_before_year_one_is_fatal_witness :
  run Scenario.far_back
  = (Raise OverflowError, {| store := FileAbsent; trace := [ReadWatchlist] |}) /\
  exit_status (fst (run Scenario.far_back)) = 1%Z.
Proof.
  apply (window_before_year_one_is_fatal Scenario.far_back "https://hooks.example/T"
           ["openssl"] 20000000).
  - reflexivity.
  - discriminate.
  - reflexivity.
  - discriminate.
  - reflexivity.
  - vm_compute. reflexivity.
Defined.

(** X22: when the watchlist gives [tag_rules] the value [null], the fetch
    fails with an [AttributeError] at the first record it has to tag: if the
    reply to its first request is a success whose body holds a record, the
    fetch ends there, after one reading of the watchlist and one request. *)
Theorem null_tag_rules_fail_at_first_record (w : World) (query : string)
    (rest : list string) (api_key : option string) (hours_back : Z) (st : State)
    (response : Response) (body : NvdBody) :
  (0 <= hours_back)%Z ->
  (hours_back * 3600000000 <= datetime_now w)%Z ->
  (datetime_now w <= DATETIME_MAX)%Z ->
  tag_rules_null w (count_events is_ReadWatchlist (trace st)) ->
  nvd_api w (count_events is_HttpGet (trace st))
    {| keywordSearch := query; cvssV3Severity := "HIGH" |} = Replied response ->
  is_success response = true ->
  json_body response = Json body ->
  body_records body <> [] ->
  _fetch_cves w (query :: rest) api_key hours_back st
  = (Raise AttributeError,
     {| store := store st;
        trace := trace st
                 ++ [ReadWatchlist;
                     HttpGet {| keywordSearch := query; cvssV3Severity := "HIGH" |}
                             (headers_of_key api_key)] |}).
Proof.
  intros Hpos Hstart Hnow [data [Hfile Hnull]] Hreply Hok Hbody Hrecords.
  pose proof (window_in_range_back w hours_back Hpos Hstart Hnow) as Hwindow.
  assert (Hload : _load_watchlist w st
                  = (Ok {| queries := default [] (y_queries data); tag_rules := None |},
                     {| store := store st; trace := trace st ++ [ReadWatchlist] |})).
  { rewrite load_watchlist_run, Hfile. simpl. rewrite Hnull. reflexivity. }
  rewrite fetch_cves_window, Hwindow. unfold fetch_in_window.
  unfold bind at 1. rewrite Hload. cbn [tag_rules].
  unfold bind at 1. cbn [fetch_queries]. unfold bind at 1. cbn [fetch_severities].
  unfold bind at 1. rewrite request_with_retry_run. cbn [trace store].
  rewrite count_events_app. change (count_events is_HttpGet [ReadWatchlist]) with 0.
  rewrite !Nat.add_0_r.
  assert (Hlast : last_attempt
                    (fun i => nvd_api w (count_events is_HttpGet (trace st) + i)
                                {| keywordSearch := query; cvssV3Severity := "HIGH" |}) = 0).
  { unfold last_attempt. rewrite Nat.add_0_r, Hreply. cbn [retryable].
    fold (is_transient (status_code response)).
    destruct (is_transient (status_code response)) eqn:Htransient; [|reflexivity].
    unfold is_success in Hok. rewrite (is_transient_is_error _ Htransient) in Hok.
    discriminate Hok. }
  rewrite Hlast, Nat.add_0_r, Hreply. cbn [request_outcome request_events].
  unfold is_success in Hok. apply negb_true_iff in Hok. rewrite Hok, Hbody.
  unfold bind at 1. rewrite merge_entries_run.
  unfold body_records in Hrecords.
  destruct (List.filter _ _) as [|cve cves]; [contradiction|].
  unfold headers_of_key. rewrite <- app_assoc. reflexivity.
Qed.

Lemma null_tag_rules_fail_at_first_record_witness :
  _fetch_cves Scenario.null_rules ["openssl"] None 24 (initial_state Scenario.null_rules)
  = (Raise AttributeError,
     {| store := FileAbsent;
        trace := [ReadWatchlist;
                  HttpGet {| keywordSearch := "openssl"; cvssV3Severity := "HIGH" |}
                          {| apiKey := None |}] |}).
Proof.
  apply (null_tag_rules_fail_at_first_record Scenario.null_rules "openssl" [] None 24
           (initial_state Scenario.null_rules)
           {| status_code := 200; error_text := "HTTP error";
              json_body :=
                Json {| vulnerabilities := Some [Some {| e_cve := Some Scenario.flaw1 |}] |} |}
           {| vulnerabilities := Some [Some {| e_cve := Some Scenario.flaw1 |}] |}).
  - lia.
  - vm_compute. discriminate.
  - vm_compute. discriminate.
  - eexists. split; reflexivity.
  - reflexivity.
  - reflexivity.
  - reflexivity.
  - vm_compute. discriminate.
Defined.
